(** * Download-and-reconciliation engine of the paired-asset downloader

    A shallow embedding of [epstein_downloader.py] (identity resolution,
    the retrying single-file fetch, companion probing, the progress
    ledger and the dispatcher's result collection) and of the ledger
    handling of [retry_skipped.py], with the properties stated about
    them.

    Conventions.
    - A Python [str] is a Rocq [string], read as the bytes of its UTF-8
      encoding.  The character classes [\s] and [\d] of [re] are the
      ASCII ones; [unquote] is the byte-level percent-decoding (its last
      step, decoding with [errors='replace'], is the identity on
      well-formed UTF-8 and is not modelled on ill-formed bytes).
    - [os.path] is [posixpath]. *)

From Stdlib Require Import ZArith Ascii String List Bool Lia.
From Stdlib.Strings Require Import Byte.
From stdpp Require Import base option list gmap strings sorting.

Local Open Scope string_scope.
Local Open Scope Z_scope.
Local Set Warnings "-register-all".

(* ===================================================================== *)
(** ** Python string primitives *)
(* ===================================================================== *)

Module PyStr.

(** [s.startswith(p)] *)
Definition startswith (s p : string) : bool := String.prefix p s.

(** [s[n:]] *)
Fixpoint drop (n : nat) (s : string) : string :=
  match n, s with
  | O, _ => s
  | S n', String _ s' => drop n' s'
  | S _, EmptyString => EmptyString
  end.

(** [s[:n]] *)
Fixpoint take (n : nat) (s : string) : string :=
  match n, s with
  | O, _ => EmptyString
  | S n', String c s' => String c (take n' s')
  | S _, EmptyString => EmptyString
  end.

(** [c in s] for a one-character [c] *)
Fixpoint contains (c : ascii) (s : string) : bool :=
  match s with
  | EmptyString => false
  | String d s' => if Ascii.eqb c d then true else contains c s'
  end.

(** [s.find(c)]: index of the first occurrence, [-1] when absent. *)
Fixpoint find (c : ascii) (s : string) : Z :=
  match s with
  | EmptyString => -1
  | String d s' =>
      if Ascii.eqb c d then 0
      else let i := find c s' in if i <? 0 then -1 else i + 1
  end.

(** [s.rfind(c)]: index of the last occurrence, [-1] when absent. *)
Fixpoint rfind (c : ascii) (s : string) : Z :=
  match s with
  | EmptyString => -1
  | String d s' =>
      let i := rfind c s' in
      if 0 <=? i then i + 1 else if Ascii.eqb c d then 0 else -1
  end.

(** [s.replace(old, new)] for a non-empty [old]: occurrences are
    replaced from the left, without overlap.  [skip] counts the
    characters of a replaced occurrence still to be passed over. *)
Fixpoint replace_from (old new : string) (skip : nat) (s : string) : string :=
  match s with
  | EmptyString => EmptyString
  | String c s' =>
      match skip with
      | S k => replace_from old new k s'
      | O =>
          if String.prefix old s
          then new ++ replace_from old new (Nat.pred (String.length old)) s'
          else String c (replace_from old new O s')
      end
  end.

Definition replace (s old new : string) : string := replace_from old new O s.

(** [s.split(sep)] for a one-character separator: never empty. *)
Fixpoint split (sep : ascii) (s : string) : list string :=
  match s with
  | EmptyString => [EmptyString]
  | String c s' =>
      if Ascii.eqb c sep then EmptyString :: split sep s'
      else match split sep s' with
           | h :: t => String c h :: t
           | [] => [String c EmptyString]
           end
  end.

(** [l[-1]] of a list of strings ([""] stands for the impossible
    empty list). *)
Definition last_item (l : list string) : string := List.last l EmptyString.

(** [s.lstrip(chars)] with the character set given as a predicate. *)
Fixpoint lstrip (p : ascii -> bool) (s : string) : string :=
  match s with
  | EmptyString => EmptyString
  | String c s' => if p c then lstrip p s' else s
  end.

(** [s.rstrip("/")]-like: drop the trailing characters satisfying [p]. *)
Fixpoint rstrip (p : ascii -> bool) (s : string) : string :=
  match s with
  | EmptyString => EmptyString
  | String c s' =>
      match rstrip p s' with
      | EmptyString => if p c then EmptyString else String c EmptyString
      | r => String c r
      end
  end.

(** Longest prefix of characters satisfying [p], and the rest. *)
Fixpoint span (p : ascii -> bool) (s : string) : string * string :=
  match s with
  | EmptyString => (EmptyString, EmptyString)
  | String c s' =>
      if p c then let '(a, b) := span p s' in (String c a, b)
      else (EmptyString, s)
  end.

Fixpoint forallb (p : ascii -> bool) (s : string) : bool :=
  match s with
  | EmptyString => true
  | String c s' => p c && forallb p s'
  end.

Definition code (c : ascii) : N := N_of_ascii c.

Definition in_range (lo hi : N) (c : ascii) : bool :=
  ((lo <=? code c) && (code c <=? hi))%N.

Definition is_digit (c : ascii) : bool := in_range 48 57 c.
Definition is_upper (c : ascii) : bool := in_range 65 90 c.
Definition is_lower (c : ascii) : bool := in_range 97 122 c.
Definition is_alpha (c : ascii) : bool := is_upper c || is_lower c.

(** [str.isspace] on one ASCII character: TAB, LF, VT, FF, CR, the
    separators 0x1c-0x1f and the space. *)
Definition is_space (c : ascii) : bool :=
  in_range 9 13 c || in_range 28 31 c || (code c =? 32)%N.

Definition hex_value (c : ascii) : option N :=
  if is_digit c then Some (code c - 48)%N
  else if in_range 97 102 c then Some (code c - 87)%N
  else if in_range 65 70 c then Some (code c - 55)%N
  else None.

End PyStr.

(* ===================================================================== *)
(** ** Library functions used by the identity resolver *)
(* ===================================================================== *)

(** White space.  A string is read as its UTF-8 bytes, so a character
    of [str.isspace] is one byte below 128 ([PyStr.is_space]), or two
    bytes (U+0085 and U+00A0: C2 85, C2 A0), or three (U+1680: E1 9A 80;
    U+2000 to U+200A, U+2028, U+2029, U+202F: E2 80 and 80 to 8A, A8,
    A9, AF; U+205F: E2 81 9F; U+3000: E3 80 80). *)
Definition space2 (c d : ascii) : bool :=
  ((PyStr.code c =? 194) && ((PyStr.code d =? 133) || (PyStr.code d =? 160)))%N.

Definition space3 (c d e : ascii) : bool :=
  ((PyStr.code c =? 225) && (PyStr.code d =? 154) && (PyStr.code e =? 128)
   || (PyStr.code c =? 226) && (PyStr.code d =? 128)
      && (PyStr.in_range 128 138 e || (PyStr.code e =? 168) || (PyStr.code e =? 169)
          || (PyStr.code e =? 175))
   || (PyStr.code c =? 226) && (PyStr.code d =? 129) && (PyStr.code e =? 159)
   || (PyStr.code c =? 227) && (PyStr.code d =? 128) && (PyStr.code e =? 128))%N.

(** [s] is one white-space character. *)
Definition is_space_char (s : string) : bool :=
  match s with
  | String c EmptyString => PyStr.is_space c
  | String c (String d EmptyString) => space2 c d
  | String c (String d (String e EmptyString)) => space3 c d e
  | _ => false
  end.

(** [s.lstrip()] *)
Fixpoint lstrip_space (s : string) : string :=
  match s with
  | EmptyString => EmptyString
  | String c s1 =>
      if PyStr.is_space c then lstrip_space s1
      else
        match s1 with
        | EmptyString => s
        | String d s2 =>
            if space2 c d then lstrip_space s2
            else
              match s2 with
              | EmptyString => s
              | String e s3 => if space3 c d e then lstrip_space s3 else s
              end
        end
  end.

(** [s.rstrip()] *)
Fixpoint rstrip_space (s : string) : string :=
  match s with
  | EmptyString => EmptyString
  | String c s' =>
      let r := String c (rstrip_space s') in
      if is_space_char r then EmptyString else r
  end.

(** A continuation byte of UTF-8, 80 to BF. *)
Definition is_cont (c : ascii) : bool := PyStr.in_range 128 191 c.

(** The second byte that may follow the first byte [c] of a character
    of three or four bytes: the ranges that leave out the overlong
    forms, the surrogates and what lies beyond U+10FFFF. *)
Definition second_ok (c d : ascii) : bool :=
  let c := PyStr.code c in
  (if c =? 224 then PyStr.in_range 160 191 d
   else if c =? 237 then PyStr.in_range 128 159 d
   else if c =? 240 then PyStr.in_range 144 191 d
   else if c =? 244 then PyStr.in_range 128 143 d
   else is_cont d)%N.

(** U+FFFD, the replacement character. *)
Definition replacement : string := String "239" (String "191" (String "189" EmptyString)).

(** [bytes.decode("utf-8", errors="replace")], the text again as UTF-8
    bytes: a well-formed character stays; a byte that starts no
    character, and a character that breaks off (before a byte that does
    not continue it, or at the end), become one U+FFFD each. *)
Fixpoint utf8_replace (s : string) : string :=
  match s with
  | EmptyString => EmptyString
  | String b1 s1 =>
      if (PyStr.code b1 <? 128)%N then String b1 (utf8_replace s1)
      else if PyStr.in_range 194 223 b1 then
        match s1 with
        | EmptyString => replacement
        | String b2 s2 =>
            if is_cont b2 then String b1 (String b2 (utf8_replace s2))
            else replacement ++ utf8_replace s1
        end
      else if PyStr.in_range 224 239 b1 then
        match s1 with
        | EmptyString => replacement
        | String b2 s2 =>
            if second_ok b1 b2 then
              match s2 with
              | EmptyString => replacement
              | String b3 s3 =>
                  if is_cont b3 then String b1 (String b2 (String b3 (utf8_replace s3)))
                  else replacement ++ utf8_replace s2
              end
            else replacement ++ utf8_replace s1
        end
      else if PyStr.in_range 240 244 b1 then
        match s1 with
        | EmptyString => replacement
        | String b2 s2 =>
            if second_ok b1 b2 then
              match s2 with
              | EmptyString => replacement
              | String b3 s3 =>
                  if is_cont b3 then
                    match s3 with
                    | EmptyString => replacement
                    | String b4 s4 =>
                        if is_cont b4
                        then String b1 (String b2 (String b3 (String b4 (utf8_replace s4))))
                        else replacement ++ utf8_replace s3
                    end
                  else replacement ++ utf8_replace s2
              end
            else replacement ++ utf8_replace s1
        end
      else replacement ++ utf8_replace s1
  end.

(** The first code points of the runs of ten decimal digits (the
    characters of category Nd, which [\d] of [re] matches in a [str]),
    as of Unicode 14.0, the tables of Python 3.11. *)
Definition decimal_zeros : list N :=
  [ 48; 1632; 1776; 1984; 2406; 2534; 2662; 2790; 2918; 3046; 3174; 3302; 3430; 3558;
    3664; 3792; 3872; 4160; 4240; 6112; 6160; 6470; 6608; 6784; 6800; 6992; 7088; 7232;
    7248; 42528; 43216; 43264; 43472; 43504; 43600; 44016; 65296; 66720; 68912; 69734;
    69872; 69942; 70096; 70384; 70736; 70864; 71248; 71360; 71472; 71904; 72016; 72784;
    73040; 73120; 92768; 92864; 93008; 120782; 120792; 120802; 120812; 120822; 123200;
    123632; 125264; 130032 ]%N.

(** [c.isdecimal()] of a code point. *)
Definition is_decimal (c : N) : bool :=
  existsb (fun zero => (zero <=? c) && (c <? zero + 10))%N decimal_zeros.

(** The bytes are the UTF-8 form of one decimal digit. *)
Definition decimal2 (b1 b2 : ascii) : bool :=
  PyStr.in_range 194 223 b1 && is_cont b2
  && is_decimal ((PyStr.code b1 - 192) * 64 + (PyStr.code b2 - 128))%N.

Definition decimal3 (b1 b2 b3 : ascii) : bool :=
  PyStr.in_range 224 239 b1 && second_ok b1 b2 && is_cont b3
  && is_decimal ((PyStr.code b1 - 224) * 4096 + (PyStr.code b2 - 128) * 64
                 + (PyStr.code b3 - 128))%N.

Definition decimal4 (b1 b2 b3 b4 : ascii) : bool :=
  PyStr.in_range 240 244 b1 && second_ok b1 b2 && is_cont b3 && is_cont b4
  && is_decimal ((PyStr.code b1 - 240) * 262144 + (PyStr.code b2 - 128) * 4096
                 + (PyStr.code b3 - 128) * 64 + (PyStr.code b4 - 128))%N.

(** [s] is one decimal digit. *)
Definition is_decimal_char (s : string) : bool :=
  match s with
  | String b1 EmptyString => PyStr.is_digit b1
  | String b1 (String b2 EmptyString) => decimal2 b1 b2
  | String b1 (String b2 (String b3 EmptyString)) => decimal3 b1 b2 b3
  | String b1 (String b2 (String b3 (String b4 EmptyString))) => decimal4 b1 b2 b3 b4
  | _ => false
  end.

(** The longest run of decimal digits [s] starts with, and what follows
    it: what the greedy [\d*] matches. *)
Fixpoint span_decimal (s : string) : string * string :=
  match s with
  | EmptyString => (EmptyString, EmptyString)
  | String b1 s1 =>
      if PyStr.is_digit b1 then
        let '(digits, rest) := span_decimal s1 in (String b1 digits, rest)
      else
        match s1 with
        | EmptyString => (EmptyString, s)
        | String b2 s2 =>
            if decimal2 b1 b2 then
              let '(digits, rest) := span_decimal s2 in (String b1 (String b2 digits), rest)
            else
              match s2 with
              | EmptyString => (EmptyString, s)
              | String b3 s3 =>
                  if decimal3 b1 b2 b3 then
                    let '(digits, rest) := span_decimal s3 in
                    (String b1 (String b2 (String b3 digits)), rest)
                  else
                    match s3 with
                    | EmptyString => (EmptyString, s)
                    | String b4 s4 =>
                        if decimal4 b1 b2 b3 b4 then
                          let '(digits, rest) := span_decimal s4 in
                          (String b1 (String b2 (String b3 (String b4 digits))), rest)
                        else (EmptyString, s)
                    end
              end
        end
  end.

(** [urllib.parse.unquote_to_bytes]: every [%XY] with two hexadecimal
    digits becomes the byte [0xXY]; any other [%] stays.  Decoded bytes
    are not scanned again. *)
Fixpoint unquote_from (skip : nat) (s : string) : string :=
  match s with
  | EmptyString => EmptyString
  | String c s' =>
      match skip with
      | S k => unquote_from k s'
      | O =>
          match s' with
          | String h (String l _) =>
              match Ascii.eqb c "%", PyStr.hex_value h, PyStr.hex_value l with
              | true, Some a, Some b =>
                  String (ascii_of_N (16 * a + b)) (unquote_from 2 s')
              | _, _, _ => String c (unquote_from O s')
              end
          | _ => String c (unquote_from O s')
          end
      end
  end.

(** [urllib.parse.unquote(s)]: a string without [%] is returned as it
    is; otherwise the escapes are decoded to bytes and the bytes to
    text, as UTF-8 with [errors="replace"].  ([unquote] decodes each run
    of ASCII characters apart and keeps the other characters as they
    are; a character of the text starts with a byte that continues
    nothing and ends what came before, so decoding the whole comes to
    the same.) *)
Definition unquote (s : string) : string :=
  if PyStr.contains "%" s then utf8_replace (unquote_from O s) else s.

(** One attempt of the pattern [DataSet\s*(\d+)] at the start of [s]:
    the literal, a greedy run of white space, a greedy non-empty run of
    decimal digits (a digit is never white space, so greedy matching
    never has to give characters back).  The classes are those of [re]
    on a [str]: the white space of [str.isspace] and the decimal digits
    of every script.  The result is [group(1)]. *)
Definition match_DataSet_here (s : string) : option string :=
  if PyStr.startswith s "DataSet" then
    let '(digits, _) := span_decimal (lstrip_space (PyStr.drop 7 s)) in
    match digits with
    | EmptyString => None
    | _ => Some digits
    end
  else None.

(** [re.search(r"DataSet\s*(\d+)", s)]: the leftmost match. *)
Fixpoint re_search_DataSet (s : string) : option string :=
  match match_DataSet_here s with
  | Some d => Some d
  | None =>
      match s with
      | EmptyString => None
      | String _ s' => re_search_DataSet s'
      end
  end.

(** The loop of [genericpath._splitext] that skips leading dots: is
    there a character other than [.] among the first [n] characters? *)
Fixpoint has_non_dot (n : nat) (s : string) : bool :=
  match n, s with
  | S n', String c s' => if Ascii.eqb c "." then has_non_dot n' s' else true
  | _, _ => false
  end.

(** [os.path.splitext] *)
Definition splitext (p : string) : string * string :=
  let sepIndex := PyStr.rfind "/" p in
  let dotIndex := PyStr.rfind "." p in
  if (dotIndex >? sepIndex)
     && has_non_dot (Z.to_nat (dotIndex - (sepIndex + 1)))
                    (PyStr.drop (Z.to_nat (sepIndex + 1)) p)
  then (PyStr.take (Z.to_nat dotIndex) p, PyStr.drop (Z.to_nat dotIndex) p)
  else (p, EmptyString).

Definition scheme_char (c : ascii) : bool :=
  PyStr.is_alpha c || PyStr.is_digit c
  || Ascii.eqb c "+" || Ascii.eqb c "-" || Ascii.eqb c ".".

Definition is_tab_cr_lf (c : ascii) : bool :=
  ((PyStr.code c =? 9) || (PyStr.code c =? 10) || (PyStr.code c =? 13))%N.

Fixpoint remove_chars (p : ascii -> bool) (s : string) : string :=
  match s with
  | EmptyString => EmptyString
  | String c s' => if p c then remove_chars p s' else String c (remove_chars p s')
  end.

(** [urllib.parse.urlparse(url).netloc], after [urlsplit]: leading C0
    controls and spaces are stripped, TAB, CR and LF are removed, a
    leading scheme is cut off, and the authority is what follows [//] up
    to the first of [/], [?], [#].  This is the authority of the URLs
    that [urlsplit] accepts: it raises [ValueError] for an authority
    with a square bracket that is not matched or does not hold an IP
    address, and for one that holds a character whose NFKC form
    contains one of [/?#@:].  Such URLs are outside this function. *)
Definition netloc (url : string) : string :=
  let url := PyStr.lstrip (PyStr.in_range 0 32) url in
  let url := remove_chars is_tab_cr_lf url in
  let i := PyStr.find ":" url in
  let url :=
    if (i >? 0)
       && match url with String c _ => PyStr.is_alpha c | EmptyString => false end
       && PyStr.forallb scheme_char (PyStr.take (Z.to_nat i) url)
    then PyStr.drop (Z.to_nat (i + 1)) url
    else url in
  if PyStr.startswith url "//" then
    fst (PyStr.span
           (fun c => negb (Ascii.eqb c "/" || Ascii.eqb c "?" || Ascii.eqb c "#"))
           (PyStr.drop 2 url))
  else EmptyString.

(* ===================================================================== *)
(** ** Identity resolver *)
(* ===================================================================== *)

(** [parse_url_info(url)]: group name and file id of a URL. *)
Definition parse_url_info (url : string) : string * string :=
  let decoded := unquote url in
  match re_search_DataSet decoded with
  | Some n =>
      let dataset := "DataSet_" ++ n in
      let filename := PyStr.last_item (PyStr.split "/" decoded) in
      let file_id := fst (splitext filename) in
      (dataset, file_id)
  | None =>
      let domain := PyStr.replace (PyStr.replace (netloc url) "www." "") "." "_" in
      let filename := PyStr.last_item (PyStr.split "/" decoded) in
      let file_id := fst (splitext filename) in
      let file_id := if String.eqb file_id "" then "unknown" else file_id in
      (domain, file_id)
  end.

(* ===================================================================== *)
(** ** Paths ([posixpath]) *)
(* ===================================================================== *)

Definition is_slash (c : ascii) : bool := Ascii.eqb c "/".

Fixpoint ends_with_slash (s : string) : bool :=
  match s with
  | EmptyString => false
  | String c EmptyString => is_slash c
  | String _ s' => ends_with_slash s'
  end.

(** [os.path.join(a, b)] *)
Definition join (a b : string) : string :=
  if PyStr.startswith b "/" then b
  else if String.eqb a "" || ends_with_slash a then a ++ b
  else a ++ "/" ++ b.

(** [os.path.split(p)]: the head loses its trailing slashes unless it
    consists of slashes only. *)
Definition path_split (p : string) : string * string :=
  let i := Z.to_nat (PyStr.rfind "/" p + 1) in
  let head := PyStr.take i p in
  let tail := PyStr.drop i p in
  let head :=
    if negb (String.eqb head "") && negb (PyStr.forallb is_slash head)
    then PyStr.rstrip is_slash head else head in
  (head, tail).

(** [os.path.dirname(p)] *)
Definition dirname (p : string) : string := fst (path_split p).

(** The prefix shared by the paths of everything inside directory [d]. *)
Definition dir_prefix (d : string) : string :=
  if String.eqb d "" || ends_with_slash d then d else d ++ "/".

(** [k] lies strictly inside the directory [d]. *)
Definition below (d k : string) : bool :=
  PyStr.startswith k (dir_prefix d) && negb (String.eqb k d).

(** [k] is [d] or lies inside it. *)
Definition within (d k : string) : bool := String.eqb k d || below d k.

(** The name of [k] as an entry of directory [d], when it is one.
    The names [.] and [..] are no entries: [os.listdir] never returns
    them. *)
Definition child_name (d k : string) : option string :=
  if PyStr.startswith k (dir_prefix d) then
    let e := PyStr.drop (String.length (dir_prefix d)) k in
    if String.eqb e "" || PyStr.contains "/" e || String.eqb e "." || String.eqb e ".."
    then None else Some e
  else None.

(* ===================================================================== *)
(** ** The file store *)
(* ===================================================================== *)

(** What a path names.  A directory carries its [st_size] and whether
    it can be listed: [os.listdir] of an unlistable directory raises
    [PermissionError], the error the source handles.  Paths are keys as
    the program writes them; the store does not identify two spellings
    of one path.  A file operation fails for what the store shows (a
    path that is missing or of the wrong kind, a directory that cannot
    be listed) and for nothing else: the right to write is not part of
    the store.  A statement that needs an operation to go through says
    so. *)
Inductive node :=
| File (data : list byte)
| Dir (st_size : N) (listable : bool).

Inductive exn :=
| FileNotFoundError
| FileExistsError
| NotADirectoryError
| IsADirectoryError
| PermissionError
| AttributeError
| TypeError
| UnicodeDecodeError.

(** The outcome of a call: a value, or an exception that leaves it. *)
Inductive outcome (A : Type) :=
| Ret (a : A)
| Raise (e : exn).
Arguments Ret {A} a.
Arguments Raise {A} e.

Definition is_dir (fs : gmap string node) (p : string) : bool :=
  match fs !! p with Some (Dir _ _) => true | _ => false end.

Definition is_file (fs : gmap string node) (p : string) : bool :=
  match fs !! p with Some (File _) => true | _ => false end.

(** [os.path.exists(p)] *)
Definition exists_ (fs : gmap string node) (p : string) : bool :=
  match fs !! p with Some _ => true | None => false end.

(** [os.stat(p).st_size] *)
Definition node_size (n : node) : Z :=
  match n with
  | File data => Z.of_nat (length data)
  | Dir sz _ => Z.of_N sz
  end.

Definition keys (fs : gmap string node) : list string := (map_to_list fs).*1.

(** The entries of directory [d], in the order the store yields them. *)
Definition entries (fs : gmap string node) (d : string) : list string :=
  omap (child_name d) (keys fs).

(** A directory inside [folder] (or [folder] itself) that cannot be
    listed: [shutil.rmtree] can neither empty nor remove it. *)
Definition stuck (fs : gmap string node) (folder u : string) : bool :=
  match fs !! u with
  | Some (Dir _ false) => within folder u
  | _ => false
  end.

(** What [shutil.rmtree(folder, ignore_errors=True)] leaves behind on
    a store where nothing but an unlistable directory stands in the way
    of a removal: an unlistable directory with all it holds, and every
    directory above one (it is not empty, so [rmdir] fails).  Where more
    than that can fail, more is left; the removal never touches what is
    outside the folder and never makes anything. *)
Definition survives (fs : gmap string node) (folder k : string) : bool :=
  existsb (fun u => stuck fs folder u && (within u k || below k u)) (keys fs).

Definition rmtree_store (folder : string) (fs : gmap string node) : gmap string node :=
  if is_dir fs folder
  then filter (fun kv => within folder kv.1 = true -> survives fs folder kv.1 = true) fs
  else fs.

(* ===================================================================== *)
(** ** The transport *)
(* ===================================================================== *)

(** What [session.get(url, stream=True)] and the reading of the body
    come to.  [Refused]: the call raises a [RequestException] (time-out,
    connection error).  [Reply status chunks complete]: a response with
    that status whose [iter_content] yields [chunks] and then ends
    ([complete = true]) or raises a [RequestException]
    ([complete = false], the transport aborts mid-stream). *)
Inductive response :=
| Refused
| Reply (status : Z) (chunks : list (list byte)) (complete : bool).

(** A session answers a request in view of the requests made before
    it (latest first). *)
Definition session := list string -> string -> response.

(* ===================================================================== *)
(** ** The world and the monad of effects *)
(* ===================================================================== *)

(** [files]: the store.  [requests]: the URLs given to [session.get],
    latest first.  [past]: every store that was visible before a change,
    latest first (ghost state, to speak of what is ever visible).
    [sleeps]: the arguments of [time.sleep].  [offline]: the files given
    to [attrib +U -P]. *)
Record world := World {
  files : gmap string node;
  requests : list string;
  past : list (gmap string node);
  sleeps : list Z;
  offline : list string;
}.

Definition M (A : Type) : Type := world -> outcome A * world.

Global Instance M_ret : MRet M := fun A a w => (Ret a, w).

Global Instance M_bind : MBind M := fun A B f m w =>
  match m w with
  | (Ret a, w') => f a w'
  | (Raise e, w') => (Raise e, w')
  end.

Definition raise {A} (e : exn) : M A := fun w => (Raise e, w).

(** [try: m except OSError: pass] *)
Definition ignore_errors (m : M unit) : M unit := fun w =>
  match m w with
  | (Ret _, w') => (Ret tt, w')
  | (Raise _, w') => (Ret tt, w')
  end.

(** [if b: m] *)
Definition when_ (b : bool) (m : M unit) : M unit := if b then m else mret tt.

Definition get_files : M (gmap string node) := fun w => (Ret (files w), w).

Definition set_files (fs : gmap string node) : M unit := fun w =>
  (Ret tt, World fs (requests w) (files w :: past w) (sleeps w) (offline w)).

Definition sleep (seconds : Z) : M unit := fun w =>
  (Ret tt, World (files w) (requests w) (past w) (seconds :: sleeps w) (offline w)).

(** [session.get(url, timeout=REQUEST_TIMEOUT, stream=True)] *)
Definition session_get (sess : session) (url : string) : M response := fun w =>
  (Ret (sess (requests w) url),
   World (files w) (url :: requests w) (past w) (sleeps w) (offline w)).

(** [dehydrate_single_file(fpath)]: best effort, nothing escapes. *)
Definition dehydrate_single_file (fpath : string) : M unit := fun w =>
  (Ret tt, World (files w) (requests w) (past w) (sleeps w) (fpath :: offline w)).

(* ===================================================================== *)
(** ** File operations *)
(* ===================================================================== *)

(** A directory as [os.mkdir] creates it. *)
Definition fresh_dir : node := Dir 4096 true.

(** [os.path.exists(p)] *)
Definition path_exists (p : string) : M bool :=
  fs ← get_files; mret (exists_ fs p).

(** [os.path.isdir(p)] *)
Definition path_isdir (p : string) : M bool :=
  fs ← get_files; mret (is_dir fs p).

(** [os.path.getsize(p)] *)
Definition getsize (p : string) : M Z :=
  fs ← get_files;
  match fs !! p with
  | Some n => mret (node_size n)
  | None => raise FileNotFoundError
  end.

(** The directory [os.mkdir(name)] creates its entry in. *)
Definition parent_of (name : string) : string :=
  let '(head, tail) := path_split name in
  if String.eqb tail "" then fst (path_split head) else head.

(** [os.mkdir(name)] *)
Definition mkdir (name : string) : M unit :=
  fs ← get_files;
  if String.eqb name "" then raise FileNotFoundError
  else match fs !! name with
       | Some _ => raise FileExistsError
       | None =>
           let parent := parent_of name in
           if String.eqb parent "" || PyStr.forallb is_slash parent
           then set_files (<[name := fresh_dir]> fs)
           else match fs !! parent with
                | Some (Dir _ _) => set_files (<[name := fresh_dir]> fs)
                | Some (File _) => raise NotADirectoryError
                | None => raise FileNotFoundError
                end
       end.

(** The end of [os.makedirs(name, exist_ok=True)]: an error of [mkdir]
    is let through unless [name] is a directory. *)
Definition mkdir_exist_ok (name : string) : M unit := fun w =>
  match mkdir name w with
  | (Raise e, w') => if is_dir (files w') name then (Ret tt, w') else (Raise e, w')
  | r => r
  end.

(** [os.makedirs(name, exist_ok=True)].  The recursion is on the head
    of [name], which is shorter than [name]: [fuel] the length of
    [name] is enough.  ([os.makedirs] returns early for a name ending
    in [/.], which names the directory just made; the store does not
    identify the two spellings, and the entry is made like any other.) *)
Fixpoint makedirs_fuel (fuel : nat) (name : string) : M unit :=
  let '(head, tail) := path_split name in
  let '(head, tail) := if String.eqb tail "" then path_split head else (head, tail) in
  fs ← get_files;
  if negb (String.eqb head "") && negb (String.eqb tail "") && negb (exists_ fs head)
  then
    match fuel with
    | O => mkdir_exist_ok name
    | S fuel' =>
        (fun w : world =>
           match makedirs_fuel fuel' head w with
           | (Raise FileExistsError, w') => (Ret tt, w')
           | r => r
           end) ;;
        mkdir_exist_ok name
    end
  else mkdir_exist_ok name.

Definition makedirs (name : string) : M unit :=
  makedirs_fuel (String.length name) name.

(** [os.listdir(d)] *)
Definition listdir (d : string) : M (list string) :=
  fs ← get_files;
  match fs !! d with
  | Some (Dir _ true) => mret (entries fs d)
  | Some (Dir _ false) => raise PermissionError
  | Some (File _) => raise NotADirectoryError
  | None => raise FileNotFoundError
  end.

(** [open(p, "wb")]: the file is created or emptied; the store shows
    no other failure than a directory at [p].  (Its directory exists
    wherever the source opens a file: [makedirs] comes first.) *)
Definition open_wb (p : string) : M unit :=
  fs ← get_files;
  match fs !! p with
  | Some (Dir _ _) => raise IsADirectoryError
  | _ => set_files (<[p := File []]> fs)
  end.

(** [f.write(chunk)] on the file opened at [p] *)
Definition write (p : string) (chunk : list byte) : M unit :=
  fs ← get_files;
  match fs !! p with
  | Some (File data) => set_files (<[p := File (data ++ chunk)]> fs)
  | _ => mret tt
  end.

(** [os.replace(src, dst)] for a file [src].  (The source renames
    only the file it has just written; moving a directory is outside
    the model and is refused.) *)
Definition os_replace (src dst : string) : M unit :=
  fs ← get_files;
  match fs !! src with
  | None => raise FileNotFoundError
  | Some (Dir _ _) => raise PermissionError
  | Some (File data) =>
      match fs !! dst with
      | Some (Dir _ _) => raise IsADirectoryError
      | _ => set_files (<[dst := File data]> (delete src fs))
      end
  end.

(** [os.remove(p)] *)
Definition os_remove (p : string) : M unit :=
  fs ← get_files;
  match fs !! p with
  | Some (File _) => set_files (delete p fs)
  | Some (Dir _ _) => raise IsADirectoryError
  | None => raise FileNotFoundError
  end.

(** [shutil.rmtree(folder, ignore_errors=True)] *)
Definition rmtree (folder : string) : M unit :=
  fs ← get_files; set_files (rmtree_store folder fs).

(* ===================================================================== *)
(** ** Single-file fetcher *)
(* ===================================================================== *)

Definition MAX_RETRIES : Z := 3.
Definition RETRY_DELAY : Z := 2.

Definition DEFAULT_VIDEO_EXTENSIONS : list string :=
  [ "mov"; "mp4"; "wmv"; "avi"; "3gp"; "3g2"; "m4v"; "mpg"; "flv"; "webm";
    "jpg"; "jpeg"; "png"; "gif"; "bmp"; "tiff"; "tif"; "webp"; "heic"; "svg" ].

(** [range(1, MAX_RETRIES + 1)] *)
Definition attempt_numbers : list Z :=
  map Z.of_nat (seq 1 (Z.to_nat MAX_RETRIES)).

(** The loop of the handler: [for p in [local_path + ".tmp", local_path]:
    if os.path.exists(p): try os.remove(p) except OSError: pass]. *)
Fixpoint remove_leftovers (paths : list string) : M unit :=
  match paths with
  | [] => mret tt
  | p :: rest =>
      e ← path_exists p;
      when_ e (ignore_errors (os_remove p)) ;;
      remove_leftovers rest
  end.

(** The body of [except requests.RequestException]. *)
Definition on_request_exception (attempt : Z) (local_path : string) : M unit :=
  when_ (attempt <? MAX_RETRIES) (sleep (RETRY_DELAY * attempt)) ;;
  remove_leftovers [local_path ++ ".tmp"; local_path].

(** [for chunk in resp.iter_content(...): f.write(chunk)] *)
Fixpoint write_chunks (p : string) (chunks : list (list byte)) : M unit :=
  match chunks with
  | [] => mret tt
  | chunk :: rest => write p chunk ;; write_chunks p rest
  end.

(** The [for attempt in range(1, MAX_RETRIES + 1)] loop of
    [download_file] and what follows it. *)
Fixpoint download_attempts (sess : session) (encoded_url local_path : string)
    (attempts : list Z) : M bool :=
  match attempts with
  | [] => mret false
  | attempt :: rest =>
      resp ← session_get sess encoded_url;
      match resp with
      | Refused =>
          on_request_exception attempt local_path ;;
          download_attempts sess encoded_url local_path rest
      | Reply status chunks complete =>
          if (status =? 403) || (status =? 404) then mret false
          else if (400 <=? status) && (status <? 600) then
            (* resp.raise_for_status() raises HTTPError *)
            on_request_exception attempt local_path ;;
            download_attempts sess encoded_url local_path rest
          else
            let temp_path := local_path ++ ".tmp" in
            open_wb temp_path ;;
            write_chunks temp_path chunks ;;
            if complete then
              size ← getsize temp_path;
              if size >? 0 then os_replace temp_path local_path ;; mret true
              else os_remove temp_path ;; mret false
            else
              on_request_exception attempt local_path ;;
              download_attempts sess encoded_url local_path rest
      end
  end.

(** [download_file(session, url, local_path)] *)
Definition download_file (sess : session) (url local_path : string) : M bool :=
  e ← path_exists local_path;
  size ← (if e then getsize local_path else mret 0);
  if e && (size >? 0) then mret true
  else
    let encoded_url := PyStr.replace url " " "%20" in
    makedirs (dirname local_path) ;;
    download_attempts sess encoded_url local_path attempt_numbers.

(* ===================================================================== *)
(** ** Pair materializer *)
(* ===================================================================== *)

(** [entry == file_id or entry.startswith(file_id + " - ")] *)
Definition entry_matches (file_id entry : string) : bool :=
  String.eqb entry file_id || PyStr.startswith entry (file_id ++ " - ").

(** [try: os.listdir(d) ... except PermissionError: pass]: the names,
    or nothing when the directory cannot be listed. *)
Definition try_listdir (d : string) : M (option (list string)) := fun w =>
  match listdir d w with
  | (Ret names, w') => (Ret (Some names), w')
  | (Raise PermissionError, w') => (Ret None, w')
  | (Raise e, w') => (Raise e, w')
  end.

(** The search of [download_pair] for a folder that already exists,
    possibly renamed with a summary: the first matching entry, nothing
    when the group directory is missing or cannot be listed. *)
Definition find_folder (group_dir file_id : string) : M (option string) :=
  d ← path_isdir group_dir;
  if d : bool then
    listed ← try_listdir group_dir;
    match listed with
    | Some names => mret (join group_dir <$> List.find (entry_matches file_id) names)
    | None => mret None
    end
  else mret None.

(** [video_url.rsplit(".", 1)[0] if "." in video_url else video_url] *)
Definition base_url (video_url : string) : string :=
  if PyStr.contains "." video_url
  then PyStr.take (Z.to_nat (PyStr.rfind "." video_url)) video_url
  else video_url.

(** The [for ext in video_extensions] loop: [vid_ok] and
    [actual_vid_path] when it ends. *)
Fixpoint probe_extensions (sess : session) (video_url folder file_id : string)
    (video_extensions exts : list string) : M (bool * option string) :=
  match exts with
  | [] => mret (false, None)
  | ext :: rest =>
      let vid_path := join folder (file_id ++ "." ++ ext) in
      vid_ok ←
        (if String.eqb ext (nth 0 video_extensions "")
         then download_file sess video_url vid_path
         else download_file sess (base_url video_url ++ "." ++ ext) vid_path);
      if vid_ok : bool then mret (true, Some vid_path)
      else probe_extensions sess video_url folder file_id video_extensions rest
  end.

(** [download_pair(session, pdf_url, video_url, base_dir,
    video_extensions, immediate_dehydrate)]: the result is
    [(pdf_ok, vid_ok, group, file_id)]. *)
Definition download_pair (sess : session) (pdf_url video_url base_dir : string)
    (video_extensions : option (list string)) (immediate_dehydrate : bool)
    : M (bool * bool * string * string) :=
  let video_extensions := default DEFAULT_VIDEO_EXTENSIONS video_extensions in
  let '(group, file_id) := parse_url_info pdf_url in
  let group_dir := join base_dir group in
  found ← find_folder group_dir file_id;
  let folder := default (join group_dir file_id) found in
  makedirs folder ;;
  let pdf_path := join folder (file_id ++ ".pdf") in
  pdf_ok ← download_file sess pdf_url pdf_path;
  '(vid_ok, actual_vid_path) ←
    probe_extensions sess video_url folder file_id video_extensions video_extensions;
  if negb vid_ok then
    rmtree folder ;; mret (false, false, group, file_id)
  else
    when_ immediate_dehydrate
      (pdf_there ← path_exists pdf_path;
       when_ (pdf_ok && pdf_there) (dehydrate_single_file pdf_path) ;;
       match actual_vid_path with
       | Some p =>
           vid_there ← path_exists p;
           when_ (negb (String.eqb p "") && vid_there) (dehydrate_single_file p)
       | None => mret tt
       end) ;;
    mret (pdf_ok, vid_ok, group, file_id).

(* ===================================================================== *)
(** ** Progress ledger *)
(* ===================================================================== *)

(** A JSON document as [json.load] returns it (numbers are integers). *)
Inductive json :=
| JNull
| JBool (b : bool)
| JNum (n : Z)
| JStr (s : string)
| JArr (items : list json)
| JObj (members : list (string * json)).

(** The progress file as [load_progress] finds it: missing, not JSON
    ([json.load] raises [JSONDecodeError]), not text ([UnicodeDecodeError]),
    or holding a document. *)
Inductive progress_file :=
| Missing
| Garbled
| Misencoded
| Document (doc : json).

(** A member of a Python set built from JSON values: a string, an
    integer ([True == 1] and [False == 0] are the integers) or [None]. *)
Inductive pykey :=
| KStr (s : string)
| KInt (n : Z)
| KNone.

Global Instance pykey_eq_dec : EqDecision pykey.
Proof. solve_decision. Defined.

Global Instance pykey_countable : Countable pykey.
Proof.
  refine (inj_countable'
            (fun k => match k with
                      | KStr s => inl s
                      | KInt n => inr (inl n)
                      | KNone => inr (inr tt)
                      end)
            (fun x => match x with
                      | inl s => KStr s
                      | inr (inl n) => KInt n
                      | inr (inr _) => KNone
                      end) _).
  intros []; reflexivity.
Defined.

(** [hash(v)]: lists and dicts are unhashable. *)
Definition hashable (v : json) : outcome pykey :=
  match v with
  | JStr s => Ret (KStr s)
  | JNum n => Ret (KInt n)
  | JBool b => Ret (KInt (if b then 1 else 0))
  | JNull => Ret KNone
  | JArr _ | JObj _ => Raise TypeError
  end.

Fixpoint set_of_items (items : list json) : outcome (gset pykey) :=
  match items with
  | [] => Ret ∅
  | v :: rest =>
      match hashable v, set_of_items rest with
      | Ret k, Ret s => Ret ({[k]} ∪ s)
      | Raise e, _ => Raise e
      | _, Raise e => Raise e
      end
  end.

Fixpoint characters (s : string) : list string :=
  match s with
  | EmptyString => []
  | String c s' => String c EmptyString :: characters s'
  end.

(** [set(v)]: the items of a list, the characters of a string, the keys
    of a dict; anything else is not iterable. *)
Definition py_set (v : json) : outcome (gset pykey) :=
  match v with
  | JArr items => set_of_items items
  | JStr s => Ret (list_to_set (KStr <$> characters s))
  | JObj members => Ret (list_to_set (KStr <$> members.*1))
  | JNull | JBool _ | JNum _ => Raise TypeError
  end.

(** [d.get(key, default)] on the dict of a JSON object: of two members
    with one name [json.load] keeps the later. *)
Fixpoint dict_get (members : list (string * json)) (key : string) (default : json) : json :=
  match members with
  | [] => default
  | (k, v) :: rest =>
      dict_get rest key (if String.eqb k key then v else default)
  end.

(** [load_progress()] *)
Definition load_progress (pf : progress_file) : outcome (gset pykey) :=
  match pf with
  | Missing => Ret ∅
  | Garbled => Ret ∅
  | Misencoded => Raise UnicodeDecodeError
  | Document (JObj members) => py_set (dict_get members "completed" (JArr []))
  | Document _ => Raise AttributeError
  end.

Definition key_string (k : pykey) : option string :=
  match k with KStr s => Some s | _ => None end.

Definition key_int (k : pykey) : option Z :=
  match k with KInt n => Some n | _ => None end.

(** The order of [str]: by code points, which is the order of the
    UTF-8 bytes. *)
Definition str_le (a b : string) : Prop := String.leb a b = true.

Global Instance str_le_dec : RelDecision str_le.
Proof. intros a b. unfold str_le. apply _. Defined.

(** [sorted(completed_set)]: strings by code points, integers by value;
    members of different types do not compare. *)
Definition sorted (s : gset pykey) : outcome (list json) :=
  let l := elements s in
  match mapM key_string l, mapM key_int l, l with
  | Some strs, _, _ => Ret (JStr <$> merge_sort str_le strs)
  | _, Some ints, _ => Ret (JNum <$> merge_sort Z.le ints)
  | _, _, [KNone] => Ret [JNull]
  | _, _, _ => Raise TypeError
  end.

(** [save_progress(completed_set)]: the file is opened for writing, and
    so emptied, before the keys are sorted. *)
Definition save_progress (completed_set : gset pykey) : outcome unit * progress_file :=
  match sorted completed_set with
  | Ret keys => (Ret tt, Document (JObj [("completed", JArr keys)]))
  | Raise e => (Raise e, Garbled)
  end.

(** [f"{parse_url_info(p)[0]}/{parse_url_info(p)[1]}"] *)
Definition pair_key (pdf_url : string) : pykey :=
  KStr (fst (parse_url_info pdf_url) ++ "/" ++ snd (parse_url_info pdf_url)).

(** [folder_exists_for_pair(pdf_url, output_dir)]: a group directory
    that cannot be listed counts as holding the folder. *)
Definition folder_exists_for_pair (fs : gmap string node) (pdf_url output_dir : string) : bool :=
  let '(group, file_id) := parse_url_info pdf_url in
  let group_dir := join output_dir group in
  match fs !! group_dir with
  | Some (Dir _ true) => existsb (entry_matches file_id) (entries fs group_dir)
  | Some (Dir _ false) => true
  | _ => false
  end.

(** The loop of [main] that skips what is done: a pair whose key is in
    [completed], or whose folder is on disk (its key is then added). *)
Fixpoint reconcile (fs : gmap string node) (output_dir : string)
    (pairs : list (string * string)) (completed : gset pykey)
    (remaining : list (string * string)) : gset pykey * list (string * string) :=
  match pairs with
  | [] => (completed, remaining)
  | (p, m) :: rest =>
      if bool_decide (pair_key p ∈ completed)
      then reconcile fs output_dir rest completed remaining
      else if folder_exists_for_pair fs p output_dir
      then reconcile fs output_dir rest ({[pair_key p]} ∪ completed) remaining
      else reconcile fs output_dir rest completed (remaining ++ [(p, m)])
  end.

(** The start of phase 3 of [main]: the ledger is loaded, and either
    reset ([--force]) or reconciled with the disk and saved when it
    grew.  The result is [(completed, remaining)] and the progress file
    left behind. *)
Definition begin_downloads (force : bool) (fs : gmap string node) (output_dir : string)
    (pairs : list (string * string)) (pf : progress_file)
    : outcome (gset pykey * list (string * string)) * progress_file :=
  match load_progress pf with
  | Raise e => (Raise e, pf)
  | Ret completed =>
      if force then
        match save_progress ∅ with
        | (Ret _, pf') => (Ret (∅, pairs), pf')
        | (Raise e, pf') => (Raise e, pf')
        end
      else
        let '(completed, remaining) := reconcile fs output_dir pairs completed [] in
        match load_progress pf with
        | Raise e => (Raise e, pf)
        | Ret stored =>
            if (size stored <? size completed)%nat then
              match save_progress completed with
              | (Ret _, pf') => (Ret (completed, remaining), pf')
              | (Raise e, pf') => (Raise e, pf')
              end
            else (Ret (completed, remaining), pf)
        end
  end.

(* ===================================================================== *)
(** ** Dispatcher: collecting the results *)
(* ===================================================================== *)

Record tally := Tally {
  completed : gset pykey;
  succeeded : nat;
  failed : nat;
}.

(** The body of the [for i, future in enumerate(as_completed(futures), 1)]
    loop for one result: what [future.result()] returns or raises. *)
Definition collect (result : outcome (bool * bool * string * string)) (t : tally) : tally :=
  match result with
  | Ret (pdf_ok, vid_ok, group, file_id) =>
      let pair_key := KStr (group ++ "/" ++ file_id) in
      if pdf_ok || vid_ok
      then Tally ({[pair_key]} ∪ completed t) (S (succeeded t)) (failed t)
      else Tally (completed t) (succeeded t) (S (failed t))
  | Raise _ => Tally (completed t) (succeeded t) (S (failed t))
  end.

(* ===================================================================== *)
(** ** [retry_skipped.py]: the ledger before a retry *)
(* ===================================================================== *)

(** [find_skipped_pairs(pairs, output_dir)] *)
Definition find_skipped_pairs (fs : gmap string node)
    (pairs : list (string * string)) (output_dir : string) : list (string * string) :=
  List.filter (fun pair => negb (folder_exists_for_pair fs (fst pair) output_dir)) pairs.

(** The loop [for pdf_url, _ in skipped] that takes the keys of the
    skipped pairs out of the ledger; the result is [(completed, cleared)]. *)
Fixpoint clear_skipped (skipped : list (string * string)) (completed : gset pykey)
    (cleared : nat) : gset pykey * nat :=
  match skipped with
  | [] => (completed, cleared)
  | (pdf_url, _) :: rest =>
      if bool_decide (pair_key pdf_url ∈ completed)
      then clear_skipped rest (completed ∖ {[pair_key pdf_url]}) (S cleared)
      else clear_skipped rest completed cleared
  end.

(** Phase 2 of [retry_skipped.main] up to the saving of the ledger: the
    ledger to go on with (none when nothing was skipped: the tool
    returns) and the progress file left behind. *)
Definition retry_ledger (fs : gmap string node) (pairs : list (string * string))
    (output_dir : string) (pf : progress_file)
    : outcome (option (gset pykey)) * progress_file :=
  let skipped := find_skipped_pairs fs pairs output_dir in
  match skipped with
  | [] => (Ret None, pf)
  | _ =>
      match load_progress pf with
      | Raise e => (Raise e, pf)
      | Ret completed =>
          let '(completed, cleared) := clear_skipped skipped completed 0 in
          if (0 <? cleared)%nat then
            match save_progress completed with
            | (Ret _, pf') => (Ret (Some completed), pf')
            | (Raise e, pf') => (Raise e, pf')
            end
          else (Ret (Some completed), pf)
      end
  end.

(* ===================================================================== *)
(** ** Notions used in the statements *)
(* ===================================================================== *)

(** The folder [download_pair] works in: the one it finds, or the
    plain one it makes. *)
Definition pair_folder (w : world) (pdf_url base_dir : string) : string :=
  let '(group, file_id) := parse_url_info pdf_url in
  let group_dir := join base_dir group in
  match fst (find_folder group_dir file_id w) with
  | Ret (Some folder) => folder
  | _ => join group_dir file_id
  end.

(** A file of non-zero size is at [p]. *)
Definition holds_file (fs : gmap string node) (p : string) : Prop :=
  exists data, fs !! p = Some (File data) /\ data <> [].

(** The stores that were visible from [w] on, up to [w'] (latest first). *)
Definition seen_since (w w' : world) : list (gmap string node) :=
  files w' :: List.firstn (length (past w') - length (past w)) (past w').

(** The URL [download_file] gives to the session. *)
Definition wire_url (url : string) : string := PyStr.replace url " " "%20".

(** A response that says the asset is not there: 403, 404, or a
    success status with a complete, empty body. *)
Definition definitive (r : response) : Prop :=
  match r with
  | Refused => False
  | Reply status chunks complete =>
      status = 403 \/ status = 404
      \/ (200 <= status < 300 /\ complete = true /\ concat chunks = [])
  end.

(** A response after which [download_file] tries again: a transport
    error, before or while the body is read, or an error status other
    than 403 and 404. *)
Definition retryable (r : response) : Prop :=
  match r with
  | Refused => True
  | Reply status chunks complete =>
      status <> 403 /\ status <> 404
      /\ ((400 <= status < 600) \/ complete = false)
  end.

(** The companion URL with its extension stripped, in the words of
    the specification.  The extension of a URL is the extension of its
    file name, what [os.path.splitext] splits off: a URL whose file
    name has no dot has no extension. *)
Definition spec_base (video_url : string) : string := fst (splitext video_url).

(** The probing the specification describes: the first extension of
    the list is tried at the companion URL as given, each later one at
    the URL with its extension replaced, up to the first success. *)
Fixpoint spec_probe_rest (sess : session) (video_url folder file_id : string)
    (exts : list string) : M (bool * option string) :=
  match exts with
  | [] => mret (false, None)
  | ext :: rest =>
      let vid_path := join folder (file_id ++ "." ++ ext) in
      ok ← download_file sess (spec_base video_url ++ "." ++ ext) vid_path;
      if ok : bool then mret (true, Some vid_path)
      else spec_probe_rest sess video_url folder file_id rest
  end.

Definition spec_probe (sess : session) (video_url folder file_id : string)
    (exts : list string) : M (bool * option string) :=
  match exts with
  | [] => mret (false, None)
  | ext :: rest =>
      let vid_path := join folder (file_id ++ "." ++ ext) in
      ok ← download_file sess video_url vid_path;
      if ok : bool then mret (true, Some vid_path)
      else spec_probe_rest sess video_url folder file_id rest
  end.

(** What the operations of the downloader, [rmtree] apart, do to the
    store at most: a path outside [T] keeps what it names, unless it is
    a path of [D] that named nothing; a directory stays as it is; and a
    new directory is in [D] and listable. *)
Definition gentle (T D : string -> Prop) (fs fs' : gmap string node) : Prop :=
  (forall k, ~ T k -> fs' !! k = fs !! k \/ (D k /\ fs !! k = None))
  /\ (forall k sz l, fs !! k = Some (Dir sz l) -> fs' !! k = Some (Dir sz l))
  /\ (forall k sz l, fs' !! k = Some (Dir sz l) ->
        fs !! k = Some (Dir sz l) \/ (D k /\ l = true)).

(** A step relation [R] holds from every world to the world [m] leaves. *)
Definition keeps {A} (R : relation world) (m : M A) : Prop :=
  forall w, R w (snd (m w)).

(** Nothing but the store (and its ghost history) changes, and the
    store changes gently. *)
Definition quiet (T D : string -> Prop) (w w' : world) : Prop :=
  requests w' = requests w /\ gentle T D (files w) (files w').

(** The store changes gently; requests may be made. *)
Definition tame (T D : string -> Prop) (w w' : world) : Prop :=
  (exists new, requests w' = (new ++ requests w)%list)
  /\ gentle T D (files w) (files w').

(** Requests may be made; none is forgotten. *)
Definition asks (w w' : world) : Prop :=
  exists new, requests w' = (new ++ requests w)%list.

(** No path. *)
Definition nowhere : string -> Prop := fun _ => False.

(** Every path. *)
Definition anywhere : string -> Prop := fun _ => True.

(** The paths no longer than [name]: where [makedirs name] may make
    a directory. *)
Definition up_to (name : string) : string -> Prop :=
  fun k => (String.length k <= String.length name)%nat.

(** The final and the temporary path of a download. *)
Definition targets (local_path : string) : string -> Prop :=
  fun k => k = local_path \/ k = local_path ++ ".tmp".

(** Every store that becomes visible satisfies [P], if the first does. *)
Definition always (P : gmap string node -> Prop) (w w' : world) : Prop :=
  exists new, past w' = (new ++ past w)%list
              /\ (P (files w) -> Forall P (files w' :: new)).

(** The world once the request of an attempt is made. *)
Definition requested (enc : string) (w : world) : world :=
  World (files w) (enc :: requests w) (past w) (sleeps w) (offline w).

(** The world an attempt that failed in transit leaves to the next. *)
Definition cleaned (attempt : Z) (local_path : string) (w : world) : world :=
  snd (on_request_exception attempt local_path w).

(** The final path is missing or empty: [download_file] goes on to
    fetch. *)
Definition must_fetch (fs : gmap string node) (local_path : string) : bool :=
  match fs !! local_path with
  | Some n => negb (node_size n >? 0)
  | None => true
  end.

(** A 403 or 404 response. *)
Definition gone (r : response) : Prop :=
  match r with
  | Refused => False
  | Reply status _ _ => status = 403 \/ status = 404
  end.

(** A response that fails before any file is touched: the request
    is refused, or the status is an error status other than 403 and
    404, for which [raise_for_status] raises. *)
Definition early_failure (r : response) : Prop :=
  match r with
  | Refused => True
  | Reply status _ _ => status <> 403 /\ status <> 404 /\ 400 <= status < 600
  end.

(** A response whose body ends before it is complete, the status being
    no error status. *)
Definition breaks_off (r : response) : Prop :=
  match r with
  | Refused => False
  | Reply status _ complete => ~ (400 <= status < 600) /\ complete = false
  end.

(** A complete response with no error status and nothing in its body. *)
Definition empty_body (r : response) : Prop :=
  match r with
  | Refused => False
  | Reply status chunks complete =>
      ~ (400 <= status < 600) /\ complete = true /\ concat chunks = []
  end.

(** A complete response with no error status and a body that is not
    empty: the only response [download_file] takes for a success. *)
Definition success (r : response) : Prop :=
  match r with
  | Refused => False
  | Reply status chunks complete =>
      ~ (400 <= status < 600) /\ complete = true /\ concat chunks <> []
  end.

(** The exceptions of the file operations, subclasses of [OSError]. *)
Definition os_error (e : exn) : Prop :=
  match e with
  | FileNotFoundError | FileExistsError | NotADirectoryError | IsADirectoryError
  | PermissionError => True
  | _ => False
  end.

(** How a call of [download_file] ends after the response [last], the
    last one it got; [spent] tells that the budget of attempts is used
    up.  Every response is of one of the five kinds, and of one only. *)
Definition accounted (last : response) (spent : bool) (r : outcome bool) : Prop :=
  (gone last -> r = Ret false)
  /\ (early_failure last -> spent = true /\ r = Ret false)
  /\ (breaks_off last ->
        (spent = true /\ r = Ret false) \/ exists e, r = Raise e /\ os_error e)
  /\ (empty_body last -> r = Ret false \/ exists e, r = Raise e /\ os_error e)
  /\ (success last -> r = Ret true \/ exists e, r = Raise e /\ os_error e).

(** Every exception that leaves [m] satisfies [P]. *)
Definition raises_only {A} (P : exn -> Prop) (m : M A) : Prop :=
  forall w e, fst (m w) = Raise e -> P e.

(** A world with nothing in it. *)
Definition blank : world := World ∅ [] [] [] [].

(** The whole, non-empty body of a complete response of the session to
    the URL [enc]. *)
Definition whole_body (sess : session) (enc : string) (data : list byte) : Prop :=
  data <> []
  /\ exists hist status chunks,
       sess hist enc = Reply status chunks true /\ data = concat chunks.

(** What may be visible at the final path of a download that started
    from the store [fs0]: the file that was there, or the whole body of
    a response. *)
Definition visible_ok (sess : session) (enc local_path : string)
    (fs0 s : gmap string node) : Prop :=
  forall data, s !! local_path = Some (File data) ->
    fs0 !! local_path = Some (File data) \/ whole_body sess enc data.

(** A change of the store that shows no new file at [local_path]. *)
Definition harmless (local_path : string) (s s' : gmap string node) : Prop :=
  s' !! local_path = s !! local_path \/ is_file s' local_path = false.

(** A session for the examples: the body [ABC], in two chunks, for one
    URL, 404 for every other. *)
Definition one_asset (good_url : string) : session := fun _ url =>
  if String.eqb url good_url then Reply 200 [[x41; x42]; [x43]] true
  else Reply 404 [] true.

(** The URL the probing of [download_pair] fetches for [ext]. *)
Definition probe_url (video_extensions : list string) (video_url ext : string) : string :=
  if String.eqb ext (nth 0 video_extensions "") then video_url
  else base_url video_url ++ "." ++ ext.

(** Group and file id of a pair. *)
Definition group_of (pdf_url : string) : string := fst (parse_url_info pdf_url).
Definition file_id_of (pdf_url : string) : string := snd (parse_url_info pdf_url).

(** The extensions [download_pair] probes. *)
Definition extensions_of (video_extensions : option (list string)) : list string :=
  default DEFAULT_VIDEO_EXTENSIONS video_extensions.

(** A session that answers 404 to everything. *)
Definition nothing_there : session := fun _ _ => Reply 404 [] true.


(** A session that serves the body [ABC] for two URLs and answers 404
    to every other. *)
Definition two_assets (url1 url2 : string) : session := fun _ url =>
  if String.eqb url url1 || String.eqb url url2
  then Reply 200 [[x41; x42]; [x43]] true
  else Reply 404 [] true.

(** The pair of the examples. *)
Definition abc_pdf : string := "https://host/DataSet 3/ABC.pdf".
Definition abc_mov : string := "https://host/DataSet 3/ABC.mov".

(** A ledger with nothing counted yet. *)
Definition fresh_tally : tally := Tally ∅ 0 0.

(** One reconciliation: the disk, the output directory and the pairs
    it runs on. *)
Definition reconciliation : Type :=
  gmap string node * string * list (string * string).

(** The ledger after a sequence of reconciliations. *)
Definition ledger_after (runs : list reconciliation) (ledger : gset pykey) : gset pykey :=
  fold_left
    (fun c '(fs, output_dir, pairs) => fst (reconcile fs output_dir pairs c []))
    runs ledger.

(** A progress file that lists the item [ABC] as done. *)
Definition abc_done : progress_file :=
  Document (JObj [("completed", JArr [JStr "DataSet_3/ABC"])]).

(** [s] is empty or starts with a character that fails [p]. *)
Definition stops (p : ascii -> bool) (s : string) : Prop :=
  match s with
  | EmptyString => True
  | String c _ => p c = false
  end.

(** A run of white-space characters. *)
Inductive spaces : string -> Prop :=
| spaces_nil : spaces EmptyString
| spaces_cons c s : is_space_char c = true -> spaces s -> spaces (c ++ s).

(** A run of decimal digits. *)
Inductive decimals : string -> Prop :=
| decimals_nil : decimals EmptyString
| decimals_cons c s : is_decimal_char c = true -> decimals s -> decimals (c ++ s).

(** [s] does not start with a decimal digit. *)
Definition no_decimal_ahead (s : string) : Prop :=
  forall c rest, s = c ++ rest -> is_decimal_char c = false.

(** The dataset marker followed by the number [n] is at the start of
    [s]: the word [DataSet], white space if any, and the digits [n], all
    the digits there are. *)
Definition marker_at (s n : string) : Prop :=
  exists ws rest,
    s = "DataSet" ++ ws ++ n ++ rest
    /\ spaces ws
    /\ decimals n
    /\ n <> ""
    /\ no_decimal_ahead rest.

(** No marker starts inside [pre] in the string [pre ++ s]. *)
Definition first_marker (pre s : string) : Prop :=
  forall pre1 pre2 m, pre = pre1 ++ pre2 -> pre2 <> "" -> ~ marker_at (pre2 ++ s) m.

(** A file name with an ordinary extension: [stem.ext], no slash in it,
    no dot in [ext], and a [stem] that does not consist of dots. *)
Definition plain_name (stem ext : string) : Prop :=
  PyStr.contains "/" stem = false
  /\ PyStr.contains "/" ext = false
  /\ PyStr.contains "." ext = false
  /\ has_non_dot (String.length stem) stem = true.

(* ===================================================================== *)
(** ** Dispatcher: the download phase *)
(* ===================================================================== *)

(** [save_every = 25] *)
Definition save_every : nat := 25.

(** The [for i, future in enumerate(as_completed(futures), 1)] loop of
    [main] over the results in the order they complete: each result is
    collected, and the ledger is saved after every [save_every]-th. *)
Fixpoint collect_all (results : list (outcome (bool * bool * string * string)))
    (i : nat) (t : tally) (pf : progress_file) : outcome tally * progress_file :=
  match results with
  | [] => (Ret t, pf)
  | result :: rest =>
      let t := collect result t in
      if (i mod save_every =? 0)%nat then
        match save_progress (completed t) with
        | (Ret _, pf') => collect_all rest (S i) t pf'
        | (Raise e, pf') => (Raise e, pf')
        end
      else collect_all rest (S i) t pf
  end.

(** The [if remaining:] block of [main]: the loop and the saving of the
    ledger after it.  [results] has one result for each remaining pair;
    [loaded] is the ledger [completed] the phase starts with. *)
Definition download_phase (results : list (outcome (bool * bool * string * string)))
    (loaded : gset pykey) (pf : progress_file) : outcome tally * progress_file :=
  match results with
  | [] => (Ret (Tally loaded 0 0), pf)
  | _ =>
      match collect_all results 1 (Tally loaded 0 0) pf with
      | (Ret t, pf') =>
          match save_progress (completed t) with
          | (Ret _, pf'') => (Ret t, pf'')
          | (Raise e, pf'') => (Raise e, pf'')
          end
      | r => r
      end
  end.

(** Every key of the ledger is a string. *)
Definition string_keys (s : gset pykey) : Prop :=
  forall k, k ∈ s -> exists str, k = KStr str.

(** The key a result adds to the ledger, if any. *)
Definition key_of_result (result : outcome (bool * bool * string * string)) : option pykey :=
  match result with
  | Ret (pdf_ok, vid_ok, group, file_id) =>
      if pdf_ok || vid_ok then Some (KStr (group ++ "/" ++ file_id)) else None
  | Raise _ => None
  end.

(** The result reports a primary file or a companion: [pdf_ok or
    vid_ok]; an exception reports nothing. *)
Definition reports_asset (result : outcome (bool * bool * string * string)) : bool :=
  match result with
  | Ret (pdf_ok, vid_ok, _, _) => pdf_ok || vid_ok
  | Raise _ => false
  end.

(** The pairs [main] has still to download, in closed form. *)
Definition to_download (fs : gmap string node) (output_dir : string)
    (loaded : gset pykey) (pairs : list (string * string)) : list (string * string) :=
  List.filter
    (fun pair => negb (bool_decide (pair_key (fst pair) ∈ loaded))
                 && negb (folder_exists_for_pair fs (fst pair) output_dir))
    pairs.

(** The keys of the pairs whose folder is on disk. *)
Definition keys_on_disk (fs : gmap string node) (output_dir : string)
    (pairs : list (string * string)) : gset pykey :=
  list_to_set (map (fun pair => pair_key (fst pair))
                 (List.filter (fun pair => folder_exists_for_pair fs (fst pair) output_dir) pairs)).

(** The group directory of a pair. *)
Definition group_dir_of (pdf_url base_dir : string) : string :=
  join base_dir (group_of pdf_url).

(* ===================================================================== *)
(** ** [main]: the arguments *)
(* ===================================================================== *)

(** [s.strip()] *)
Definition strip (s : string) : string := rstrip_space (lstrip_space s).

(** The string starts with a white-space character. *)
Definition starts_with_space (s : string) : bool :=
  match s with
  | EmptyString => false
  | String c s1 =>
      PyStr.is_space c
      || match s1 with
         | EmptyString => false
         | String d s2 =>
             space2 c d
             || match s2 with
                | EmptyString => false
                | String e _ => space3 c d e
                end
         end
  end.

(** The UTF-8 bytes of a code point. *)
Definition utf8_char (c : N) : string :=
  (if c <? 128 then String (ascii_of_N c) EmptyString
   else if c <? 2048 then
     String (ascii_of_N (192 + c / 64)) (String (ascii_of_N (128 + c mod 64)) EmptyString)
   else if c <? 65536 then
     String (ascii_of_N (224 + c / 4096))
       (String (ascii_of_N (128 + (c / 64) mod 64))
          (String (ascii_of_N (128 + c mod 64)) EmptyString))
   else
     String (ascii_of_N (240 + c / 262144))
       (String (ascii_of_N (128 + (c / 4096) mod 64))
          (String (ascii_of_N (128 + (c / 64) mod 64))
             (String (ascii_of_N (128 + c mod 64)) EmptyString))))%N.

Definition is_dot (c : ascii) : bool := Ascii.eqb c ".".

(** [[f(e) for e in arg.split(",") if e.strip()]] *)
Definition comma_separated (f : string -> string) (arg : string) : list string :=
  map f (List.filter (fun e => negb (String.eqb (strip e) "")) (PyStr.split "," arg)).

(** "Resolve video extensions": the default list unless
    [--video-extensions] is given and not empty; then
    [[e.strip().lstrip(".") for e in args.video_extensions.split(",") if e.strip()]]. *)
Definition resolve_video_extensions (arg : option string) : list string :=
  match arg with
  | None => DEFAULT_VIDEO_EXTENSIONS
  | Some s =>
      if String.eqb s "" then DEFAULT_VIDEO_EXTENSIONS
      else comma_separated (fun e => PyStr.lstrip is_dot (strip e)) s
  end.

Definition DEFAULT_REQUIRED_COOKIES : list string :=
  [ "QueueITAccepted-SDFrts345E-V3_usdojsearch"; "justiceGovAgeVerified" ].

(** "Resolve required cookies" *)
Definition resolve_required_cookies (arg : option string) : list string :=
  match arg with
  | None => DEFAULT_REQUIRED_COOKIES
  | Some s => if String.eqb s "" then DEFAULT_REQUIRED_COOKIES else comma_separated strip s
  end.

(** A character of the class [[a-zA-Z0-9_-]]. *)
Definition is_sheet_id_char (c : ascii) : bool :=
  PyStr.is_alpha c || PyStr.is_digit c || Ascii.eqb c "_" || Ascii.eqb c "-".

(** One attempt of the pattern [/spreadsheets/d/([a-zA-Z0-9_-]+)] at
    the start of [s]; the result is [group(1)]. *)
Definition match_sheet_id_here (s : string) : option string :=
  if PyStr.startswith s "/spreadsheets/d/" then
    let '(id, _) := PyStr.span is_sheet_id_char (PyStr.drop 16 s) in
    match id with
    | EmptyString => None
    | _ => Some id
    end
  else None.

(** [re.search(r"/spreadsheets/d/([a-zA-Z0-9_-]+)", s)]: the leftmost match. *)
Fixpoint re_search_sheet_id (s : string) : option string :=
  match match_sheet_id_here s with
  | Some id => Some id
  | None =>
      match s with
      | EmptyString => None
      | String _ s' => re_search_sheet_id s'
      end
  end.

(** A Python value used as a condition: [None] and the empty string
    are false. *)
Definition truthy (arg : option string) : bool :=
  match arg with
  | Some s => negb (String.eqb s "")
  | None => false
  end.

(** "Resolve sheet ID from URL if needed" and "Require a URL source":
    the sheet id [main] goes on with, or [None] when it stops with
    [sys.exit(1)]. *)
Definition resolve_sheet_id (sheet_id sheet_url csv_file : option string)
    : option (option string) :=
  let resolved :=
    if negb (truthy sheet_id) && truthy sheet_url then
      match re_search_sheet_id (default "" sheet_url) with
      | Some id => Some (Some id)
      | None => None
      end
    else Some sheet_id in
  match resolved with
  | Some sheet_id =>
      if negb (truthy sheet_id) && negb (truthy csv_file) then None else Some sheet_id
  | None => None
  end.

(** The URL [fetch_url_pairs] downloads the sheet from. *)
Definition sheet_csv_url (sheet_id : string) : string :=
  "https://docs.google.com/spreadsheets/d/" ++ sheet_id ++ "/export?format=csv".

(* ===================================================================== *)
(** ** Summaries *)
(* ===================================================================== *)

(** The text drawn from a PDF is cut by position and cleaned of white
    space of every kind, so here a [str] is the list of its code
    points. *)
Module PyText.

(** [c.isspace()], which is also the class [\s] of [re] on a [str]. *)
Definition isspace (c : N) : bool :=
  ((9 <=? c) && (c <=? 13) || (28 <=? c) && (c <=? 32)
   || (c =? 133) || (c =? 160) || (c =? 5760)
   || (8192 <=? c) && (c <=? 8202) || (c =? 8232) || (c =? 8233)
   || (c =? 8239) || (c =? 8287) || (c =? 12288))%N.

(** [t.lstrip(chars)] with the set of characters as a predicate. *)
Fixpoint lstrip (p : N -> bool) (t : list N) : list N :=
  match t with
  | [] => []
  | c :: t' => if p c then lstrip p t' else t
  end.

(** [t.rstrip(chars)] *)
Fixpoint rstrip (p : N -> bool) (t : list N) : list N :=
  match t with
  | [] => []
  | c :: t' =>
      match rstrip p t' with
      | [] => if p c then [] else [c]
      | r => c :: r
      end
  end.

(** [t.strip()] *)
Definition strip (t : list N) : list N := rstrip isspace (lstrip isspace t).

(** [t.rfind(c)]: index of the last occurrence, [-1] when absent. *)
Fixpoint rfind (c : N) (t : list N) : Z :=
  match t with
  | [] => -1
  | d :: t' =>
      let i := rfind c t' in
      if 0 <=? i then i + 1 else if (c =? d)%N then 0 else -1
  end.

(** [re.sub(r"\s+", " ", t)]: every run of white space becomes one
    space.  [in_run] tells that the run the next character would belong
    to has been replaced already. *)
Fixpoint sub_spaces (in_run : bool) (t : list N) : list N :=
  match t with
  | [] => []
  | c :: t' =>
      if isspace c then
        if in_run then sub_spaces true t' else 32%N :: sub_spaces true t'
      else c :: sub_spaces false t'
  end.

End PyText.

Definition MAX_SUMMARY_IN_FOLDER_NAME : nat := 60.

(** What [page.extract_text()] comes to for one page: a text or
    [None], or an exception. *)
Inductive page :=
| Extracted (page_text : option (list N))
| Unreadable.

(** The loop of [extract_pdf_summary] over [pdf.pages[:2]]: the text
    gathered, or nothing when a page that is read raises. *)
Fixpoint gather_text (pages : list page) (text : list N) : option (list N) :=
  match pages with
  | [] => Some text
  | Unreadable :: _ => None
  | Extracted page_text :: rest =>
      let text :=
        match page_text with
        | Some (c :: t) => (text ++ (c :: t) ++ [10%N])%list
        | _ => text
        end in
      if (500 <? length text)%nat then Some text else gather_text rest text
  end.

(** [extract_pdf_summary(pdf_path)], given what [pdfplumber] makes of
    the file: its pages, or nothing when [pdfplumber] is not installed
    or opening the file raises.  The result is
    [(short_summary, full_summary)]. *)
Definition extract_pdf_summary (pdf : option (list page)) : list N * list N :=
  match pdf with
  | None => ([], [])
  | Some [] => ([], [])
  | Some pages =>
      match gather_text (firstn 2 pages) [] with
      | None => ([], [])
      | Some text =>
          match PyText.strip text with
          | [] => ([], [])
          | _ =>
              let clean := PyText.strip (PyText.sub_spaces false text) in
              let short := PyText.strip (firstn MAX_SUMMARY_IN_FOLDER_NAME clean) in
              let short :=
                if (MAX_SUMMARY_IN_FOLDER_NAME <? length clean)%nat then
                  let last_space := PyText.rfind 32%N short in
                  if last_space >? 20 then firstn (Z.to_nat last_space) short else short
                else short in
              (short, firstn 2000 clean)
          end
      end
  end.

(** A character of the class that [sanitize_for_filename] removes:
    backslash, slash, colon, star, question mark, double quote, the
    angle brackets, the bar, CR, LF and TAB. *)
Definition invalid_in_filename (c : N) : bool :=
  ((c =? 92) || (c =? 47) || (c =? 58) || (c =? 42) || (c =? 63) || (c =? 34)
   || (c =? 60) || (c =? 62) || (c =? 124) || (c =? 13) || (c =? 10) || (c =? 9))%N.

(** A dot or a space: the characters of [". "]. *)
Definition dot_or_space (c : N) : bool := ((c =? 46) || (c =? 32))%N.

(** [sanitize_for_filename(text)] *)
Definition sanitize_for_filename (text : list N) : list N :=
  let text := List.filter (fun c => negb (invalid_in_filename c)) text in
  let text := PyText.strip (PyText.sub_spaces false text) in
  PyText.rstrip dot_or_space text.

(** Text with no white space but spaces and no two spaces in a row;
    [after_space] tells that a space may not come first. *)
Fixpoint tidy (after_space : bool) (t : list N) : Prop :=
  match t with
  | [] => True
  | c :: t' =>
      if PyText.isspace c then c = 32%N /\ after_space = false /\ tidy true t'
      else tidy false t'
  end.

(** Single-spaced text: tidy, with no space at either end. *)
Definition single_spaced (t : list N) : Prop :=
  tidy true t /\ forall r c, t = (r ++ [c])%list -> PyText.isspace c = false.

(** [pre] is the beginning of [t]. *)
Definition begins (pre t : list N) : Prop := exists rest, t = (pre ++ rest)%list.

(** The short summary of cleaned text: the end of [extract_pdf_summary]. *)
Definition short_of (clean : list N) : list N :=
  let short := PyText.strip (firstn MAX_SUMMARY_IN_FOLDER_NAME clean) in
  if (MAX_SUMMARY_IN_FOLDER_NAME <? length clean)%nat then
    let last_space := PyText.rfind 32%N short in
    if last_space >? 20 then firstn (Z.to_nat last_space) short else short
  else short.

(** The code points of an ASCII literal. *)
Fixpoint codes (s : string) : list N :=
  match s with
  | EmptyString => []
  | String c s' => N_of_ascii c :: codes s'
  end.

(* ===================================================================== *)
(** ** URL pairs: the CSV text *)
(* ===================================================================== *)

(** The reader of the [csv] module with the default dialect: the
    delimiter is the comma, the quote character the double quote, a
    quote inside a quoted field is doubled, and nothing is strict; a
    field holds [field_limit] characters at most.  (The module as of
    Python 3.11, from which on a NUL character is data.) *)
Module Csv.

Definition LF : ascii := "010".
Definition CR : ascii := "013".
Definition delimiter : ascii := ",".
Definition quotechar : ascii := "034".

Inductive state :=
| START_RECORD
| START_FIELD
| IN_FIELD
| IN_QUOTED_FIELD
| QUOTE_IN_QUOTED_FIELD
| EAT_CRNL.

(** The reader while it parses a record: its state, the field it is
    gathering and the fields it has saved. *)
Record reader := Reader {
  st : state;
  field : string;
  fields : list string;
}.

(** [parse_reset] *)
Definition fresh : reader := Reader START_RECORD "" [].

Definition set_state (r : reader) (s : state) : reader := Reader s (field r) (fields r).

Definition parse_save_field (r : reader) : reader :=
  Reader (st r) "" (fields r ++ [field r]).

(** [csv.field_size_limit()] *)
Definition field_limit : N := 131072.

(** The characters of a string are counted by the bytes that start
    one: all but the continuation bytes of UTF-8, 80 to BF. *)
Definition starts_char (c : ascii) : bool := negb (PyStr.in_range 128 191 c).

Fixpoint char_count (s : string) : N :=
  match s with
  | EmptyString => 0
  | String c s' => ((if starts_char c then 1 else 0) + char_count s')%N
  end.

(** [parse_add_char]: nothing is returned when it raises [csv.Error],
    the field being at the limit. *)
Definition parse_add_char (r : reader) (c : ascii) : option reader :=
  if starts_char c && (field_limit <=? char_count (field r))%N then None
  else Some (Reader (st r) (field r ++ String c "") (fields r)).

Definition then_state (r : option reader) (s : state) : option reader :=
  match r with
  | Some r' => Some (set_state r' s)
  | None => None
  end.

Definition is_newline (c : ascii) : bool := Ascii.eqb c LF || Ascii.eqb c CR.

(** The case [START_FIELD] of [parse_process_char]; [None] is the
    end-of-line mark. *)
Definition start_field (r : reader) (c : option ascii) : option reader :=
  match c with
  | None => Some (set_state (parse_save_field r) START_RECORD)
  | Some ch =>
      if is_newline ch then Some (set_state (parse_save_field r) EAT_CRNL)
      else if Ascii.eqb ch quotechar then Some (set_state r IN_QUOTED_FIELD)
      else if Ascii.eqb ch delimiter then Some (set_state (parse_save_field r) START_FIELD)
      else then_state (parse_add_char r ch) IN_FIELD
  end.

(** [parse_process_char]: nothing is returned when it raises
    [csv.Error] (a character after a bare CR, or a field at the
    limit). *)
Definition parse_process_char (r : reader) (c : option ascii) : option reader :=
  match st r with
  | START_RECORD =>
      match c with
      | None => Some r
      | Some ch =>
          if is_newline ch then Some (set_state r EAT_CRNL) else start_field r c
      end
  | START_FIELD => start_field r c
  | IN_FIELD =>
      match c with
      | None => Some (set_state (parse_save_field r) START_RECORD)
      | Some ch =>
          if is_newline ch then Some (set_state (parse_save_field r) EAT_CRNL)
          else if Ascii.eqb ch delimiter then Some (set_state (parse_save_field r) START_FIELD)
          else parse_add_char r ch
      end
  | IN_QUOTED_FIELD =>
      match c with
      | None => Some r
      | Some ch =>
          if Ascii.eqb ch quotechar then Some (set_state r QUOTE_IN_QUOTED_FIELD)
          else parse_add_char r ch
      end
  | QUOTE_IN_QUOTED_FIELD =>
      match c with
      | None => Some (set_state (parse_save_field r) START_RECORD)
      | Some ch =>
          if Ascii.eqb ch quotechar then then_state (parse_add_char r ch) IN_QUOTED_FIELD
          else if Ascii.eqb ch delimiter then Some (set_state (parse_save_field r) START_FIELD)
          else if is_newline ch then Some (set_state (parse_save_field r) EAT_CRNL)
          else then_state (parse_add_char r ch) IN_FIELD
      end
  | EAT_CRNL =>
      match c with
      | None => Some (set_state r START_RECORD)
      | Some ch => if is_newline ch then Some r else None
      end
  end.

(** The characters of a string, one after the other. *)
Fixpoint feed (chars : string) (r : reader) : option reader :=
  match chars with
  | EmptyString => Some r
  | String c rest =>
      match parse_process_char r (Some c) with
      | Some r' => feed rest r'
      | None => None
      end
  end.

(** The characters of one line, and the end-of-line mark after them. *)
Definition process_line (line : string) (r : reader) : option reader :=
  match feed line r with
  | Some r' => parse_process_char r' None
  | None => None
  end.

(** The lines [io.StringIO(text)] yields: each ends after its LF. *)
Fixpoint lines_of (text : string) : list string :=
  match text with
  | EmptyString => []
  | String c rest =>
      if Ascii.eqb c LF then String c EmptyString :: lines_of rest
      else match lines_of rest with
           | [] => [String c EmptyString]
           | line :: lines => String c line :: lines
           end
  end.

(** The rows [csv.reader] yields from the lines, one call of
    [Reader_iternext] after the other, and whether the call after the
    last row raises [csv.Error] rather than [StopIteration]. *)
Fixpoint read_rows (lines : list string) (r : reader) : list (list string) * bool :=
  match lines with
  | [] =>
      if negb (String.eqb (field r) "")
         || match st r with IN_QUOTED_FIELD => true | _ => false end
      then ([fields (parse_save_field r)], false)
      else ([], false)
  | line :: rest =>
      match process_line line r with
      | None => ([], true)
      | Some r' =>
          match st r' with
          | START_RECORD =>
              let '(rows, failed) := read_rows rest fresh in (fields r' :: rows, failed)
          | _ => read_rows rest r'
          end
      end
  end.

(** [csv.reader(io.StringIO(text))] *)
Definition reader_of (text : string) : list (list string) * bool :=
  read_rows (lines_of text) fresh.

(** The text a field is written as by [csv.writer]: in quotes, its
    quotes doubled, when it holds a comma, a quote, a CR or an LF. *)
Fixpoint needs_quotes (f : string) : bool :=
  match f with
  | EmptyString => false
  | String c rest =>
      Ascii.eqb c delimiter || Ascii.eqb c quotechar || is_newline c || needs_quotes rest
  end.

Fixpoint double_quotes (f : string) : string :=
  match f with
  | EmptyString => EmptyString
  | String c rest =>
      if Ascii.eqb c quotechar then String c (String c (double_quotes rest))
      else String c (double_quotes rest)
  end.

Definition render_field (f : string) : string :=
  if needs_quotes f
  then String quotechar (double_quotes f ++ String quotechar EmptyString)
  else f.

Fixpoint join_fields (row : list string) : string :=
  match row with
  | [] => EmptyString
  | [f] => render_field f
  | f :: rest => render_field f ++ String delimiter (join_fields rest)
  end.

(** [writer.writerow(row)]: what is written, the line end included.  A
    row of one empty field is written as a pair of quotes. *)
Definition writerow (row : list string) : string :=
  match join_fields row, row with
  | EmptyString, [_] => String quotechar (String quotechar EmptyString)
  | text, _ => text
  end ++ String CR (String LF EmptyString).

End Csv.

(** What [_parse_csv_text] comes to: the pairs, or an exception. *)
Inductive csv_outcome :=
| Pairs (pairs : list (string * string))
| Raises_csv_Error
| Raises_AttributeError.

(** The value of [dict(zip(fieldnames, row))] at [col]: of two columns
    with one name the later one counts. *)
Fixpoint zip_get (fieldnames row : list string) (col : string) (found : option string)
    : option string :=
  match fieldnames, row with
  | name :: fieldnames', value :: row' =>
      zip_get fieldnames' row' col (if String.eqb name col then Some value else found)
  | _, _ => found
  end.

(** [row.get(col, "")] on a row of [csv.DictReader]; the result is
    [None] for the value [None], which the columns have that a short
    row does not reach. *)
Definition row_get (fieldnames row : list string) (col : string) : option string :=
  if existsb (String.eqb col) (skipn (length row) fieldnames) then None
  else Some (default "" (zip_get fieldnames row col None)).

(** The loop [for row in reader] of [_parse_csv_text] over the rows
    after the header; [DictReader] passes over the rows that are
    empty. *)
Fixpoint collect_pairs (fieldnames : list string) (rows : list (list string))
    (failed : bool) (pdf_col video_col : string) : csv_outcome :=
  match rows with
  | [] => if failed then Raises_csv_Error else Pairs []
  | [] :: rest => collect_pairs fieldnames rest failed pdf_col video_col
  | row :: rest =>
      match row_get fieldnames row pdf_col with
      | None => Raises_AttributeError
      | Some pdf =>
          match row_get fieldnames row video_col with
          | None => Raises_AttributeError
          | Some vid =>
              let pdf := strip pdf in
              let vid := strip vid in
              match collect_pairs fieldnames rest failed pdf_col video_col with
              | Pairs pairs =>
                  if negb (String.eqb pdf "") && negb (String.eqb vid "")
                  then Pairs ((pdf, vid) :: pairs)
                  else Pairs pairs
              | raised => raised
              end
          end
      end
  end.

(** [_parse_csv_text(text, pdf_col, video_col)] *)
Definition _parse_csv_text (text pdf_col video_col : string) : csv_outcome :=
  match Csv.reader_of text with
  | ([], failed) => if failed then Raises_csv_Error else Pairs []
  | (fieldnames :: rows, failed) => collect_pairs fieldnames rows failed pdf_col video_col
  end.

(** The text [open(path, "r")] gives for the text written in a file:
    every CR LF and every other CR is read as LF. *)
Fixpoint universal_newlines (text : string) : string :=
  match text with
  | EmptyString => EmptyString
  | String c rest =>
      if Ascii.eqb c Csv.CR then
        match rest with
        | String c' rest' =>
            if Ascii.eqb c' Csv.LF then String Csv.LF (universal_newlines rest')
            else String Csv.LF (universal_newlines rest)
        | EmptyString => String Csv.LF EmptyString
        end
      else String c (universal_newlines rest)
  end.

(** The order of tuples of two strings. *)
Definition pair_le (a b : string * string) : Prop :=
  (if String.eqb (fst a) (fst b) then String.leb (snd a) (snd b)
   else String.leb (fst a) (fst b)) = true.

Global Instance pair_le_dec : RelDecision pair_le.
Proof. intros a b. unfold pair_le. apply _. Defined.

(** [write_csv(url_pairs, output_path, pdf_col, video_col)] of
    [scrape_all_urls.py]: the text it writes to the file. *)
Definition write_csv (url_pairs : list (string * string)) (pdf_col video_col : string) : string :=
  Csv.writerow [pdf_col; video_col]
  ++ fold_right (fun pair text => Csv.writerow [fst pair; snd pair] ++ text) ""
       (merge_sort pair_le url_pairs).

(** A string that is read as one field of one line: it holds no line
    end and no more characters than a field may have. *)
Definition one_line (s : string) : Prop :=
  PyStr.contains Csv.CR s = false /\ PyStr.contains Csv.LF s = false
  /\ (Csv.char_count s <= Csv.field_limit)%N.

(** The pairs [_parse_csv_text] keeps of the rows of two fields. *)
Definition kept_pairs (rows : list (string * string)) : list (string * string) :=
  omap (fun pair =>
          if negb (String.eqb (strip (fst pair)) "") && negb (String.eqb (strip (snd pair)) "")
          then Some (strip (fst pair), strip (snd pair)) else None)
       rows.

(** The state of the reader after the text of a field, read from the
    state [s] in which a field starts. *)
Definition after_field (s : Csv.state) (f : string) : Csv.state :=
  if Csv.needs_quotes f then Csv.QUOTE_IN_QUOTED_FIELD
  else match f with
       | EmptyString => s
       | _ => Csv.IN_FIELD
       end.

(** The rows of two fields of a list of pairs. *)
Definition rows_of (pairs : list (string * string)) : list (list string) :=
  map (fun pair => [fst pair; snd pair]) pairs.

(** A URL as [_parse_csv_text] keeps it: not empty, with no white
    space at its ends. *)
Definition stripped (s : string) : Prop := s <> "" /\ strip s = s.

(** The column names [csv.DictReader] takes from the text: its first
    row. *)
Definition header_of (text : string) : list string := hd [] (fst (Csv.reader_of text)).
(* ===================================================================== *)
(** * Properties *)
(* ===================================================================== *)

(** ** The monad *)

Lemma run_bind {A B} (m : M A) (f : A -> M B) (w : world) :
(m ≫= f) w = match m w with
             | (Ret a, w') => f a w'
             | (Raise e, w') => (Raise e, w')
             end.
Proof. reflexivity. Qed.

Lemma run_assoc {A B C} (m : M A) (f : A -> M B) (g : B -> M C) (w : world) :
  (m ≫= (fun a => f a ≫= g)) w = ((m ≫= f) ≫= g) w.
Proof. rewrite !run_bind. destruct (m w) as [[a|e] w1]; reflexivity. Qed.

Lemma run_eq {A} (m : M A) (w : world) (r : outcome A) :
  fst (m w) = r -> m w = (r, snd (m w)).
Proof. destruct (m w). cbn. intros ->. reflexivity. Qed.

Lemma run_ret {A} (a : A) (w : world) : (mret a : M A) w = (Ret a, w).
Proof. reflexivity. Qed.

Lemma run_get_files (w : world) : get_files w = (Ret (files w), w).
Proof. reflexivity. Qed.

Lemma run_path_exists p (w : world) :
  path_exists p w = (Ret (exists_ (files w) p), w).
Proof. reflexivity. Qed.

Lemma run_path_isdir p (w : world) :
  path_isdir p w = (Ret (is_dir (files w) p), w).
Proof. reflexivity. Qed.

(** Unfolds binds and the reading of the store. *)
Ltac run :=
  repeat (rewrite ?run_bind, ?run_ret, ?run_get_files, ?run_path_exists,
            ?run_path_isdir; cbn [fst snd]).

Section Keeps.
Context (R : relation world) `{!PreOrder R}.

Lemma keeps_ret {A} (a : A) : keeps R (mret a : M A).
Proof. intros w. reflexivity. Qed.

Lemma keeps_raise {A} (e : exn) : keeps R (raise e : M A).
Proof. intros w. reflexivity. Qed.

Lemma keeps_get_files : keeps R get_files.
Proof. intros w. reflexivity. Qed.

Lemma keeps_bind {A B} (m : M A) (f : A -> M B) :
  keeps R m -> (forall a, keeps R (f a)) -> keeps R (m ≫= f).
Proof.
  intros Hm Hf w. rewrite run_bind. specialize (Hm w).
  destruct (m w) as [[a|e] w1]; cbn in *; [|assumption].
  etransitivity; [exact Hm | apply Hf].
Qed.

Lemma keeps_when (b : bool) (m : M unit) : keeps R m -> keeps R (when_ b m).
Proof. intros Hm. destruct b; [exact Hm | apply keeps_ret]. Qed.

Lemma keeps_ignore_errors (m : M unit) : keeps R m -> keeps R (ignore_errors m).
Proof.
  intros Hm w. unfold ignore_errors. specialize (Hm w).
  destruct (m w) as [[a|e] w1]; exact Hm.
Qed.
End Keeps.

(** ** Step relations *)

Global Instance gentle_preorder (T D : string -> Prop) : PreOrder (gentle T D).
Proof.
  split.
  - intros fs. unfold gentle. auto.
  - intros a b c (F1 & D1 & U1) (F2 & D2 & U2). repeat split.
    + intros k Hk. destruct (F2 k Hk) as [->|[Hd Hn]]; [apply F1, Hk|].
      destruct (F1 k Hk) as [E|[]]; [rewrite <- E; auto | auto].
    + eauto.
    + intros k sz l Hc. destruct (U2 _ _ _ Hc) as [Hb|Hb]; eauto.
Qed.

Lemma gentle_mono (T T' D D' : string -> Prop) fs fs' :
  (forall k, T k -> T' k) -> (forall k, D k -> D' k) ->
  gentle T D fs fs' -> gentle T' D' fs fs'.
Proof.
  intros HT HD (F & P & U). split; [|split].
  - intros k Hk. destruct (F k) as [|[]]; auto.
  - exact P.
  - intros k sz l Hk. destruct (U _ _ _ Hk) as [|[]]; eauto.
Qed.

Global Instance quiet_preorder (T D : string -> Prop) : PreOrder (quiet T D).
Proof.
  split.
  - intros w. split; reflexivity.
  - intros a b c [E1 G1] [E2 G2]. split; [congruence | etransitivity; eassumption].
Qed.

Global Instance tame_preorder (T D : string -> Prop) : PreOrder (tame T D).
Proof.
  split.
  - intros w. split; [exists []; reflexivity | reflexivity].
  - intros a b c [[n1 E1] G1] [[n2 E2] G2]. split.
    + exists (n2 ++ n1)%list. rewrite E2, E1. apply app_assoc.
    + etransitivity; eassumption.
Qed.

Global Instance always_preorder (P : gmap string node -> Prop) : PreOrder (always P).
Proof.
  split.
  - intros w. exists []. split; [reflexivity | intros H; constructor; [exact H | constructor]].
  - intros a b c (n1 & E1 & H1) (n2 & E2 & H2).
    exists (n2 ++ n1)%list. split; [rewrite E2, E1; apply app_assoc |].
    intros Ha. specialize (H1 Ha). inversion H1 as [|? ? Hb Hn1]; subst.
    specialize (H2 Hb). inversion H2 as [|? ? Hc Hn2]; subst.
    constructor; [assumption | apply Forall_app; split; assumption].
Qed.

Lemma quiet_tame (T D : string -> Prop) w w' : quiet T D w w' -> tame T D w w'.
Proof. intros [E G]. split; [exists []; exact E | exact G]. Qed.

Lemma quiet_mono (T T' D D' : string -> Prop) w w' :
  (forall k, T k -> T' k) -> (forall k, D k -> D' k) ->
  quiet T D w w' -> quiet T' D' w w'.
Proof. intros HT HD [E G]. split; [exact E | eapply gentle_mono; eassumption]. Qed.

Lemma tame_mono (T T' D D' : string -> Prop) w w' :
  (forall k, T k -> T' k) -> (forall k, D k -> D' k) ->
  tame T D w w' -> tame T' D' w w'.
Proof. intros HT HD [E G]. split; [exact E | eapply gentle_mono; eassumption]. Qed.

Lemma keeps_mono {A} (R R' : relation world) (m : M A) :
  (forall w w', R w w' -> R' w w') -> keeps R m -> keeps R' m.
Proof. intros HR H w. apply HR, H. Qed.

Lemma keeps_quiet_tame {A} (T D : string -> Prop) (m : M A) :
  keeps (quiet T D) m -> keeps (tame T D) m.
Proof. apply keeps_mono. intros w w'. apply quiet_tame. Qed.

(** *** The store updates of the file operations are gentle *)

Lemma gentle_insert_file (T D : string -> Prop) fs p data :
  T p -> is_dir fs p = false -> gentle T D fs (<[p := File data]> fs).
Proof.
  intros HT Hd. unfold is_dir in Hd. repeat split.
  - intros k Hk. left. apply lookup_insert_ne. congruence.
  - intros k sz l Hk. rewrite lookup_insert_ne; [assumption|].
    intros ->. rewrite Hk in Hd. discriminate.
  - intros k sz l. destruct (decide (p = k)) as [->|Hne].
    + rewrite lookup_insert_eq. discriminate.
    + rewrite lookup_insert_ne by assumption. auto.
Qed.

Lemma gentle_insert_dir (T D : string -> Prop) fs p :
  D p -> fs !! p = None -> gentle T D fs (<[p := fresh_dir]> fs).
Proof.
  intros HT Hn. repeat split.
  - intros k _. destruct (decide (p = k)) as [<-|Hne].
    + right. auto.
    + left. apply lookup_insert_ne, Hne.
  - intros k sz l Hk. rewrite lookup_insert_ne; [assumption | congruence].
  - intros k sz l. destruct (decide (p = k)) as [->|Hne].
    + rewrite lookup_insert_eq. intros [= <- <-]. auto.
    + rewrite lookup_insert_ne by assumption. auto.
Qed.

Lemma gentle_delete_file (T D : string -> Prop) fs p :
  T p -> is_dir fs p = false -> gentle T D fs (delete p fs).
Proof.
  intros HT Hd. unfold is_dir in Hd. repeat split.
  - intros k Hk. left. apply lookup_delete_ne. congruence.
  - intros k sz l Hk. rewrite lookup_delete_ne; [assumption|].
    intros ->. rewrite Hk in Hd. discriminate.
  - intros k sz l. destruct (decide (p = k)) as [->|Hne].
    + rewrite lookup_delete_eq. discriminate.
    + rewrite lookup_delete_ne by assumption. auto.
Qed.

Lemma quiet_set_files (T D : string -> Prop) fs' w :
  gentle T D (files w) fs' -> quiet T D w (snd (set_files fs' w)).
Proof. intros G. split; [reflexivity | exact G]. Qed.

(** A path that is no directory, and where none may be made, is no
    directory afterwards. *)
Lemma gentle_not_dir (T D : string -> Prop) fs fs' k :
  gentle T D fs fs' -> ~ D k -> is_dir fs k = false -> is_dir fs' k = false.
Proof.
  intros (_ & _ & U) HD Hk. unfold is_dir in *.
  destruct (fs' !! k) as [[|sz l]|] eqn:E; try reflexivity.
  destruct (U _ _ _ E) as [H|[H _]]; [rewrite H in Hk; discriminate | contradiction].
Qed.

Lemma gentle_is_dir (T D : string -> Prop) fs fs' k :
  gentle T D fs fs' -> is_dir fs k = true -> is_dir fs' k = true.
Proof.
  intros (_ & P & _) Hk. unfold is_dir in *.
  destruct (fs !! k) as [[|sz l]|] eqn:E; try discriminate.
  rewrite (P _ _ _ E). reflexivity.
Qed.

(** What exists outside [T] stays. *)
Lemma gentle_keeps (T D : string -> Prop) fs fs' k n :
  gentle T D fs fs' -> ~ T k -> fs !! k = Some n -> fs' !! k = Some n.
Proof.
  intros (F & _ & _) Hk Hn. destruct (F k Hk) as [->|[_ E]]; [exact Hn | congruence].
Qed.

(** *** Lengths of path components *)

Lemma length_take_le n s : (String.length (PyStr.take n s) <= String.length s)%nat.
Proof.
  revert n; induction s as [|c s IH]; intros [|n]; cbn; try lia.
  specialize (IH n). lia.
Qed.

Lemma length_rstrip_le p s : (String.length (PyStr.rstrip p s) <= String.length s)%nat.
Proof.
  induction s as [|c s IH]; cbn; [lia|].
  destruct (PyStr.rstrip p s); [destruct (p c)|]; cbn in *; lia.
Qed.

Lemma length_head_le p : (String.length (fst (path_split p)) <= String.length p)%nat.
Proof.
  unfold path_split. cbn [fst].
  match goal with |- context [PyStr.take ?i p] => generalize i end. intros i.
  pose proof (length_take_le i p).
  destruct (_ && _); [|assumption].
  pose proof (length_rstrip_le is_slash (PyStr.take i p)). lia.
Qed.

Lemma length_dirname_le p : (String.length (dirname p) <= String.length p)%nat.
Proof. apply length_head_le. Qed.

(** *** The file operations keep the step relations *)

Section Quiet.
Context (T D : string -> Prop).

Lemma quiet_path_exists p : keeps (quiet T D) (path_exists p).
Proof. intros w. reflexivity. Qed.

Lemma quiet_path_isdir p : keeps (quiet T D) (path_isdir p).
Proof. intros w. reflexivity. Qed.

Lemma quiet_getsize p : keeps (quiet T D) (getsize p).
Proof. intros w. unfold getsize. run. destruct (files w !! p); reflexivity. Qed.

Lemma quiet_listdir d : keeps (quiet T D) (listdir d).
Proof.
  intros w. unfold listdir. run.
  destruct (files w !! d) as [[|? []]|]; reflexivity.
Qed.

Lemma quiet_sleep n : keeps (quiet T D) (sleep n).
Proof. intros w. split; reflexivity. Qed.

Lemma quiet_dehydrate p : keeps (quiet T D) (dehydrate_single_file p).
Proof. intros w. split; reflexivity. Qed.

Lemma quiet_mkdir name : D name -> keeps (quiet T D) (mkdir name).
Proof.
  intros HT w. unfold mkdir. run.
  destruct (String.eqb name ""); [reflexivity|].
  destruct (files w !! name) eqn:E; [reflexivity|].
  destruct (_ || _); [apply quiet_set_files, gentle_insert_dir; assumption|].
  destruct (files w !! parent_of name) as [[]|]; try reflexivity.
  apply quiet_set_files, gentle_insert_dir; assumption.
Qed.

Lemma quiet_mkdir_exist_ok name : D name -> keeps (quiet T D) (mkdir_exist_ok name).
Proof.
  intros HT w. unfold mkdir_exist_ok. pose proof (quiet_mkdir name HT w) as H.
  destruct (mkdir name w) as [[|e] w1]; cbn in *; [assumption|].
  destruct (is_dir (files w1) name); assumption.
Qed.

Lemma quiet_open_wb p : T p -> keeps (quiet T D) (open_wb p).
Proof.
  intros HT w. unfold open_wb. run.
  destruct (files w !! p) as [[]|] eqn:E; try reflexivity;
    apply quiet_set_files, gentle_insert_file; try assumption;
    unfold is_dir; rewrite E; reflexivity.
Qed.

Lemma quiet_write p chunk : T p -> keeps (quiet T D) (write p chunk).
Proof.
  intros HT w. unfold write. run.
  destruct (files w !! p) as [[]|] eqn:E; try reflexivity.
  apply quiet_set_files, gentle_insert_file; try assumption.
  unfold is_dir; rewrite E; reflexivity.
Qed.

Lemma quiet_write_chunks p chunks : T p -> keeps (quiet T D) (write_chunks p chunks).
Proof.
  intros HT. induction chunks as [|c chunks IH]; cbn.
  - apply keeps_ret; apply _.
  - apply keeps_bind; [apply _ | apply quiet_write; assumption | intros _; exact IH].
Qed.

Lemma quiet_os_remove p : T p -> keeps (quiet T D) (os_remove p).
Proof.
  intros HT w. unfold os_remove. run.
  destruct (files w !! p) as [[]|] eqn:E; try reflexivity.
  apply quiet_set_files, gentle_delete_file; try assumption.
  unfold is_dir; rewrite E; reflexivity.
Qed.

Lemma quiet_os_replace src dst : T src -> T dst -> keeps (quiet T D) (os_replace src dst).
Proof.
  intros Hs Hd w. unfold os_replace. run.
  destruct (files w !! src) as [[data|]|] eqn:Es; try reflexivity.
  assert (Hdel : gentle T D (files w) (delete src (files w))).
  { apply gentle_delete_file; [assumption|]. unfold is_dir; rewrite Es; reflexivity. }
  destruct (files w !! dst) as [[]|] eqn:Ed; try reflexivity;
    apply quiet_set_files; (etransitivity; [exact Hdel|]);
    apply gentle_insert_file; try assumption; unfold is_dir;
    (destruct (decide (src = dst)) as [->|Hne];
     [rewrite lookup_delete_eq | rewrite lookup_delete_ne, Ed by assumption]); reflexivity.
Qed.

Lemma quiet_remove_leftovers paths :
  Forall T paths -> keeps (quiet T D) (remove_leftovers paths).
Proof.
  induction 1 as [|p paths Hp _ IH]; cbn.
  - apply keeps_ret; apply _.
  - apply keeps_bind; [apply _ | apply quiet_path_exists |]. intros e.
    apply keeps_bind; [apply _ | | intros _; exact IH].
    apply keeps_when; [apply _|]. apply keeps_ignore_errors, quiet_os_remove, Hp.
Qed.

Lemma quiet_on_request_exception attempt local_path :
  T local_path -> T (local_path ++ ".tmp") ->
  keeps (quiet T D) (on_request_exception attempt local_path).
Proof.
  intros H1 H2. unfold on_request_exception.
  apply keeps_bind; [apply _ | apply keeps_when; [apply _ | apply quiet_sleep] |].
  intros _. apply quiet_remove_leftovers. repeat constructor; assumption.
Qed.

End Quiet.

Lemma quiet_makedirs_fuel fuel name :
  keeps (quiet nowhere (up_to name)) (makedirs_fuel fuel name).
Proof.
  revert name. induction fuel as [|fuel IH]; intros name; cbn [makedirs_fuel].
  - destruct (path_split name) as [h t]. destruct (if String.eqb t "" then _ else _) as [h' t'].
    apply keeps_bind; [apply _ | apply keeps_get_files; apply _ |]. intros fs.
    destruct (_ && _); apply quiet_mkdir_exist_ok; unfold up_to; lia.
  - pose proof (length_head_le name) as Hh.
    destruct (path_split name) as [h t] eqn:Es. cbn [fst] in Hh.
    assert (Hh' : (String.length (fst (if String.eqb t "" then path_split h else (h, t)))
                   <= String.length name)%nat).
    { destruct (String.eqb t ""); [|exact Hh]. pose proof (length_head_le h). lia. }
    destruct (if String.eqb t "" then _ else _) as [h' t']. cbn [fst] in Hh'.
    apply keeps_bind; [apply _ | apply keeps_get_files; apply _ |]. intros fs.
    destruct (_ && _); [|apply quiet_mkdir_exist_ok; unfold up_to; lia].
    apply keeps_bind; [apply _ | | intros _; apply quiet_mkdir_exist_ok; unfold up_to; lia].
    intros w. specialize (IH h' w).
    eapply quiet_mono; [| |destruct (makedirs_fuel fuel h' w) as [[|[]] w1]; exact IH].
    + auto.
    + unfold up_to. intros k Hk. lia.
Qed.

Lemma quiet_makedirs name :
  keeps (quiet nowhere (up_to name)) (makedirs name).
Proof. apply quiet_makedirs_fuel. Qed.

(** ** The single-file fetcher, step by step *)

Lemma remove_leftovers_ret paths w : fst (remove_leftovers paths w) = Ret tt.
Proof.
  revert w. induction paths as [|p paths IH]; intros w; cbn; [reflexivity|].
  run. unfold when_, ignore_errors.
  destruct (exists_ (files w) p); [|run; apply IH].
  destruct (os_remove p w) as [[|e] w1]; apply IH.
Qed.

Lemma on_request_exception_ret attempt local_path w :
  fst (on_request_exception attempt local_path w) = Ret tt.
Proof.
  unfold on_request_exception. rewrite run_bind.
  destruct (when_ _ _ w) as [[[]|e] w1] eqn:E.
  - apply remove_leftovers_ret.
  - unfold when_ in E. destruct (attempt <? MAX_RETRIES); discriminate.
Qed.

Lemma run_then_cleaned {A} attempt local_path (k : M A) w :
  (on_request_exception attempt local_path ;; k) w = k (cleaned attempt local_path w).
Proof.
  rewrite run_bind. unfold cleaned.
  pose proof (on_request_exception_ret attempt local_path w) as H.
  destruct (on_request_exception attempt local_path w) as [[[]|e] w1];
    cbn in *; [reflexivity | discriminate].
Qed.

Section Attempt.
Context (sess : session) (enc local_path : string) (attempt : Z) (rest : list Z).
Let tmp := local_path ++ ".tmp".

Lemma attempts_refused w :
  sess (requests w) enc = Refused ->
  download_attempts sess enc local_path (attempt :: rest) w
  = download_attempts sess enc local_path rest
      (cleaned attempt local_path (requested enc w)).
Proof.
  intros H. cbn [download_attempts]. rewrite run_bind. unfold session_get at 1.
  rewrite H. apply run_then_cleaned.
Qed.

Lemma attempts_gone w status chunks complete :
  sess (requests w) enc = Reply status chunks complete ->
  (status =? 403) || (status =? 404) = true ->
  download_attempts sess enc local_path (attempt :: rest) w
  = (Ret false, requested enc w).
Proof.
  intros H Hs. cbn [download_attempts]. rewrite run_bind. unfold session_get at 1.
  rewrite H, Hs. reflexivity.
Qed.

Lemma attempts_error w status chunks complete :
  sess (requests w) enc = Reply status chunks complete ->
  (status =? 403) || (status =? 404) = false ->
  (400 <=? status) && (status <? 600) = true ->
  download_attempts sess enc local_path (attempt :: rest) w
  = download_attempts sess enc local_path rest
      (cleaned attempt local_path (requested enc w)).
Proof.
  intros H Hs He. cbn [download_attempts]. rewrite run_bind. unfold session_get at 1.
  rewrite H, Hs, He. apply run_then_cleaned.
Qed.

Lemma attempts_blocked w status chunks complete :
  sess (requests w) enc = Reply status chunks complete ->
  (status =? 403) || (status =? 404) = false ->
  (400 <=? status) && (status <? 600) = false ->
  is_dir (files w) tmp = true ->
  download_attempts sess enc local_path (attempt :: rest) w
  = (Raise IsADirectoryError, requested enc w).
Proof.
  intros H Hs He Hd. cbn [download_attempts]. rewrite run_bind. unfold session_get at 1.
  rewrite H, Hs, He. rewrite run_bind. unfold open_wb. run.
  unfold is_dir in Hd. cbn [files requested]. fold tmp.
  destruct (files w !! tmp) as [[]|]; try discriminate. reflexivity.
Qed.

End Attempt.

Lemma write_chunks_spec p chunks w data :
  files w !! p = Some (File data) ->
  exists w2, write_chunks p chunks w = (Ret tt, w2)
             /\ files w2 = <[p := File (data ++ concat chunks)]> (files w)
             /\ requests w2 = requests w.
Proof.
  revert w data. induction chunks as [|c chunks IH]; intros w data H; cbn.
  - exists w. rewrite app_nil_r, insert_id by assumption. auto.
  - run. unfold write at 1. run. rewrite H. cbn.
    edestruct (IH (snd (set_files (<[p:=File (data ++ c)]> (files w)) w)) (data ++ c)%list)
      as (w2 & E2 & F2 & R2).
    { cbn. apply lookup_insert_eq. }
    exists w2. split; [exact E2|]. split; [|exact R2].
    rewrite F2. cbn. rewrite insert_insert_eq, <- app_assoc. reflexivity.
Qed.

(** The body of a response reaches the temporary path whole. *)
Lemma stream_to_temp tmp chunks w :
  is_dir (files w) tmp = false ->
  exists w2, (open_wb tmp ;; write_chunks tmp chunks) w = (Ret tt, w2)
             /\ files w2 = <[tmp := File (concat chunks)]> (files w)
             /\ requests w2 = requests w.
Proof.
  intros Hd. rewrite run_bind. unfold open_wb at 1. run.
  set (w1 := snd (set_files (<[tmp := File []]> (files w)) w)).
  assert (E :
    match files w !! tmp with
    | Some (Dir _ _) => raise IsADirectoryError
    | _ => set_files (<[tmp:=File []]> (files w))
    end w = (Ret tt, w1)).
  { unfold is_dir in Hd. destruct (files w !! tmp) as [[]|]; try discriminate; reflexivity. }
  rewrite E.
  destruct (write_chunks_spec tmp chunks w1 []) as (w2 & E2 & F2 & R2).
  { cbn. apply lookup_insert_eq. }
  exists w2. split; [exact E2|]. split; [|exact R2].
  rewrite F2. cbn. rewrite insert_insert_eq. reflexivity.
Qed.

Lemma length_append (a b : string) :
  String.length (a ++ b) = (String.length a + String.length b)%nat.
Proof. induction a as [|c a IH]; simpl; [reflexivity | f_equal; exact IH]. Qed.

Lemma tmp_ne (p : string) : p ++ ".tmp" <> p.
Proof.
  intros H. apply (f_equal String.length) in H. rewrite length_append in H.
  cbn in H. lia.
Qed.

(** An attempt whose response carries a body: the body is streamed to
    the temporary path, and then promoted, discarded or abandoned. *)
Lemma attempts_body sess enc local_path attempt rest w status chunks complete :
  sess (requests w) enc = Reply status chunks complete ->
  (status =? 403) || (status =? 404) = false ->
  (400 <=? status) && (status <? 600) = false ->
  is_dir (files w) (local_path ++ ".tmp") = false ->
  exists w2,
    (open_wb (local_path ++ ".tmp") ;; write_chunks (local_path ++ ".tmp") chunks)
      (requested enc w) = (Ret tt, w2)
    /\ files w2 = <[local_path ++ ".tmp" := File (concat chunks)]> (files w)
    /\ requests w2 = enc :: requests w
    /\ download_attempts sess enc local_path (attempt :: rest) w
       = if complete then
           if (0 <? length (concat chunks))%nat then
             if is_dir (files w) local_path then (Raise IsADirectoryError, w2)
             else (Ret true,
                   snd (set_files (<[local_path := File (concat chunks)]>
                                     (delete (local_path ++ ".tmp") (files w2))) w2))
           else (Ret false, snd (set_files (delete (local_path ++ ".tmp") (files w2)) w2))
         else download_attempts sess enc local_path rest (cleaned attempt local_path w2).
Proof.
  intros H Hs He Hd.
  destruct (stream_to_temp (local_path ++ ".tmp") chunks (requested enc w) Hd)
    as (w2 & E2 & F2 & R2).
  exists w2. split; [exact E2|]. split; [exact F2|]. split; [exact R2|].
  cbn [download_attempts]. rewrite run_bind. unfold session_get at 1.
  rewrite H, Hs, He.
  fold (requested enc w).
  rewrite (run_assoc (open_wb _) (fun _ => write_chunks _ _)).
  rewrite run_bind, E2.
  assert (Ht : files w2 !! (local_path ++ ".tmp") = Some (File (concat chunks))).
  { rewrite F2. apply lookup_insert_eq. }
  destruct complete; [|apply run_then_cleaned].
  rewrite run_bind. unfold getsize at 1. run. rewrite Ht. cbn [node_size]. run.
  replace (Z.of_nat (length (concat chunks)) >? 0)
    with (0 <? length (concat chunks))%nat
    by (destruct (length (concat chunks)); reflexivity).
  destruct (0 <? length (concat chunks))%nat.
  - unfold os_replace. run. rewrite Ht.
    assert (Hl : files w2 !! local_path = files w !! local_path).
    { rewrite F2. apply lookup_insert_ne, tmp_ne. }
    rewrite Hl. unfold is_dir.
    destruct (files w !! local_path) as [[]|]; reflexivity.
  - unfold os_remove. run. rewrite Ht. reflexivity.
Qed.

Lemma tame_session_get (T D : string -> Prop) sess url :
  keeps (tame T D) (session_get sess url).
Proof. intros w. split; [exists [url]; reflexivity | reflexivity]. Qed.

Lemma tame_download_attempts sess enc local_path attempts :
  keeps (tame (targets local_path) nowhere)
        (download_attempts sess enc local_path attempts).
Proof.
  assert (Ht : targets local_path local_path) by (left; reflexivity).
  assert (Ht' : targets local_path (local_path ++ ".tmp")) by (right; reflexivity).
  assert (Hh : forall a, keeps (tame (targets local_path) nowhere)
                           (on_request_exception a local_path)).
  { intros a. apply keeps_quiet_tame, quiet_on_request_exception; assumption. }
  induction attempts as [|a rest IH]; cbn [download_attempts].
  - apply keeps_ret; apply _.
  - apply keeps_bind; [apply _ | apply tame_session_get |]. intros [|status chunks complete].
    + apply keeps_bind; [apply _ | apply Hh | intros _; exact IH].
    + destruct (_ || _); [apply keeps_ret; apply _|].
      destruct (_ && _); [apply keeps_bind; [apply _ | apply Hh | intros _; exact IH]|].
      apply keeps_bind; [apply _ | apply keeps_quiet_tame, quiet_open_wb, Ht' |]. intros _.
      apply keeps_bind; [apply _ | apply keeps_quiet_tame, quiet_write_chunks, Ht' |]. intros _.
      destruct complete; [|apply keeps_bind; [apply _ | apply Hh | intros _; exact IH]].
      apply keeps_bind; [apply _ | apply keeps_quiet_tame, quiet_getsize |]. intros size.
      destruct (size >? 0).
      * apply keeps_bind; [apply _ | | intros _; apply keeps_ret; apply _].
        apply keeps_quiet_tame, quiet_os_replace; assumption.
      * apply keeps_bind; [apply _ | | intros _; apply keeps_ret; apply _].
        apply keeps_quiet_tame, quiet_os_remove; assumption.
Qed.

Lemma tame_download_file sess url local_path :
  keeps (tame (targets local_path) (up_to (dirname local_path)))
        (download_file sess url local_path).
Proof.
  unfold download_file.
  apply keeps_bind; [apply _ | apply keeps_quiet_tame, quiet_path_exists |]. intros e.
  apply keeps_bind; [apply _ | |].
  { destruct e; [apply keeps_quiet_tame, quiet_getsize | apply keeps_ret; apply _]. }
  intros size. destruct (_ && _); [apply keeps_ret; apply _|].
  apply keeps_bind; [apply _ | |].
  - eapply keeps_mono; [|apply quiet_makedirs]. intros w w' H.
    apply quiet_tame. eapply quiet_mono; [| |exact H]; [intros k [] | auto].
  - intros _. eapply keeps_mono; [|apply tame_download_attempts].
    intros w w'. apply tame_mono; [auto | intros k []].
Qed.

(** ** The fetcher as a whole *)

Lemma download_file_present sess url local_path w :
  must_fetch (files w) local_path = false ->
  download_file sess url local_path w = (Ret true, w).
Proof.
  unfold must_fetch, download_file. intros H.
  rewrite run_bind, run_path_exists. unfold exists_, getsize.
  destruct (files w !! local_path) as [n|] eqn:E; [|discriminate].
  rewrite !run_bind, run_get_files, E, run_ret.
  destruct (node_size n >? 0); [reflexivity | discriminate].
Qed.

Lemma download_file_absent sess url local_path w :
  must_fetch (files w) local_path = true ->
  download_file sess url local_path w
  = (makedirs (dirname local_path) ;;
     download_attempts sess (wire_url url) local_path attempt_numbers) w.
Proof.
  unfold must_fetch, download_file. intros H.
  rewrite run_bind, run_path_exists. unfold exists_, getsize.
  destruct (files w !! local_path) as [n|] eqn:E.
  - rewrite !run_bind, run_get_files, E, run_ret.
    destruct (node_size n >? 0); [discriminate | reflexivity].
  - rewrite run_bind, run_ret. reflexivity.
Qed.

Lemma must_fetch_cases fs local_path :
  must_fetch fs local_path = false \/ must_fetch fs local_path = true.
Proof. destruct (must_fetch fs local_path); auto. Qed.

Lemma cleaned_not_dir a local_path w k :
  is_dir (files w) k = false -> is_dir (files (cleaned a local_path w)) k = false.
Proof.
  intros H. unfold cleaned.
  destruct (quiet_on_request_exception (targets local_path) nowhere a local_path
              (or_introl eq_refl) (or_intror eq_refl) w) as [_ G].
  eapply gentle_not_dir; [exact G | intros [] | exact H].
Qed.

Lemma lookup_streamed (fs : gmap string node) local_path data :
  (<[local_path ++ ".tmp" := File data]> fs) !! local_path = fs !! local_path.
Proof. apply lookup_insert_ne, tmp_ne. Qed.

Lemma is_dir_streamed (fs : gmap string node) local_path data k :
  is_dir (<[local_path ++ ".tmp" := File data]> fs) k
  = if decide (local_path ++ ".tmp" = k) then false else is_dir fs k.
Proof.
  unfold is_dir. destruct (decide _) as [<-|Hne].
  - rewrite lookup_insert_eq. reflexivity.
  - rewrite lookup_insert_ne by assumption. reflexivity.
Qed.


(** ** What leaves the file operations *)

Section Raises.
Context (P : exn -> Prop).


Lemma raises_raise {A} (e : exn) : P e -> raises_only P (raise e : M A).
Proof. intros He w e' [= <-]. exact He. Qed.

Lemma raises_bind {A B} (m : M A) (f : A -> M B) :
  raises_only P m -> (forall a, raises_only P (f a)) -> raises_only P (m ≫= f).
Proof.
  intros Hm Hf w e. rewrite run_bind. specialize (Hm w).
  destruct (m w) as [[a|e'] w1]; cbn in *; [apply Hf | intros [= <-]; apply Hm; reflexivity].
Qed.

Lemma raises_get_files : raises_only P get_files.
Proof. intros w e H. discriminate. Qed.

Lemma raises_set_files fs : raises_only P (set_files fs).
Proof. intros w e H. discriminate. Qed.



End Raises.

Lemma os_error_mkdir name : raises_only os_error (mkdir name).
Proof.
  unfold mkdir. apply raises_bind; [apply raises_get_files|]. intros fs.
  destruct (String.eqb name ""); [apply raises_raise; exact I|].
  destruct (fs !! name); [apply raises_raise; exact I|].
  destruct (_ || _); [apply raises_set_files|].
  destruct (fs !! parent_of name) as [[]|];
    [apply raises_raise; exact I | apply raises_set_files | apply raises_raise; exact I].
Qed.

Lemma os_error_mkdir_exist_ok name : raises_only os_error (mkdir_exist_ok name).
Proof.
  intros w e. unfold mkdir_exist_ok. pose proof (os_error_mkdir name w) as H.
  destruct (mkdir name w) as [[a|e'] w1]; [discriminate|]. cbn in *.
  destruct (is_dir (files w1) name); [discriminate|]. intros [= <-]. apply H. reflexivity.
Qed.

Lemma os_error_makedirs_fuel fuel name : raises_only os_error (makedirs_fuel fuel name).
Proof.
  revert name. induction fuel as [|fuel IH]; intros name; cbn [makedirs_fuel];
    destruct (path_split name) as [head tail];
    destruct (if String.eqb tail "" then path_split head else (head, tail)) as [head' tail'];
    (apply raises_bind; [apply raises_get_files|]); intros fs;
    destruct (_ && _); try apply os_error_mkdir_exist_ok.
  apply raises_bind; [|intros _; apply os_error_mkdir_exist_ok].
  intros w e. pose proof (IH head' w) as H.
  destruct (makedirs_fuel fuel head' w) as [[a|e'] w1]; [discriminate|]. cbn in *.
  destruct e'; try discriminate; intros [= <-]; apply H; reflexivity.
Qed.

Lemma os_error_makedirs name : raises_only os_error (makedirs name).
Proof. apply os_error_makedirs_fuel. Qed.

(** ** The attempts of the fetcher, one by one *)

Lemma repeat_shift {A} (x : A) n l : (repeat x n ++ x :: l = repeat x (S n) ++ l)%list.
Proof. induction n as [|n IH]; cbn; [reflexivity | f_equal; exact IH]. Qed.

Lemma requests_cleaned a local_path w :
  requests (cleaned a local_path w) = requests w.
Proof.
  unfold cleaned.
  apply (quiet_on_request_exception (targets local_path) nowhere a local_path
           (or_introl eq_refl) (or_intror eq_refl) w).
Qed.

Lemma length_tmp_gt local_path :
  ~ up_to (dirname local_path) (local_path ++ ".tmp").
Proof.
  unfold up_to. rewrite length_append. pose proof (length_dirname_le local_path).
  change (String.length ".tmp") with 4%nat. lia.
Qed.


Lemma retryable_kinds r : retryable r <-> early_failure r \/ breaks_off r.
Proof.
  destruct r as [|status chunks complete]; cbn; [tauto|]. split.
  - intros (H3 & H4 & [H|H]); [left; auto|].
    destruct (Z.le_gt_cases 400 status) as [H1|H1];
      [destruct (Z.lt_ge_cases status 600) as [H2|H2]|]; [left; auto | |]; right; split; auto; lia.
  - intros [(H3 & H4 & H)|[H Hc]]; [auto|].
    repeat split; [lia | lia | right; exact Hc].
Qed.

Section Account.
Context (sess : session) (enc local_path : string).

Ltac kinds :=
  unfold accounted; cbn [gone early_failure breaks_off empty_body success];
  repeat match goal with
         | |- _ /\ _ => split
         | |- _ -> _ => intro
         end;
  repeat match goal with
         | H : _ /\ _ |- _ => destruct H
         end;
  try contradiction; try congruence; try lia;
  try (left; reflexivity); try (left; split; reflexivity); try (split; reflexivity);
  try reflexivity.

Lemma accounted_gone last spent : gone last -> accounted last spent (Ret false).
Proof. destruct last as [|status chunks complete]; cbn [gone]; intros H; kinds. Qed.

Lemma accounted_early last : early_failure last -> accounted last true (Ret false).
Proof. destruct last as [|status chunks complete]; cbn [early_failure]; intros H; kinds. Qed.

Lemma accounted_breaks last : breaks_off last -> accounted last true (Ret false).
Proof. destruct last as [|status chunks complete]; cbn [breaks_off]; intros H; kinds. Qed.

Lemma accounted_empty last spent : empty_body last -> accounted last spent (Ret false).
Proof. destruct last as [|status chunks complete]; cbn [empty_body]; intros H; kinds. Qed.

Lemma accounted_success last spent : success last -> accounted last spent (Ret true).
Proof. destruct last as [|status chunks complete]; cbn [success]; intros H; kinds. Qed.

Lemma accounted_raised last e spent :
  ~ gone last -> ~ early_failure last -> os_error e -> accounted last spent (Raise e).
Proof.
  intros Hg He Ho. repeat split; try contradiction; intros _; right; exists e; auto.
Qed.

Lemma attempts_account attempts w :
  attempts <> [] ->
  let run := download_attempts sess enc local_path attempts w in
  exists m, (S m <= length attempts)%nat
    /\ requests (snd run) = (repeat enc (S m) ++ requests w)%list
    /\ (forall i, (i < m)%nat -> retryable (sess (repeat enc i ++ requests w)%list enc))
    /\ accounted (sess (repeat enc m ++ requests w)%list enc)
         (S m =? length attempts)%nat (fst run).
Proof.
  revert w. induction attempts as [|a rest IH]; intros w Hne; [contradiction|]. cbn zeta.
  set (r0 := sess (requests w) enc).
  assert (Retry : forall w2,
            requests w2 = enc :: requests w ->
            early_failure r0 \/ breaks_off r0 ->
            download_attempts sess enc local_path (a :: rest) w
            = download_attempts sess enc local_path rest (cleaned a local_path w2) ->
            exists m, (S m <= length (a :: rest))%nat
              /\ requests (snd (download_attempts sess enc local_path (a :: rest) w))
                 = (repeat enc (S m) ++ requests w)%list
              /\ (forall i, (i < m)%nat ->
                    retryable (sess (repeat enc i ++ requests w)%list enc))
              /\ accounted (sess (repeat enc m ++ requests w)%list enc)
                   (S m =? length (a :: rest))%nat
                   (fst (download_attempts sess enc local_path (a :: rest) w))).
  { intros w2 R2 Hk ->. destruct rest as [|a2 rest2].
    - exists O. cbn [download_attempts]. rewrite run_ret. cbn [fst snd length repeat app].
      rewrite requests_cleaned, R2. split; [lia|]. split; [reflexivity|].
      split; [intros i Hi; lia|]. fold r0. change (1 =? 1)%nat with true.
      destruct Hk as [Hk|Hk]; [apply accounted_early, Hk | apply accounted_breaks, Hk].
    - destruct (IH (cleaned a local_path w2)) as (m & Hm & Hq & Hr & Ha); [discriminate|].
      rewrite requests_cleaned, R2 in Hq, Hr, Ha.
      exists (S m). split; [cbn [length] in *; lia|].
      split; [rewrite Hq; apply (repeat_shift enc (S m))|].
      split.
      + intros [|i] Hi; [cbn [repeat app]; apply retryable_kinds, Hk|].
        rewrite <- repeat_shift. apply Hr. lia.
      + rewrite <- repeat_shift. exact Ha. }
  destruct r0 as [|status chunks complete] eqn:E; subst r0.
  - apply (Retry (requested enc w)); [reflexivity | left; exact I | apply attempts_refused, E].
  - destruct ((status =? 403) || (status =? 404)) eqn:Hs.
    { erewrite attempts_gone by eassumption. exists O. cbn [fst snd repeat app requested requests].
      split; [cbn [length]; lia|]. split; [reflexivity|]. split; [intros i Hi; lia|].
      rewrite E. apply accounted_gone. cbn. lia. }
    assert (Hs' : status <> 403 /\ status <> 404) by lia.
    destruct ((400 <=? status) && (status <? 600)) eqn:He.
    { apply (Retry (requested enc w));
        [reflexivity | left; cbn; lia | eapply attempts_error; eassumption]. }
    assert (He' : ~ (400 <= status < 600)) by lia.
    destruct (is_dir (files w) (local_path ++ ".tmp")) eqn:Ht.
    { erewrite attempts_blocked by eassumption. exists O.
      cbn [fst snd repeat app requested requests].
      split; [cbn [length]; lia|]. split; [reflexivity|]. split; [intros i Hi; lia|].
      rewrite E. apply accounted_raised; cbn; [lia | lia | exact I]. }
    destruct (attempts_body sess enc local_path a rest w status chunks complete
                E Hs He Ht) as (w2 & _ & F2 & R2 & Eq).
    destruct complete.
    + rewrite Eq. exists O. cbn [repeat app]. split; [cbn [length]; lia|].
      destruct (0 <? length (concat chunks))%nat eqn:Hlen.
      * assert (Hc : concat chunks <> []).
        { intros Hnil. rewrite Hnil in Hlen. discriminate. }
        destruct (is_dir (files w) local_path); cbn [fst snd].
        -- split; [exact R2|]. split; [intros i Hi; lia|]. rewrite E.
           apply accounted_raised; cbn; [lia | lia | exact I].
        -- split; [exact R2|]. split; [intros i Hi; lia|]. rewrite E.
           apply accounted_success. cbn. auto.
      * assert (Hc : concat chunks = []).
        { destruct (concat chunks); [reflexivity | discriminate]. }
        cbn [fst snd]. split; [exact R2|]. split; [intros i Hi; lia|]. rewrite E.
        apply accounted_empty. cbn. auto.
    + apply (Retry w2); [exact R2 | right; cbn; auto | exact Eq].
Qed.

End Account.

Lemma kinds_cover r :
  gone r \/ early_failure r \/ breaks_off r \/ empty_body r \/ success r.
Proof.
  destruct r as [|status chunks complete]; cbn; [tauto|].
  destruct (Z.eq_dec status 403); [tauto|]. destruct (Z.eq_dec status 404); [tauto|].
  destruct (Z_le_gt_dec 400 status); [destruct (Z_lt_ge_dec status 600)|].
  - right. left. auto.
  - assert (~ (400 <= status < 600)) by lia.
    destruct complete; [destruct (concat chunks) eqn:Ec|]; [tauto | | tauto].
    right. right. right. right. repeat split; [assumption | discriminate].
  - assert (~ (400 <= status < 600)) by lia.
    destruct complete; [destruct (concat chunks) eqn:Ec|]; [tauto | | tauto].
    right. right. right. right. repeat split; [assumption | discriminate].
Qed.

Lemma definitive_kinds r : definitive r -> gone r \/ empty_body r.
Proof.
  destruct r as [|status chunks complete]; cbn; [tauto|].
  intros [H|[H|(H & Hc & He)]]; [tauto | tauto |]. right. repeat split; [lia | assumption..].
Qed.

Lemma definitive_not_retryable r : definitive r -> ~ retryable r.
Proof.
  destruct r as [|status chunks complete]; cbn; [tauto|].
  intros [H|[H|(H & Hc & He)]] (H3 & H4 & [H5|H5]); try lia. congruence.
Qed.

(** The attempts of a call of [download_file] that has to fetch and
    whose directory is made. *)
Lemma download_file_account sess url local_path w :
  must_fetch (files w) local_path = true ->
  fst (makedirs (dirname local_path) w) = Ret tt ->
  let enc := wire_url url in
  let run := download_file sess url local_path w in
  exists m, (S m <= Z.to_nat MAX_RETRIES)%nat
    /\ requests (snd run) = (repeat enc (S m) ++ requests w)%list
    /\ (forall i, (i < m)%nat -> retryable (sess (repeat enc i ++ requests w)%list enc))
    /\ accounted (sess (repeat enc m ++ requests w)%list enc)
         (S m =? Z.to_nat MAX_RETRIES)%nat (fst run).
Proof.
  intros Hm Hk. cbn zeta. rewrite download_file_absent by assumption. rewrite run_bind.
  pose proof (quiet_makedirs (dirname local_path) w) as [Rq _].
  destruct (makedirs (dirname local_path) w) as [[[]|e] w1]; [|discriminate].
  cbn [snd] in Rq. rewrite <- Rq.
  apply (attempts_account sess (wire_url url) local_path attempt_numbers w1). discriminate.
Qed.

(** ** C6: the retry policy of the fetcher *)

(** C6 (amended).  A call of [download_file] that has to fetch either
    fails to make the directory of the local path, and then raises what
    [os.makedirs] raised without a request, or makes at least one
    request and at most [MAX_RETRIES], all for the same URL.  A 403, a
    404 or a success status with a complete empty body is the last
    response: no request follows it; the call returns [False] for a 403
    or 404, and for the empty body it returns [False] unless a file
    operation raises.  A transport error or an error status other than
    403 and 404 is retried while the budget lasts: such a response is
    the last one only when the budget is spent, and then the call
    returns [False] (for a body that breaks off, unless a file operation
    raises).  The call returns [True] only after a complete response
    that is no error and not empty. *)
Theorem fetch_retry_policy (sess : session) (url local_path : string) (w : world) :
  must_fetch (files w) local_path = true ->
  let enc := wire_url url in
  let run := download_file sess url local_path w in
  let resp := fun i : nat => sess (repeat enc i ++ requests w)%list enc in
  (exists e, fst (makedirs (dirname local_path) w) = Raise e
             /\ fst run = Raise e /\ os_error e /\ requests (snd run) = requests w)
  \/ exists m,
    (S m <= Z.to_nat MAX_RETRIES)%nat
    /\ requests (snd run) = (repeat enc (S m) ++ requests w)%list
    /\ (forall i, (i < m)%nat -> retryable (resp i))
    /\ (forall i, (i <= m)%nat -> definitive (resp i) -> i = m)
    /\ (gone (resp m) -> fst run = Ret false)
    /\ (definitive (resp m) ->
          fst run = Ret false \/ exists e, fst run = Raise e /\ os_error e)
    /\ (early_failure (resp m) -> S m = Z.to_nat MAX_RETRIES /\ fst run = Ret false)
    /\ (retryable (resp m) ->
          (S m = Z.to_nat MAX_RETRIES /\ fst run = Ret false)
          \/ exists e, fst run = Raise e /\ os_error e)
    /\ (fst run = Ret true -> success (resp m))
    /\ (fst run = Ret false ->
          gone (resp m) \/ empty_body (resp m)
          \/ (retryable (resp m) /\ S m = Z.to_nat MAX_RETRIES)).
Proof.
  intros Hm. cbn zeta.
  destruct (fst (makedirs (dirname local_path) w)) as [[]|e0] eqn:Hk; [right|left].
  2:{ exists e0. split; [reflexivity|].
      rewrite download_file_absent by assumption. rewrite run_bind.
      pose proof (quiet_makedirs (dirname local_path) w) as [Rq _].
      pose proof (os_error_makedirs (dirname local_path) w) as Ho.
      destruct (makedirs (dirname local_path) w) as [[[]|e] w1]; [discriminate|].
      cbn [fst snd] in *. injection Hk as ->. auto. }
  destruct (download_file_account sess url local_path w Hm Hk)
    as (m & Hle & Hq & Hr & (A1 & A2 & A3 & A4 & A5)).
  cbn zeta in *. exists m.
  set (last := sess (repeat (wire_url url) m ++ requests w)%list (wire_url url)) in *.
  set (r := fst (download_file sess url local_path w)) in *.
  assert (Hspent : forall P : Prop,
            (S m =? Z.to_nat MAX_RETRIES)%nat = true /\ P -> S m = Z.to_nat MAX_RETRIES /\ P).
  { intros P [H1 H2]. split; [apply Nat.eqb_eq, H1 | exact H2]. }
  split; [exact Hle|]. split; [exact Hq|]. split; [exact Hr|].
  split.
  { intros i Hi Hd. destruct (Nat.eq_dec i m) as [|Hne]; [assumption|].
    exfalso. apply (definitive_not_retryable _ Hd), Hr. lia. }
  split; [exact A1|].
  split.
  { intros Hd. destruct (definitive_kinds _ Hd) as [H|H]; [left; apply A1, H | apply A4, H]. }
  split; [intros H; apply Hspent, A2, H|].
  split.
  { intros H. apply retryable_kinds in H as [H|H].
    - left. apply Hspent, A2, H.
    - destruct (A3 H) as [H'|H']; [left; apply Hspent, H' | right; exact H']. }
  split.
  { intros Ht. destruct (kinds_cover last) as [H|[H|[H|[H|H]]]]; [| | | |exact H].
    - rewrite (A1 H) in Ht. discriminate.
    - destruct (A2 H) as [_ E]. rewrite E in Ht. discriminate.
    - destruct (A3 H) as [[_ E]|(e & E & _)]; rewrite E in Ht; discriminate.
    - destruct (A4 H) as [E|(e & E & _)]; rewrite E in Ht; discriminate. }
  intros Hf. destruct (kinds_cover last) as [H|[H|[H|[H|H]]]]; [auto | | | auto |].
  - right. right. split; [apply retryable_kinds; auto | apply (Hspent True), (conj (proj1 (A2 H)) I)].
  - destruct (A3 H) as [[E _]|(e & E & _)]; [|rewrite E in Hf; discriminate].
    right. right. split; [apply retryable_kinds; auto | apply Nat.eqb_eq, E].
  - destruct (A5 H) as [E|(e & E & _)]; rewrite E in Hf; discriminate.
Qed.

(** A 500 is answered by a second request, the 404 that follows by
    none. *)
Example fetch_retry_policy_witness :
  let sess : session := fun hist _ =>
    match hist with [] => Reply 500 [] true | _ => Reply 404 [] true end in
  let enc := wire_url "https://host/a.bin" in
  let run := download_file sess "https://host/a.bin" "out/a.bin" blank in
  let resp := fun i : nat => sess (repeat enc i ++ requests blank)%list enc in
  must_fetch (files blank) "out/a.bin" = true
  /\ ((exists e, fst (makedirs (dirname "out/a.bin") blank) = Raise e
             /\ fst run = Raise e /\ os_error e /\ requests (snd run) = requests blank)
  \/ exists m,
    (S m <= Z.to_nat MAX_RETRIES)%nat
    /\ requests (snd run) = (repeat enc (S m) ++ requests blank)%list
    /\ (forall i, (i < m)%nat -> retryable (resp i))
    /\ (forall i, (i <= m)%nat -> definitive (resp i) -> i = m)
    /\ (gone (resp m) -> fst run = Ret false)
    /\ (definitive (resp m) ->
          fst run = Ret false \/ exists e, fst run = Raise e /\ os_error e)
    /\ (early_failure (resp m) -> S m = Z.to_nat MAX_RETRIES /\ fst run = Ret false)
    /\ (retryable (resp m) ->
          (S m = Z.to_nat MAX_RETRIES /\ fst run = Ret false)
          \/ exists e, fst run = Raise e /\ os_error e)
    /\ (fst run = Ret true -> success (resp m))
    /\ (fst run = Ret false ->
          gone (resp m) \/ empty_body (resp m)
          \/ (retryable (resp m) /\ S m = Z.to_nat MAX_RETRIES))).
Proof.
  split; [reflexivity|].
  apply (fetch_retry_policy
           (fun hist _ => match hist with [] => Reply 500 [] true | _ => Reply 404 [] true end)
           "https://host/a.bin" "out/a.bin" blank); reflexivity.
Defined.

(** C6, as stated, fails: a success status with an empty body does not
    always make [download_file] return [False].  The body is written to
    the temporary path before its size is looked at; when that path is
    a directory, [open] raises [IsADirectoryError], which is not caught.
    (No further request is made.) *)
Example empty_body_raises :
  let sess : session := fun _ _ => Reply 200 [] true in
  let w := World (list_to_map [("out", fresh_dir); ("out/a.bin.tmp", fresh_dir)])
             [] [] [] [] in
  let run := download_file sess "https://host/a.bin" "out/a.bin" w in
  definitive (sess [] "https://host/a.bin")
  /\ fst run = Raise IsADirectoryError
  /\ requests (snd run) = ["https://host/a.bin"].
Proof. cbn zeta. split; [cbn; right; right; repeat split; lia|]. vm_compute. auto. Qed.

(** ** Exhausting the retries *)

Lemma is_file_delete (fs : gmap string node) p k :
  is_file fs k = false -> is_file (delete p fs) k = false.
Proof.
  unfold is_file. destruct (decide (p = k)) as [->|H].
  - rewrite lookup_delete_eq. reflexivity.
  - rewrite lookup_delete_ne by assumption. auto.
Qed.

Lemma remove_leftover_clears p w :
  let w' := snd (when_ (exists_ (files w) p) (ignore_errors (os_remove p)) w) in
  is_file (files w') p = false
  /\ forall k, is_file (files w) k = false -> is_file (files w') k = false.
Proof.
  cbn zeta. unfold exists_, when_, ignore_errors, os_remove, is_file.
  destruct (files w !! p) as [[data|sz l]|] eqn:E.
  - rewrite run_bind, run_get_files, E. cbn. rewrite lookup_delete_eq.
    split; [reflexivity|]. intros k. apply is_file_delete.
  - rewrite run_bind, run_get_files, E. cbn. rewrite E. auto.
  - cbn. rewrite E. auto.
Qed.

Lemma run_when_ignore (b : bool) (m : M unit) w :
  when_ b (ignore_errors m) w = (Ret tt, snd (when_ b (ignore_errors m) w)).
Proof.
  unfold when_, ignore_errors. destruct b; [|reflexivity].
  destruct (m w) as [[[]|e] w']; reflexivity.
Qed.

(** After the handler of a failed attempt, neither the final nor the
    temporary path holds a file. *)
Lemma cleaned_clears a local_path w :
  is_file (files (cleaned a local_path w)) local_path = false
  /\ is_file (files (cleaned a local_path w)) (local_path ++ ".tmp") = false.
Proof.
  unfold cleaned, on_request_exception. rewrite run_bind.
  assert (Hs : exists w0, when_ (a <? MAX_RETRIES) (sleep (RETRY_DELAY * a)) w = (Ret tt, w0)).
  { unfold when_. destruct (a <? MAX_RETRIES); eexists; reflexivity. }
  destruct Hs as [w0 ->]. cbn [remove_leftovers].
  rewrite run_bind, run_path_exists, run_bind.
  destruct (remove_leftover_clears (local_path ++ ".tmp") w0) as [H1 _].
  rewrite run_when_ignore.
  set (w1 := snd (when_ (exists_ (files w0) (local_path ++ ".tmp")) _ w0)) in *.
  rewrite run_bind, run_path_exists, run_bind.
  destruct (remove_leftover_clears local_path w1) as [H2 H3].
  rewrite run_when_ignore.
  set (w2 := snd (when_ (exists_ (files w1) local_path) _ w1)) in *.
  rewrite run_ret. cbn [snd]. auto.
Qed.

Lemma attempts_exhaust sess enc local_path attempts w :
  (forall hist, retryable (sess hist enc)) ->
  is_dir (files w) (local_path ++ ".tmp") = false ->
  attempts <> [] ->
  let run := download_attempts sess enc local_path attempts w in
  fst run = Ret false
  /\ requests (snd run) = (repeat enc (length attempts) ++ requests w)%list
  /\ is_file (files (snd run)) local_path = false
  /\ is_file (files (snd run)) (local_path ++ ".tmp") = false.
Proof.
  intros Hf. revert w. induction attempts as [|a rest IH]; intros w Ht Hne; [contradiction|].
  cbn zeta.
  assert (Next : forall w2,
            requests w2 = enc :: requests w ->
            is_dir (files w2) (local_path ++ ".tmp") = false ->
            download_attempts sess enc local_path (a :: rest) w
            = download_attempts sess enc local_path rest (cleaned a local_path w2) ->
            fst (download_attempts sess enc local_path (a :: rest) w) = Ret false
            /\ requests (snd (download_attempts sess enc local_path (a :: rest) w))
               = (repeat enc (length (a :: rest)) ++ requests w)%list
            /\ is_file (files (snd (download_attempts sess enc local_path (a :: rest) w)))
                 local_path = false
            /\ is_file (files (snd (download_attempts sess enc local_path (a :: rest) w)))
                 (local_path ++ ".tmp") = false).
  { intros w2 R2 D2 ->. destruct rest as [|a2 rest2].
    - cbn [download_attempts]. rewrite run_ret. cbn [fst snd].
      rewrite requests_cleaned, R2. split; [reflexivity|]. split; [reflexivity|].
      apply cleaned_clears.
    - destruct (IH (cleaned a local_path w2)) as (H1 & H2 & H3 & H4);
        [apply cleaned_not_dir, D2 | discriminate |].
      rewrite requests_cleaned, R2 in H2.
      split; [exact H1|]. split; [|auto].
      rewrite H2. apply (repeat_shift enc (length (a2 :: rest2))). }
  specialize (Hf (requests w)).
  destruct (sess (requests w) enc) as [|status chunks complete] eqn:E.
  - apply (Next (requested enc w)); [reflexivity | exact Ht | apply attempts_refused, E].
  - cbn in Hf. destruct Hf as (H3 & H4 & Hc).
    assert (Hs : (status =? 403) || (status =? 404) = false) by lia.
    destruct ((400 <=? status) && (status <? 600)) eqn:He.
    { apply (Next (requested enc w));
        [reflexivity | exact Ht | eapply attempts_error; eassumption]. }
    destruct Hc as [Hc|Hc]; [lia|]. subst complete.
    destruct (attempts_body sess enc local_path a rest w status chunks false
                E Hs He Ht) as (w2 & _ & F2 & R2 & Eq).
    apply (Next w2); [exact R2 | | exact Eq].
    rewrite F2, is_dir_streamed. destruct (decide _); [reflexivity | contradiction].
Qed.

(** When every response is retryable, [download_file] makes
    [MAX_RETRIES] requests and returns [False], and neither the final
    nor the temporary path holds a file afterwards. *)
Theorem retries_exhausted (sess : session) (url local_path : string) (w : world) :
  (forall hist, retryable (sess hist (wire_url url))) ->
  must_fetch (files w) local_path = true ->
  fst (makedirs (dirname local_path) w) = Ret tt ->
  is_dir (files w) (local_path ++ ".tmp") = false ->
  let run := download_file sess url local_path w in
  fst run = Ret false
  /\ requests (snd run)
     = (repeat (wire_url url) (Z.to_nat MAX_RETRIES) ++ requests w)%list
  /\ is_file (files (snd run)) local_path = false
  /\ is_file (files (snd run)) (local_path ++ ".tmp") = false.
Proof.
  intros Hf Hm Hk Ht. cbn zeta. rewrite download_file_absent by assumption.
  rewrite run_bind.
  pose proof (quiet_makedirs (dirname local_path) w) as [Rq G].
  destruct (makedirs (dirname local_path) w) as [[[]|e] w1]; [|discriminate].
  cbn [snd] in *. rewrite <- Rq.
  apply (attempts_exhaust sess (wire_url url) local_path attempt_numbers w1 Hf);
    [|discriminate].
  eapply gentle_not_dir; [exact G | apply length_tmp_gt | exact Ht].
Qed.

(** The body breaks off after its first chunk at every attempt. *)
Example retries_exhausted_witness :
  let sess : session := fun _ _ => Reply 200 [[x41]] false in
  let run := download_file sess "https://host/a b.bin" "out/a.bin" blank in
  fst run = Ret false
  /\ requests (snd run) = (repeat "https://host/a%20b.bin" 3 ++ [])%list
  /\ is_file (files (snd run)) "out/a.bin" = false
  /\ is_file (files (snd run)) "out/a.bin.tmp" = false.
Proof.
  cbn zeta.
  apply (retries_exhausted (fun _ _ => Reply 200 [[x41]] false)
           "https://host/a b.bin" "out/a.bin" blank).
  - intros hist. cbn. split; [discriminate|]. split; [discriminate|]. right. reflexivity.
  - reflexivity.
  - vm_compute. reflexivity.
  - reflexivity.
Defined.

(** The delays between the attempts grow linearly: 2 s after the
    first, 4 s after the second, none after the last. *)
Example linear_backoff :
  sleeps (snd (download_file (fun _ _ => Refused) "https://host/a.bin" "out/a.bin" blank))
  = [4; 2].
Proof. vm_compute. reflexivity. Qed.

(** A 500 is tried again, a 404 is not. *)
Example retry_then_gone :
  let sess : session := fun hist _ =>
    match hist with [] => Reply 500 [] true | _ => Reply 404 [] true end in
  let run := download_file sess "https://host/a.bin" "out/a.bin" blank in
  fst run = Ret false /\ length (requests (snd run)) = 2%nat.
Proof. vm_compute. auto. Qed.
(** ** What leaves the fetcher *)










(** ** C3: what is there is not fetched again *)

Lemma attempts_success sess enc local_path attempts w w' :
  download_attempts sess enc local_path attempts w = (Ret true, w') ->
  exists data, files w' !! local_path = Some (File data) /\ data <> [].
Proof.
  revert w. induction attempts as [|a rest IH]; intros w; [discriminate|].
  destruct (sess (requests w) enc) as [|status chunks complete] eqn:E.
  - rewrite attempts_refused by assumption. apply IH.
  - destruct ((status =? 403) || (status =? 404)) eqn:Hs.
    { erewrite attempts_gone by eassumption. discriminate. }
    destruct ((400 <=? status) && (status <? 600)) eqn:He.
    { erewrite attempts_error by eassumption. apply IH. }
    destruct (is_dir (files w) (local_path ++ ".tmp")) eqn:Ht.
    { erewrite attempts_blocked by eassumption. discriminate. }
    destruct (attempts_body sess enc local_path a rest w status chunks complete
                E Hs He Ht) as (w2 & _ & F2 & _ & ->).
    destruct complete; [|apply IH].
    destruct (0 <? length (concat chunks))%nat eqn:Hlen; [|discriminate].
    destruct (is_dir (files w) local_path); [discriminate|].
    intros [= <-]. exists (concat chunks). cbn. rewrite lookup_insert_eq.
    split; [reflexivity|]. intros Hnil. rewrite Hnil in Hlen. discriminate.
Qed.

(** When [download_file] reports success, the local path holds
    something of non-zero size. *)
Lemma download_file_success sess url local_path w w' :
  download_file sess url local_path w = (Ret true, w') ->
  must_fetch (files w') local_path = false.
Proof.
  destruct (must_fetch_cases (files w) local_path) as [H|H].
  { rewrite download_file_present by assumption. intros [= <-]. exact H. }
  rewrite download_file_absent by assumption. rewrite run_bind.
  destruct (makedirs (dirname local_path) w) as [[[]|e] w1]; [|discriminate].
  intros Hr. destruct (attempts_success _ _ _ _ _ _ Hr) as (data & Hd & Hne).
  unfold must_fetch. rewrite Hd. cbn. destruct data; [contradiction | reflexivity].
Qed.

(** ** C5: what is visible at the final path *)

Section Visible.
Context (sess : session) (enc local_path : string) (fs0 : gmap string node).
Let P := visible_ok sess enc local_path fs0.

Lemma visible_harmless s s' : harmless local_path s s' -> P s -> P s'.
Proof.
  intros [H|H] HP data Hd.
  - apply HP. rewrite <- H. exact Hd.
  - unfold is_file in H. rewrite Hd in H. discriminate.
Qed.

Lemma always_same w w' :
  files w' = files w -> past w' = past w -> always P w w'.
Proof.
  intros Hf Hp. exists []. split; [exact Hp|].
  intros H. rewrite Hf. constructor; [exact H | constructor].
Qed.

Lemma always_set_files fs' w :
  (P (files w) -> P fs') -> always P w (snd (set_files fs' w)).
Proof.
  intros H. exists [files w]. split; [reflexivity|].
  intros HP. constructor; [auto|]. constructor; [exact HP | constructor].
Qed.

Lemma harmless_insert_other s p n :
  p <> local_path -> harmless local_path s (<[p := n]> s).
Proof. intros H. left. apply lookup_insert_ne, H. Qed.

Lemma harmless_insert_dir s p sz l : harmless local_path s (<[p := Dir sz l]> s).
Proof.
  destruct (decide (p = local_path)) as [->|H]; [|apply harmless_insert_other, H].
  right. unfold is_file. rewrite lookup_insert_eq. reflexivity.
Qed.

Lemma harmless_delete s p : harmless local_path s (delete p s).
Proof.
  destruct (decide (p = local_path)) as [->|H].
  - right. unfold is_file. rewrite lookup_delete_eq. reflexivity.
  - left. apply lookup_delete_ne, H.
Qed.

Lemma always_getsize p : keeps (always P) (getsize p).
Proof.
  intros w. unfold getsize. run. destruct (files w !! p); apply always_same; reflexivity.
Qed.

Lemma always_sleep n : keeps (always P) (sleep n).
Proof. intros w. apply always_same; reflexivity. Qed.

Lemma always_session_get url : keeps (always P) (session_get sess url).
Proof. intros w. apply always_same; reflexivity. Qed.

Lemma always_path_exists p : keeps (always P) (path_exists p).
Proof. intros w. apply always_same; reflexivity. Qed.

Lemma always_mkdir name : keeps (always P) (mkdir name).
Proof.
  intros w. unfold mkdir. run.
  destruct (String.eqb name ""); [reflexivity|].
  destruct (files w !! name); [reflexivity|].
  destruct (_ || _);
    [apply always_set_files, visible_harmless, harmless_insert_dir|].
  destruct (files w !! parent_of name) as [[]|]; try reflexivity.
  apply always_set_files, visible_harmless, harmless_insert_dir.
Qed.

Lemma always_mkdir_exist_ok name : keeps (always P) (mkdir_exist_ok name).
Proof.
  intros w. unfold mkdir_exist_ok. pose proof (always_mkdir name w) as H.
  destruct (mkdir name w) as [[|e] w1]; cbn in *; [assumption|].
  destruct (is_dir (files w1) name); assumption.
Qed.

Lemma always_makedirs_fuel fuel name : keeps (always P) (makedirs_fuel fuel name).
Proof.
  revert name. induction fuel as [|fuel IH]; intros name; cbn [makedirs_fuel];
    destruct (path_split name) as [h t];
    destruct (if String.eqb t "" then _ else _) as [h' t'];
    (apply keeps_bind; [apply _ | apply keeps_get_files; apply _ |]); intros fs;
    destruct (_ && _); try apply always_mkdir_exist_ok.
  apply keeps_bind; [apply _ | | intros _; apply always_mkdir_exist_ok].
  intros w. specialize (IH h' w).
  destruct (makedirs_fuel fuel h' w) as [[|[]] w1]; exact IH.
Qed.

Lemma always_open_wb p : p <> local_path -> keeps (always P) (open_wb p).
Proof.
  intros Hp w. unfold open_wb. run.
  destruct (files w !! p) as [[]|]; try reflexivity;
    apply always_set_files, visible_harmless, harmless_insert_other, Hp.
Qed.

Lemma always_write p chunk : p <> local_path -> keeps (always P) (write p chunk).
Proof.
  intros Hp w. unfold write. run.
  destruct (files w !! p) as [[]|]; try reflexivity.
  apply always_set_files, visible_harmless, harmless_insert_other, Hp.
Qed.

Lemma always_write_chunks p chunks :
  p <> local_path -> keeps (always P) (write_chunks p chunks).
Proof.
  intros Hp. induction chunks as [|c chunks IH]; cbn.
  - apply keeps_ret; apply _.
  - apply keeps_bind; [apply _ | apply always_write, Hp | intros _; exact IH].
Qed.

Lemma always_os_remove p : keeps (always P) (os_remove p).
Proof.
  intros w. unfold os_remove. run.
  destruct (files w !! p) as [[]|]; try reflexivity.
  apply always_set_files, visible_harmless, harmless_delete.
Qed.

Lemma always_remove_leftovers paths : keeps (always P) (remove_leftovers paths).
Proof.
  induction paths as [|p paths IH]; cbn.
  - apply keeps_ret; apply _.
  - apply keeps_bind; [apply _ | apply always_path_exists |]. intros e.
    apply keeps_bind; [apply _ | | intros _; exact IH].
    apply keeps_when; [apply _|]. apply keeps_ignore_errors, always_os_remove.
Qed.

Lemma always_on_request_exception a p : keeps (always P) (on_request_exception a p).
Proof.
  unfold on_request_exception.
  apply keeps_bind; [apply _ | apply keeps_when; [apply _ | apply always_sleep] |].
  intros _. apply always_remove_leftovers.
Qed.

Lemma always_cleaned a p w : always P w (cleaned a p w).
Proof. apply always_on_request_exception. Qed.

End Visible.

Lemma always_download_attempts sess enc local_path fs0 attempts :
  keeps (always (visible_ok sess enc local_path fs0))
        (download_attempts sess enc local_path attempts).
Proof.
  induction attempts as [|a rest IH]; intros w; [reflexivity|].
  assert (Hreq : always (visible_ok sess enc local_path fs0) w (requested enc w))
    by (apply always_same; reflexivity).
  destruct (sess (requests w) enc) as [|status chunks complete] eqn:E.
  - rewrite attempts_refused by assumption.
    etransitivity; [exact Hreq|]. etransitivity; [apply always_cleaned | apply IH].
  - destruct ((status =? 403) || (status =? 404)) eqn:Hs.
    { erewrite attempts_gone by eassumption. exact Hreq. }
    destruct ((400 <=? status) && (status <? 600)) eqn:He.
    { erewrite attempts_error by eassumption.
      etransitivity; [exact Hreq|]. etransitivity; [apply always_cleaned | apply IH]. }
    destruct (is_dir (files w) (local_path ++ ".tmp")) eqn:Ht.
    { erewrite attempts_blocked by eassumption. exact Hreq. }
    destruct (attempts_body sess enc local_path a rest w status chunks complete
                E Hs He Ht) as (w2 & E2 & F2 & _ & ->).
    assert (H2 : always (visible_ok sess enc local_path fs0) w w2).
    { etransitivity; [exact Hreq|].
      replace w2 with
        (snd ((open_wb (local_path ++ ".tmp") ;;
               write_chunks (local_path ++ ".tmp") chunks) (requested enc w)))
        by (rewrite E2; reflexivity).
      apply keeps_bind; [apply _ | apply always_open_wb, tmp_ne |].
      intros _. apply always_write_chunks, tmp_ne. }
    destruct complete.
    + destruct (0 <? length (concat chunks))%nat eqn:Hlen.
      * destruct (is_dir (files w) local_path); [exact H2|]. cbn [snd].
        etransitivity; [exact H2|]. apply always_set_files. intros _ data.
        rewrite lookup_insert_eq. intros [= <-]. right. split.
        -- intros Hnil. rewrite Hnil in Hlen. discriminate.
        -- exists (requests w), status, chunks. auto.
      * cbn [snd]. etransitivity; [exact H2|].
        apply always_set_files, visible_harmless, harmless_delete.
    + etransitivity; [exact H2|]. etransitivity; [apply always_cleaned | apply IH].
Qed.

Lemma always_download_file sess url local_path fs0 :
  keeps (always (visible_ok sess (wire_url url) local_path fs0))
        (download_file sess url local_path).
Proof.
  intros w. destruct (must_fetch_cases (files w) local_path) as [H|H].
  { rewrite download_file_present by assumption. reflexivity. }
  rewrite download_file_absent by assumption.
  apply keeps_bind; [apply _ | apply always_makedirs_fuel |].
  intros _. apply always_download_attempts.
Qed.

Lemma seen_since_always P w w' s :
  always P w w' -> P (files w) -> In s (seen_since w w') -> P s.
Proof.
  intros (new & Hp & H) H0 Hs. specialize (H H0). unfold seen_since in Hs.
  rewrite Hp, length_app, Nat.add_sub, firstn_app, Nat.sub_diag, firstn_all in Hs.
  cbn in Hs. rewrite app_nil_r in Hs.
  rewrite Forall_forall in H. apply H. apply list_elem_of_In. exact Hs.
Qed.

(** C5.  Whatever the session does, also when it aborts mid-stream: a
    file that is visible at the final path at any point of a call of
    [download_file] is the file that was there before the call, or the
    whole non-empty body of a complete response; a partial body is only
    ever at the temporary path. *)
Theorem atomic_visibility (sess : session) (url local_path : string) (w : world)
    (s : gmap string node) (data : list byte) :
  In s (seen_since w (snd (download_file sess url local_path w))) ->
  s !! local_path = Some (File data) ->
  files w !! local_path = Some (File data) \/ whole_body sess (wire_url url) data.
Proof.
  intros Hs Hd.
  apply (seen_since_always (visible_ok sess (wire_url url) local_path (files w))
           w _ s (always_download_file sess url local_path (files w) w)); auto.
  intros d Hd'. left. exact Hd'.
Qed.

Example atomic_visibility_witness :
  files blank !! "out/a.bin" = Some (File [x41; x42; x43])
  \/ whole_body (one_asset "https://host/a.bin") (wire_url "https://host/a.bin")
       [x41; x42; x43].
Proof.
  apply (atomic_visibility (one_asset "https://host/a.bin") "https://host/a.bin"
           "out/a.bin" blank
           (files (snd (download_file (one_asset "https://host/a.bin")
                          "https://host/a.bin" "out/a.bin" blank)))).
  - left. reflexivity.
  - reflexivity.
Defined.

(** ** The pair materializer, step by step *)

Lemma find_folder_reads group_dir file_id w :
  exists found, find_folder group_dir file_id w = (Ret found, w).
Proof.
  unfold find_folder. rewrite run_bind, run_path_isdir. unfold is_dir.
  destruct (files w !! group_dir) as [[|sz l]|] eqn:E;
    try (eexists; reflexivity).
  rewrite run_bind. unfold try_listdir, listdir. rewrite run_bind, run_get_files, E.
  destruct l; eexists; reflexivity.
Qed.

Lemma pair_folder_found w pdf_url base_dir found :
  find_folder (join base_dir (group_of pdf_url)) (file_id_of pdf_url) w = (Ret found, w) ->
  pair_folder w pdf_url base_dir
  = default (join (join base_dir (group_of pdf_url)) (file_id_of pdf_url)) found.
Proof.
  unfold pair_folder, group_of, file_id_of. destruct (parse_url_info pdf_url) as [g f].
  cbn [fst snd]. intros ->. destruct found; reflexivity.
Qed.

(** [download_pair] once its folder is known. *)
Lemma download_pair_unfold sess pdf_url video_url base_dir video_extensions dh w :
  let folder := pair_folder w pdf_url base_dir in
  let file_id := file_id_of pdf_url in
  let exts := extensions_of video_extensions in
  let pdf_path := join folder (file_id ++ ".pdf") in
  download_pair sess pdf_url video_url base_dir video_extensions dh w
  = (makedirs folder ;;
     pdf_ok ← download_file sess pdf_url pdf_path;
     '(vid_ok, actual_vid_path) ← probe_extensions sess video_url folder file_id exts exts;
     if negb vid_ok then
       rmtree folder ;; mret (false, false, group_of pdf_url, file_id)
     else
       when_ dh
         (pdf_there ← path_exists pdf_path;
          when_ (pdf_ok && pdf_there) (dehydrate_single_file pdf_path) ;;
          match actual_vid_path with
          | Some p =>
              vid_there ← path_exists p;
              when_ (negb (String.eqb p "") && vid_there) (dehydrate_single_file p)
          | None => mret tt
          end) ;;
       mret (pdf_ok, vid_ok, group_of pdf_url, file_id)) w.
Proof.
  cbn zeta.
  destruct (find_folder_reads (join base_dir (group_of pdf_url)) (file_id_of pdf_url) w)
    as [found Hf].
  rewrite (pair_folder_found _ _ _ _ Hf).
  unfold download_pair, group_of, file_id_of, extensions_of in *.
  destruct (parse_url_info pdf_url) as [g f]. cbn [fst snd] in *.
  rewrite run_bind, Hf. reflexivity.
Qed.

(** The tail of [download_pair] after a successful probing leaves the
    store and the requests alone. *)
Lemma quiet_dehydration (dh pdf_ok : bool) pdf_path actual :
  keeps (quiet nowhere nowhere)
    (when_ dh
       (pdf_there ← path_exists pdf_path;
        when_ (pdf_ok && pdf_there) (dehydrate_single_file pdf_path) ;;
        match actual with
        | Some p =>
            vid_there ← path_exists p;
            when_ (negb (String.eqb p "") && vid_there) (dehydrate_single_file p)
        | None => mret tt
        end)).
Proof.
  apply keeps_when; [apply _|].
  apply keeps_bind; [apply _ | apply quiet_path_exists |]. intros e.
  apply keeps_bind; [apply _ | apply keeps_when; [apply _ | apply quiet_dehydrate] |].
  intros _. destruct actual; [|apply keeps_ret; apply _].
  apply keeps_bind; [apply _ | apply quiet_path_exists |]. intros e2.
  apply keeps_when; [apply _ | apply quiet_dehydrate].
Qed.

Lemma dehydration_ret (dh pdf_ok : bool) pdf_path actual w :
  fst ((when_ dh
       (pdf_there ← path_exists pdf_path;
        when_ (pdf_ok && pdf_there) (dehydrate_single_file pdf_path) ;;
        match actual with
        | Some p =>
            vid_there ← path_exists p;
            when_ (negb (String.eqb p "") && vid_there) (dehydrate_single_file p)
        | None => mret tt
        end)) w) = Ret tt.
Proof.
  destruct dh; [|reflexivity]. unfold when_ at 1.
  rewrite run_bind, run_path_exists, run_bind.
  destruct (when_ (pdf_ok && _) _ w) as [[[]|e] w1] eqn:E.
  - destruct actual as [p|]; [|reflexivity]. rewrite run_bind, run_path_exists.
    unfold when_. destruct (negb (String.eqb p "") && _); reflexivity.
  - unfold when_ in E. destruct (_ && _); discriminate.
Qed.

Lemma files_quiet_nowhere w w' :
  quiet nowhere nowhere w w' -> files w' = files w /\ requests w' = requests w.
Proof.
  intros [R (F & _ & _)]. split; [|exact R].
  apply map_eq. intros k. destruct (F k) as [H|[[] _]]; [intros [] | exact H].
Qed.

(** The probing, told by its result. *)
Lemma probe_step sess video_url folder file_id vexts ext rest w :
  probe_extensions sess video_url folder file_id vexts (ext :: rest) w
  = (vid_ok ← download_file sess (probe_url vexts video_url ext)
                (join folder (file_id ++ "." ++ ext));
     if vid_ok : bool then mret (true, Some (join folder (file_id ++ "." ++ ext)))
     else probe_extensions sess video_url folder file_id vexts rest) w.
Proof.
  cbn [probe_extensions]. unfold probe_url.
  destruct (String.eqb ext (nth 0 vexts "")); reflexivity.
Qed.

Lemma probe_success sess video_url folder file_id vexts exts w actual w' :
  probe_extensions sess video_url folder file_id vexts exts w = (Ret (true, actual), w') ->
  exists pre ext post w1,
    exts = (pre ++ ext :: post)%list
    /\ probe_extensions sess video_url folder file_id vexts pre w = (Ret (false, None), w1)
    /\ download_file sess (probe_url vexts video_url ext)
         (join folder (file_id ++ "." ++ ext)) w1 = (Ret true, w')
    /\ actual = Some (join folder (file_id ++ "." ++ ext)).
Proof.
  revert w. induction exts as [|ext rest IH]; intros w; [discriminate|].
  rewrite probe_step, run_bind.
  destruct (download_file sess _ _ w) as [[[]|e] w1] eqn:E; [| |discriminate].
  - intros [= <- <-]. exists [], ext, rest, w. auto.
  - intros H. destruct (IH _ H) as (pre & x & post & w2 & -> & Hp & Hd & Ha).
    exists (ext :: pre), x, post, w2. repeat split; try assumption.
    rewrite probe_step, run_bind, E. exact Hp.
Qed.


Lemma tame_anywhere {A} (T D : string -> Prop) (m : M A) :
  keeps (tame T D) m -> keeps (tame anywhere anywhere) m.
Proof. apply keeps_mono. intros w w'. apply tame_mono; intros k _; exact I. Qed.

Lemma tame_probe_extensions sess video_url folder file_id vexts exts :
  keeps (tame anywhere anywhere)
        (probe_extensions sess video_url folder file_id vexts exts).
Proof.
  induction exts as [|ext rest IH]; [apply keeps_ret; apply _|].
  intros w. rewrite probe_step. revert w.
  apply keeps_bind; [apply _ | eapply tame_anywhere, tame_download_file |].
  intros []; [apply keeps_ret; apply _ | exact IH].
Qed.

Lemma makedirs_fuel_is_dir fuel name w w' :
  makedirs_fuel fuel name w = (Ret tt, w') -> is_dir (files w') name = true.
Proof.
  assert (H : forall w w', mkdir_exist_ok name w = (Ret tt, w') ->
                           is_dir (files w') name = true).
  { clear. intros w w'. unfold mkdir_exist_ok.
    destruct (mkdir name w) as [[[]|e] w1] eqn:E.
    - intros [= <-]. revert E. unfold mkdir. run.
      destruct (String.eqb name ""); [discriminate|].
      destruct (files w !! name); [discriminate|].
      assert (Hi : is_dir (<[name := fresh_dir]> (files w)) name = true)
        by (unfold is_dir; rewrite lookup_insert_eq; reflexivity).
      destruct (_ || _); [intros [= <-]; exact Hi|].
      destruct (files w !! parent_of name) as [[]|]; try discriminate.
      intros [= <-]. exact Hi.
    - destruct (is_dir (files w1) name) eqn:Hd; [|discriminate]. intros [= <-]. exact Hd. }
  destruct fuel as [|fuel]; cbn [makedirs_fuel];
    destruct (path_split name) as [h t];
    destruct (if String.eqb t "" then _ else _) as [h' t'];
    rewrite run_bind, run_get_files; destruct (_ && _); try apply H.
  rewrite run_bind.
  destruct (makedirs_fuel fuel h' w) as [[[]|[]] w1]; try discriminate; apply H.
Qed.

Lemma makedirs_is_dir name w w' :
  makedirs name w = (Ret tt, w') -> is_dir (files w') name = true.
Proof. apply makedirs_fuel_is_dir. Qed.

(** ** Removing a folder *)



(** ** What leaves the pair materializer *)

Global Instance asks_preorder : PreOrder asks.
Proof.
  split.
  - intros w. exists []. reflexivity.
  - intros a b c [n1 E1] [n2 E2]. exists (n2 ++ n1)%list.
    rewrite E2, E1, app_assoc. reflexivity.
Qed.

Lemma tame_asks {A} (T D : string -> Prop) (m : M A) : keeps (tame T D) m -> keeps asks m.
Proof. apply keeps_mono. intros w w' [H _]. exact H. Qed.

Lemma quiet_asks {A} (T D : string -> Prop) (m : M A) : keeps (quiet T D) m -> keeps asks m.
Proof. intros H. eapply tame_asks, keeps_quiet_tame, H. Qed.

Lemma asks_rmtree folder : keeps asks (rmtree folder).
Proof. intros w. exists []. reflexivity. Qed.

Lemma asks_probe_extensions sess video_url folder file_id vexts exts :
  keeps asks (probe_extensions sess video_url folder file_id vexts exts).
Proof. eapply tame_asks, tame_probe_extensions. Qed.

(** What follows the probing in [download_pair]. *)
Lemma asks_after_probing (dh pdf_ok vid_ok : bool) (folder pdf_path group file_id : string)
    (actual_vid_path : option string) :
  keeps asks
    (if negb vid_ok then
       rmtree folder ;; mret (false, false, group, file_id)
     else
       when_ dh
         (pdf_there ← path_exists pdf_path;
          when_ (pdf_ok && pdf_there) (dehydrate_single_file pdf_path) ;;
          match actual_vid_path with
          | Some p =>
              vid_there ← path_exists p;
              when_ (negb (String.eqb p "") && vid_there) (dehydrate_single_file p)
          | None => mret tt
          end) ;;
       mret (pdf_ok, vid_ok, group, file_id)).
Proof.
  destruct vid_ok; cbn [negb].
  - apply keeps_bind; [apply _ | | intros _; apply keeps_ret; apply _].
    eapply quiet_asks, quiet_dehydration.
  - apply keeps_bind; [apply _ | apply asks_rmtree | intros _; apply keeps_ret; apply _].
Qed.







(** ** C8: what leaves the fetcher *)




(** What is raised at that input. *)
Example fetch_raises_what :
  fst (download_file (fun _ _ => Refused) "https://host/a.pdf" "a.pdf" blank)
  = Raise FileNotFoundError.
Proof. reflexivity. Qed.

(** ** C1: a pair with no companion is discarded *)





(** The primary asset is fetched, no companion is found: the call
    returns [(False, False, ...)] and the pair is counted as failed.
    (On a store where nothing is in the way the folder is gone.) *)
Example primary_fetched_then_discarded :
  let run := download_pair (one_asset "https://host/DataSet%203/ABC.pdf")
               abc_pdf abc_mov "out" (Some ["mov"; "mp4"]) false blank in
  fst run = Ret (false, false, "DataSet_3", "ABC")
  /\ requests (snd run)
     = ["https://host/DataSet%203/ABC.mp4"; "https://host/DataSet%203/ABC.mov";
        "https://host/DataSet%203/ABC.pdf"]
  /\ exists_ (files (snd run)) "out/DataSet_3/ABC" = false
  /\ collect (fst run) fresh_tally = Tally ∅ 0 1.
Proof. vm_compute. auto. Qed.


(** ** C2: what reconciliation does to the ledger *)

Lemma reconcile_grows fs output_dir pairs c remaining :
  c ⊆ fst (reconcile fs output_dir pairs c remaining).
Proof.
  revert c remaining. induction pairs as [|[p m] pairs IH]; intros c remaining; cbn.
  - reflexivity.
  - destruct (bool_decide _); [apply IH|].
    destruct (folder_exists_for_pair fs p output_dir); [|apply IH].
    etransitivity; [|apply IH]. apply union_subseteq_r.
Qed.

Lemma ledger_after_app before after c :
  ledger_after (before ++ after) c = ledger_after after (ledger_after before c).
Proof. apply fold_left_app. Qed.

Lemma ledger_after_grows runs c : c ⊆ ledger_after runs c.
Proof.
  revert c. induction runs as [|[[fs out] pairs] runs IH]; intros c; cbn.
  - reflexivity.
  - etransitivity; [apply reconcile_grows | apply IH].
Qed.

Lemma clear_skipped_shrinks skipped c n :
  fst (clear_skipped skipped c n) ⊆ c
  /\ forall p m, In (p, m) skipped -> pair_key p ∉ fst (clear_skipped skipped c n).
Proof.
  revert c n. induction skipped as [|[p m] skipped IH]; intros c n; cbn.
  - split; [reflexivity | intros ? ? []].
  - destruct (bool_decide (pair_key p ∈ c)) eqn:E.
    + destruct (IH (c ∖ {[pair_key p]}) (S n)) as [H1 H2]. split.
      * intros k Hk. apply H1 in Hk. apply elem_of_difference in Hk. tauto.
      * intros q m' [[= <- <-]|Hin]; [|eapply H2, Hin].
        intros Hk. apply H1, elem_of_difference in Hk as [_ Hk].
        apply Hk, elem_of_singleton. reflexivity.
    + destruct (IH c n) as [H1 H2]. split; [exact H1|].
      intros q m' [[= <- <-]|Hin]; [|eapply H2, Hin].
      apply bool_decide_eq_false in E. intros Hk. apply E, H1, Hk.
Qed.

(** C2 (amended).  The reconciliation of [main] only adds keys: after
    any sequence of reconciliations the ledger holds every key it held
    at any earlier point; [--force] empties it.  The pass of
    [retry_skipped.py] over the ledger does the opposite: it only takes
    keys out, the key of every pair that has no folder on disk. *)
Theorem reconciliation_monotone :
  (forall fs output_dir pairs c remaining,
     c ⊆ fst (reconcile fs output_dir pairs c remaining))
  /\ (forall before after c,
        ledger_after before c ⊆ ledger_after (before ++ after) c)
  /\ (forall fs output_dir pairs pf c remaining pf',
        begin_downloads false fs output_dir pairs pf = (Ret (c, remaining), pf') ->
        exists c0, load_progress pf = Ret c0 /\ c0 ⊆ c)
  /\ (forall fs output_dir pairs pf c remaining pf',
        begin_downloads true fs output_dir pairs pf = (Ret (c, remaining), pf') ->
        c = ∅ /\ remaining = pairs)
  /\ (forall fs pairs output_dir pf c pf',
        retry_ledger fs pairs output_dir pf = (Ret (Some c), pf') ->
        exists c0, load_progress pf = Ret c0 /\ c ⊆ c0
          /\ forall p m, In (p, m) pairs ->
               folder_exists_for_pair fs p output_dir = false -> pair_key p ∉ c).
Proof.
  split; [apply reconcile_grows|].
  split; [intros; rewrite ledger_after_app; apply ledger_after_grows|].
  split; [|split].
  - intros fs output_dir pairs pf c remaining pf'. unfold begin_downloads.
    destruct (load_progress pf) as [c0|e] eqn:E; [|discriminate].
    pose proof (reconcile_grows fs output_dir pairs c0 []) as H.
    destruct (reconcile fs output_dir pairs c0 []) as [c1 r1]. cbn [fst] in H.
    destruct (size c0 <? size c1)%nat.
    + destruct (save_progress c1) as [[[]|e] pf1]; [|discriminate].
      intros [= <- <- <-]. eauto.
    + intros [= <- <- <-]. eauto.
  - intros fs output_dir pairs pf c remaining pf'. unfold begin_downloads.
    destruct (load_progress pf) as [c0|e]; [|discriminate].
    destruct (save_progress ∅) as [[[]|e] pf1]; [|discriminate].
    intros [= <- <- <-]. auto.
  - intros fs pairs output_dir pf c pf'. unfold retry_ledger.
    destruct (find_skipped_pairs fs pairs output_dir) as [|s skipped] eqn:Es; [discriminate|].
    destruct (load_progress pf) as [c0|e]; [|discriminate].
    destruct (clear_skipped_shrinks (s :: skipped) c0 O) as [H1 H2].
    destruct (clear_skipped (s :: skipped) c0 0) as [c1 n]. cbn [fst] in *.
    intros Heq. assert (Hc : c1 = c).
    { destruct (0 <? n)%nat; [destruct (save_progress c1) as [[[]|e] pf1]|];
        congruence. }
    subst c1. exists c0. split; [reflexivity|]. split; [exact H1|].
    intros p m Hin Hf. apply (H2 p m). rewrite <- Es. unfold find_skipped_pairs.
    apply filter_In. split; [exact Hin|]. cbn. rewrite Hf. reflexivity.
Qed.

(** The ledger lists [ABC]; its folder is not on disk; the retry tool
    takes the key out and saves the ledger without it. *)
Example reconciliation_monotone_witness :
  exists c0, load_progress abc_done = Ret c0 /\ (∅ : gset pykey) ⊆ c0
    /\ forall p m, In (p, m) [(abc_pdf, abc_mov)] ->
         folder_exists_for_pair ∅ p "out" = false -> pair_key p ∉ (∅ : gset pykey).
Proof.
  apply (proj2 (proj2 (proj2 (proj2 reconciliation_monotone)))
           ∅ [(abc_pdf, abc_mov)] "out" abc_done ∅
           (Document (JObj [("completed", JArr [])]))).
  vm_compute. reflexivity.
Defined.

(** C2, as stated, fails: the reconciliation of [retry_skipped.py]
    takes a key that is in the ledger out of it when the pair has no
    folder on disk. *)
Example retry_forgets_keys :
  load_progress abc_done = Ret {[KStr "DataSet_3/ABC"]}
  /\ retry_ledger ∅ [(abc_pdf, abc_mov)] "out" abc_done
     = (Ret (Some ∅), Document (JObj [("completed", JArr [])]))
  /\ ~ ({[KStr "DataSet_3/ABC"]} : gset pykey) ⊆ ∅.
Proof.
  split; [vm_compute; reflexivity|]. split; [vm_compute; reflexivity|].
  intros H. specialize (H (KStr "DataSet_3/ABC")). set_solver.
Qed.

(** ** Strings *)

Lemma append_cons c (a b : string) : String c a ++ b = String c (a ++ b).
Proof. reflexivity. Qed.

Lemma append_nil (b : string) : "" ++ b = b.
Proof. reflexivity. Qed.

Lemma prefix_cons c d (p s : string) :
  String.prefix (String c p) (String d s)
  = if ascii_dec c d then String.prefix p s else false.
Proof. reflexivity. Qed.

Lemma prefix_append (p x : string) : String.prefix p (p ++ x) = true.
Proof.
  induction p as [|c p IH]; [destruct x; reflexivity|].
  rewrite append_cons, prefix_cons.
  destruct (ascii_dec c c); [exact IH | contradiction].
Qed.

Lemma prefix_split (p s : string) :
  String.prefix p s = true -> s = p ++ PyStr.drop (String.length p) s.
Proof.
  revert s. induction p as [|c p IH]; intros s; [reflexivity|].
  destruct s as [|d s]; [discriminate|]. rewrite prefix_cons.
  destruct (ascii_dec c d) as [->|]; [|discriminate].
  intros H. rewrite append_cons. f_equal. apply IH, H.
Qed.

Lemma span_append p a b :
  PyStr.forallb p a = true -> stops p b -> PyStr.span p (a ++ b) = (a, b).
Proof.
  intros Ha Hb. induction a as [|c a IH].
  - rewrite append_nil. destruct b as [|c b]; [reflexivity|]. cbn in *. rewrite Hb. reflexivity.
  - rewrite append_cons. cbn in Ha |- *.
    apply andb_true_iff in Ha as [Hc Ha]. rewrite Hc, (IH Ha). reflexivity.
Qed.

Lemma span_spec p s a b :
  PyStr.span p s = (a, b) -> s = a ++ b /\ PyStr.forallb p a = true /\ stops p b.
Proof.
  revert a b. induction s as [|c s IH]; intros a b; cbn.
  - intros [= <- <-]. cbn. auto.
  - destruct (p c) eqn:Hc.
    + destruct (PyStr.span p s) as [a' b']. intros [= <- <-].
      destruct (IH a' b' eq_refl) as (-> & Ha & Hb). cbn. rewrite Hc. auto.
    + intros [= <- <-]. cbn. auto.
Qed.

Lemma append_assoc (a b c : string) : (a ++ b) ++ c = a ++ (b ++ c).
Proof.
  induction a as [|x a IH]; [reflexivity|]. rewrite !append_cons. f_equal. exact IH.
Qed.

(** *** Characters, pieces and positions *)

Lemma contains_cons c d s :
  PyStr.contains c (String d s) = if Ascii.eqb c d then true else PyStr.contains c s.
Proof. reflexivity. Qed.

Lemma split_cons sep c s :
  PyStr.split sep (String c s)
  = if Ascii.eqb c sep then EmptyString :: PyStr.split sep s
    else match PyStr.split sep s with
         | h :: t => String c h :: t
         | [] => [String c EmptyString]
         end.
Proof. reflexivity. Qed.

Lemma rfind_cons c d s :
  PyStr.rfind c (String d s)
  = let i := PyStr.rfind c s in
    if 0 <=? i then i + 1 else if Ascii.eqb c d then 0 else -1.
Proof. reflexivity. Qed.

Lemma has_non_dot_cons n c s :
  has_non_dot (S n) (String c s) = if Ascii.eqb c "." then has_non_dot n s else true.
Proof. reflexivity. Qed.

Lemma split_last_plain name :
  PyStr.contains "/" name = false -> PyStr.split "/" name = [name].
Proof.
  induction name as [|c name IH]; [reflexivity|].
  rewrite contains_cons, split_cons, (Ascii.eqb_sym c).
  destruct (Ascii.eqb "/" c); [discriminate|].
  intros H. rewrite (IH H). reflexivity.
Qed.

Lemma split_nonempty sep s : PyStr.split sep s <> [].
Proof.
  destruct s as [|c s]; [discriminate|]. rewrite split_cons.
  destruct (Ascii.eqb c sep); [discriminate|].
  destruct (PyStr.split sep s); discriminate.
Qed.

Lemma last_cons_nonempty {A} (x d : A) l : l <> [] -> List.last (x :: l) d = List.last l d.
Proof. destruct l; [contradiction | reflexivity]. Qed.

Lemma last_split_cons c s :
  List.last (PyStr.split "/" (String c s)) EmptyString
  = match PyStr.split "/" s with
    | [h] => if Ascii.eqb c "/" then h else String c h
    | l => List.last l EmptyString
    end.
Proof.
  rewrite split_cons. pose proof (split_nonempty "/" s) as Hne.
  destruct (PyStr.split "/" s) as [|h [|h' t]]; [contradiction | |].
  - destruct (Ascii.eqb c "/"); reflexivity.
  - destruct (Ascii.eqb c "/"); reflexivity.
Qed.

Lemma split_after_slash dir name :
  exists h t, PyStr.split "/" (dir ++ "/" ++ name) = h :: t /\ t <> [].
Proof.
  induction dir as [|c dir IH].
  - rewrite append_nil. change ("/" ++ name) with (String "/" name).
    rewrite split_cons. change (Ascii.eqb "/" "/") with true.
    exists EmptyString, (PyStr.split "/" name). split; [reflexivity | apply split_nonempty].
  - destruct IH as (h & t & E & Ht). rewrite append_cons, split_cons, E.
    destruct (Ascii.eqb c "/"); eexists _, _; split; try reflexivity; try assumption.
    discriminate.
Qed.

Lemma last_item_after_slash dir name :
  PyStr.contains "/" name = false ->
  PyStr.last_item (PyStr.split "/" (dir ++ "/" ++ name)) = name.
Proof.
  intros Hn. unfold PyStr.last_item. induction dir as [|c dir IH].
  - rewrite append_nil. change ("/" ++ name) with (String "/" name).
    rewrite last_split_cons, (split_last_plain _ Hn). reflexivity.
  - rewrite append_cons, last_split_cons.
    destruct (split_after_slash dir name) as (h & t & E & Ht).
    rewrite E in IH |- *. destruct t; [contradiction | exact IH].
Qed.

Lemma contains_append c a b :
  PyStr.contains c (a ++ b) = PyStr.contains c a || PyStr.contains c b.
Proof.
  induction a as [|d a IH]; [reflexivity|].
  rewrite append_cons, !contains_cons. destruct (Ascii.eqb c d); [reflexivity | exact IH].
Qed.

Lemma rfind_absent c s : PyStr.contains c s = false -> PyStr.rfind c s = -1.
Proof.
  induction s as [|d s IH]; [reflexivity|]. rewrite contains_cons, rfind_cons.
  destruct (Ascii.eqb c d); [discriminate|]. intros H. rewrite (IH H). reflexivity.
Qed.

Lemma rfind_last c a b :
  PyStr.contains c b = false ->
  PyStr.rfind c (a ++ String c b) = Z.of_nat (String.length a).
Proof.
  intros Hb. induction a as [|d a IH].
  - rewrite append_nil, rfind_cons, (rfind_absent _ _ Hb). cbn zeta.
    change (0 <=? -1) with false. cbv iota. rewrite Ascii.eqb_refl. reflexivity.
  - rewrite append_cons, rfind_cons, IH. cbn zeta.
    destruct (Z.leb_spec 0 (Z.of_nat (String.length a))); [|lia].
    change (String.length (String d a)) with (S (String.length a)). lia.
Qed.

Lemma take_append a b : PyStr.take (String.length a) (a ++ b) = a.
Proof.
  induction a as [|c a IH]; [destruct b; reflexivity|].
  rewrite append_cons. cbn [String.length PyStr.take]. f_equal. exact IH.
Qed.

Lemma drop_append a b : PyStr.drop (String.length a) (a ++ b) = b.
Proof.
  induction a as [|c a IH]; [reflexivity|].
  rewrite append_cons. cbn [String.length PyStr.drop]. exact IH.
Qed.

Lemma has_non_dot_append n a b :
  has_non_dot n a = true -> has_non_dot n (a ++ b) = true.
Proof.
  revert a. induction n as [|n IH]; intros a; [discriminate|].
  destruct a as [|c a]; [discriminate|]. rewrite append_cons, !has_non_dot_cons.
  destruct (Ascii.eqb c "."); [apply IH | reflexivity].
Qed.

(** A prefix with no [D] in it holds no marker. *)
Lemma first_marker_no_D pre s : PyStr.contains "D" pre = false -> first_marker pre s.
Proof.
  intros Hc pre1 pre2 m -> Hne (ws & rest & E & _).
  rewrite contains_append in Hc. apply orb_false_iff in Hc as [_ Hc].
  destruct pre2 as [|c pre2]; [contradiction|].
  change ("DataSet" ++ ws ++ m ++ rest) with (String "D" ("ataSet" ++ ws ++ m ++ rest)) in E.
  rewrite append_cons in E. injection E as -> _.
  rewrite contains_cons, Ascii.eqb_refl in Hc. discriminate.
Qed.

(** [os.path.splitext] of a plain name. *)
Lemma splitext_plain stem ext :
  plain_name stem ext -> splitext (stem ++ "." ++ ext) = (stem, "." ++ ext).
Proof.
  intros (Hs & He & Hd & Hn). unfold splitext.
  assert (Hsl : PyStr.contains "/" (stem ++ "." ++ ext) = false).
  { rewrite contains_append, Hs. exact He. }
  rewrite (rfind_absent _ _ Hsl).
  change (stem ++ "." ++ ext) with (stem ++ String "." ext).
  rewrite (rfind_last "." stem ext Hd).
  replace (Z.of_nat (String.length stem) - (-1 + 1)) with (Z.of_nat (String.length stem)) by lia.
  rewrite Nat2Z.id. change (Z.to_nat (-1 + 1)) with O. cbn [PyStr.drop].
  rewrite (has_non_dot_append _ _ _ Hn), take_append, drop_append.
  destruct (Z.gtb_spec (Z.of_nat (String.length stem)) (-1)); [reflexivity | lia].
Qed.

(** *** White space at the ends *)

Lemma by_length (P : string -> Prop) :
  (forall s, (forall t, (String.length t < String.length s)%nat -> P t) -> P s) ->
  forall s, P s.
Proof.
  intros H s. remember (String.length s) as n eqn:E. revert s E.
  induction n as [n IH] using lt_wf_ind. intros s ->. apply H.
  intros t Ht. apply (IH _ Ht). reflexivity.
Qed.

Lemma lstrip_space_cons c s1 :
  lstrip_space (String c s1)
  = if PyStr.is_space c then lstrip_space s1
    else
      match s1 with
      | EmptyString => String c s1
      | String d s2 =>
          if space2 c d then lstrip_space s2
          else
            match s2 with
            | EmptyString => String c s1
            | String e s3 => if space3 c d e then lstrip_space s3 else String c s1
            end
      end.
Proof. destruct s1 as [|d [|e s3]]; reflexivity. Qed.

Lemma rstrip_space_cons c s :
  rstrip_space (String c s)
  = if is_space_char (String c (rstrip_space s)) then EmptyString
    else String c (rstrip_space s).
Proof. reflexivity. Qed.

Lemma lstrip_space_suffix s : exists pre, s = pre ++ lstrip_space s.
Proof.
  induction s as [s IH] using by_length. destruct s as [|c s1]; [exists ""; reflexivity|].
  rewrite lstrip_space_cons. destruct (PyStr.is_space c).
  { destruct (IH s1) as [pre E]; [cbn; lia|].
    exists (String c pre). rewrite append_cons, <- E. reflexivity. }
  destruct s1 as [|d s2]; [exists ""; reflexivity|]. destruct (space2 c d).
  { destruct (IH s2) as [pre E]; [cbn; lia|].
    exists (String c (String d pre)). rewrite !append_cons, <- E. reflexivity. }
  destruct s2 as [|e s3]; [exists ""; reflexivity|]. destruct (space3 c d e).
  { destruct (IH s3) as [pre E]; [cbn; lia|].
    exists (String c (String d (String e pre))). rewrite !append_cons, <- E. reflexivity. }
  exists "". reflexivity.
Qed.

Lemma rstrip_space_prefix s : exists post, s = rstrip_space s ++ post.
Proof.
  induction s as [|c s [post IH]]; [exists ""; reflexivity|].
  rewrite rstrip_space_cons. destruct (is_space_char (String c (rstrip_space s))).
  - exists (String c s). reflexivity.
  - exists post. rewrite append_cons, <- IH. reflexivity.
Qed.

Lemma lstrip_space_stops s : starts_with_space (lstrip_space s) = false.
Proof.
  induction s as [s IH] using by_length. destruct s as [|c s1]; [reflexivity|].
  rewrite lstrip_space_cons. destruct (PyStr.is_space c) eqn:E1; [apply IH; cbn; lia|].
  destruct s1 as [|d s2]; [cbn [starts_with_space]; rewrite E1; reflexivity|].
  destruct (space2 c d) eqn:E2; [apply IH; cbn; lia|].
  destruct s2 as [|e s3]; [cbn [starts_with_space]; rewrite E1, E2; reflexivity|].
  destruct (space3 c d e) eqn:E3; [apply IH; cbn; lia|].
  cbn [starts_with_space]. rewrite E1, E2, E3. reflexivity.
Qed.

Lemma lstrip_space_id s : starts_with_space s = false -> lstrip_space s = s.
Proof.
  destruct s as [|c s1]; [reflexivity|]. cbn [starts_with_space]. rewrite lstrip_space_cons.
  destruct (PyStr.is_space c); [discriminate|]. cbn [orb].
  destruct s1 as [|d s2]; [reflexivity|]. destruct (space2 c d); [discriminate|]. cbn [orb].
  destruct s2 as [|e s3]; [reflexivity|]. intros ->. reflexivity.
Qed.

Lemma starts_with_space_append r post :
  starts_with_space r = true -> starts_with_space (r ++ post) = true.
Proof.
  destruct r as [|c r1]; [discriminate|]. rewrite append_cons. cbn [starts_with_space].
  destruct (PyStr.is_space c); [reflexivity|]. cbn [orb].
  destruct r1 as [|d r2]; [discriminate|]. rewrite append_cons.
  destruct (space2 c d); [reflexivity|]. cbn [orb].
  destruct r2 as [|e r3]; [discriminate|]. rewrite append_cons. auto.
Qed.

Lemma rstrip_space_idem s : rstrip_space (rstrip_space s) = rstrip_space s.
Proof.
  induction s as [|c s IH]; [reflexivity|]. rewrite rstrip_space_cons.
  destruct (is_space_char (String c (rstrip_space s))) eqn:E; [reflexivity|].
  rewrite rstrip_space_cons, IH, E. reflexivity.
Qed.

Lemma rstrip_space_stops s :
  starts_with_space s = false -> starts_with_space (rstrip_space s) = false.
Proof.
  intros H. destruct (rstrip_space_prefix s) as [post E].
  destruct (starts_with_space (rstrip_space s)) eqn:Hr; [|reflexivity].
  rewrite E, (starts_with_space_append _ post Hr) in H. discriminate.
Qed.

Lemma strip_idem s : strip (strip s) = strip s.
Proof.
  unfold strip. rewrite (lstrip_space_id (rstrip_space _)).
  - apply rstrip_space_idem.
  - apply rstrip_space_stops, lstrip_space_stops.
Qed.

Lemma contains_strip c s :
  PyStr.contains c s = false -> PyStr.contains c (strip s) = false.
Proof.
  intros H. unfold strip.
  destruct (lstrip_space_suffix s) as [pre E1].
  destruct (rstrip_space_prefix (lstrip_space s)) as [post E2].
  rewrite E1, E2, !contains_append in H.
  apply orb_false_iff in H as [_ H]. apply orb_false_iff in H as [H _]. exact H.
Qed.

Lemma code_is c n : PyStr.code c = n -> c = ascii_of_N n.
Proof. intros <-. symmetry. apply ascii_N_embedding. Qed.

Lemma space_codes (c : N) :
  PyText.isspace c = true ->
  In c [9; 10; 11; 12; 13; 28; 29; 30; 31; 32; 133; 160; 5760; 8192; 8193; 8194; 8195;
        8196; 8197; 8198; 8199; 8200; 8201; 8202; 8232; 8233; 8239; 8287; 12288]%N.
Proof.
  unfold PyText.isspace. rewrite !orb_true_iff, !andb_true_iff, !N.leb_le, !N.eqb_eq.
  intros H. cbn [In].
  assert (E : (c = 9 \/ c = 10 \/ c = 11 \/ c = 12 \/ c = 13 \/ c = 28 \/ c = 29 \/ c = 30
               \/ c = 31 \/ c = 32 \/ c = 133 \/ c = 160 \/ c = 5760 \/ c = 8192
               \/ c = 8193 \/ c = 8194 \/ c = 8195 \/ c = 8196 \/ c = 8197 \/ c = 8198
               \/ c = 8199 \/ c = 8200 \/ c = 8201 \/ c = 8202 \/ c = 8232 \/ c = 8233
               \/ c = 8239 \/ c = 8287 \/ c = 12288)%N) by lia.
  clear H. repeat (destruct E as [->|E]; [auto 40|]). subst c. auto 40.
Qed.

(** The bytes taken for white space are the UTF-8 bytes of the
    characters of [str.isspace], and of no other character. *)
Lemma space_bytes (s : string) :
  is_space_char s = true <-> exists c, PyText.isspace c = true /\ s = utf8_char c.
Proof.
  split.
  - destruct s as [|c [|d [|e [|x s]]]]; cbn [is_space_char]; try discriminate.
    + unfold PyStr.is_space, PyStr.in_range.
      rewrite !orb_true_iff, !andb_true_iff, !N.leb_le, !N.eqb_eq. intros H.
      exists (PyStr.code c). split.
      * unfold PyText.isspace.
        rewrite !orb_true_iff, !andb_true_iff, !N.leb_le, !N.eqb_eq. lia.
      * unfold utf8_char. destruct (N.ltb_spec (PyStr.code c) 128) as [_|Hge]; [|lia].
        unfold PyStr.code. rewrite ascii_N_embedding. reflexivity.
    + unfold space2. rewrite !andb_true_iff, !orb_true_iff, !N.eqb_eq.
      intros [Hc [Hd|Hd]]; rewrite (code_is _ _ Hc), (code_is _ _ Hd);
        [exists 133%N | exists 160%N]; split; reflexivity.
    + unfold space3, PyStr.in_range.
      rewrite !orb_true_iff, !andb_true_iff, !orb_true_iff, !andb_true_iff, !N.leb_le, !N.eqb_eq.
      intros [[[[[Hc Hd] He]|[[Hc Hd] He]]|[[Hc Hd] He]]|[[Hc Hd] He]];
        rewrite (code_is _ _ Hc), (code_is _ _ Hd).
      * rewrite (code_is _ _ He). exists 5760%N. split; reflexivity.
      * assert (E : (PyStr.code e = 128 \/ PyStr.code e = 129 \/ PyStr.code e = 130
                     \/ PyStr.code e = 131 \/ PyStr.code e = 132 \/ PyStr.code e = 133
                     \/ PyStr.code e = 134 \/ PyStr.code e = 135 \/ PyStr.code e = 136
                     \/ PyStr.code e = 137 \/ PyStr.code e = 138 \/ PyStr.code e = 168
                     \/ PyStr.code e = 169 \/ PyStr.code e = 175)%N) by lia.
        clear He.
        repeat (destruct E as [E|E];
                [rewrite (code_is _ _ E);
                 first [ exists 8192%N; split; reflexivity | exists 8193%N; split; reflexivity
                       | exists 8194%N; split; reflexivity | exists 8195%N; split; reflexivity
                       | exists 8196%N; split; reflexivity | exists 8197%N; split; reflexivity
                       | exists 8198%N; split; reflexivity | exists 8199%N; split; reflexivity
                       | exists 8200%N; split; reflexivity | exists 8201%N; split; reflexivity
                       | exists 8202%N; split; reflexivity | exists 8232%N; split; reflexivity
                       | exists 8233%N; split; reflexivity ] |]).
        rewrite (code_is _ _ E). exists 8239%N. split; reflexivity.
      * rewrite (code_is _ _ He). exists 8287%N. split; reflexivity.
      * rewrite (code_is _ _ He). exists 12288%N. split; reflexivity.
  - intros (c & Hc & ->). apply space_codes in Hc. cbn [In] in Hc.
    repeat (destruct Hc as [<-|Hc]; [reflexivity|]). contradiction.
Qed.

Example strip_example :
  strip (String "194" (String "160" (" a b" ++ String "009" (String "226" (String "128"
           (String "137" EmptyString)))))) = "a b"
  /\ strip (String "160" " ") = String "160" EmptyString.
Proof. vm_compute. auto. Qed.


(** *** Runs of white space and of digits *)

Ltac to_codes H :=
  unfold PyStr.is_space, PyStr.is_digit, space2, space3, decimal2, decimal3, decimal4,
    PyStr.in_range in H;
  rewrite ?orb_true_iff, ?andb_true_iff, ?orb_true_iff, ?andb_true_iff,
    ?N.leb_le, ?N.eqb_eq in H.

Lemma space_first c : PyStr.is_space c = true -> (PyStr.code c <= 32)%N.
Proof. intros H. to_codes H. lia. Qed.

Lemma space2_first c d : space2 c d = true -> PyStr.code c = 194%N.
Proof. intros H. to_codes H. lia. Qed.

Lemma space3_first c d e :
  space3 c d e = true -> (225 <= PyStr.code c <= 227)%N.
Proof. intros H. to_codes H. lia. Qed.

Lemma digit_first c : PyStr.is_digit c = true -> (48 <= PyStr.code c <= 57)%N.
Proof. intros H. to_codes H. lia. Qed.

Lemma decimal2_first c d : decimal2 c d = true -> (194 <= PyStr.code c <= 223)%N.
Proof. intros H. to_codes H. lia. Qed.

Lemma decimal3_first c d e : decimal3 c d e = true -> (224 <= PyStr.code c <= 239)%N.
Proof. intros H. to_codes H. lia. Qed.

Lemma decimal4_first c d e f : decimal4 c d e f = true -> (240 <= PyStr.code c <= 244)%N.
Proof. intros H. to_codes H. lia. Qed.

Lemma not_space c : (32 < PyStr.code c)%N -> PyStr.is_space c = false.
Proof.
  intros H. destruct (PyStr.is_space c) eqn:E; [|reflexivity].
  apply space_first in E. lia.
Qed.

Lemma not_space2 c d : PyStr.code c <> 194%N -> space2 c d = false.
Proof.
  intros H. destruct (space2 c d) eqn:E; [|reflexivity].
  apply space2_first in E. contradiction.
Qed.

Lemma not_space3 c d e :
  ((PyStr.code c < 225)%N \/ (227 < PyStr.code c)%N) -> space3 c d e = false.
Proof.
  intros H. destruct (space3 c d e) eqn:E; [|reflexivity].
  apply space3_first in E. lia.
Qed.

Lemma not_digit c :
  ((PyStr.code c < 48)%N \/ (57 < PyStr.code c)%N) -> PyStr.is_digit c = false.
Proof.
  intros H. destruct (PyStr.is_digit c) eqn:E; [|reflexivity].
  apply digit_first in E. lia.
Qed.

Lemma not_decimal2 c d :
  ((PyStr.code c < 194)%N \/ (223 < PyStr.code c)%N) -> decimal2 c d = false.
Proof.
  intros H. destruct (decimal2 c d) eqn:E; [|reflexivity].
  apply decimal2_first in E. lia.
Qed.

Lemma not_decimal3 c d e :
  ((PyStr.code c < 224)%N \/ (239 < PyStr.code c)%N) -> decimal3 c d e = false.
Proof.
  intros H. destruct (decimal3 c d e) eqn:E; [|reflexivity].
  apply decimal3_first in E. lia.
Qed.

Lemma not_decimal4 c d e f :
  ((PyStr.code c < 240)%N \/ (244 < PyStr.code c)%N) -> decimal4 c d e f = false.
Proof.
  intros H. destruct (decimal4 c d e f) eqn:E; [|reflexivity].
  apply decimal4_first in E. lia.
Qed.

(** No character is white space and a decimal digit. *)
Lemma space_not_decimal c : is_space_char c = true -> is_decimal_char c = false.
Proof.
  intros H. apply space_bytes in H as (cp & Hcp & ->). apply space_codes in Hcp.
  cbn [In] in Hcp.
  repeat (destruct Hcp as [<-|Hcp]; [vm_compute; reflexivity|]). contradiction.
Qed.

(** One white-space character at the start is stripped. *)
Lemma space_char_strip c t :
  is_space_char c = true -> lstrip_space (c ++ t) = lstrip_space t.
Proof.
  destruct c as [|b1 [|b2 [|b3 [|b4 c]]]]; cbn [is_space_char]; try discriminate; intros H.
  - rewrite append_cons, append_nil, lstrip_space_cons, H. reflexivity.
  - rewrite !append_cons, append_nil, lstrip_space_cons.
    pose proof (space2_first _ _ H) as H1.
    rewrite (not_space b1) by lia. rewrite H. reflexivity.
  - rewrite !append_cons, append_nil, lstrip_space_cons.
    pose proof (space3_first _ _ _ H) as H1.
    rewrite (not_space b1) by lia. rewrite (not_space2 b1 b2) by lia. rewrite H. reflexivity.
Qed.

Lemma lstrip_space_spaces ws t : spaces ws -> lstrip_space (ws ++ t) = lstrip_space t.
Proof.
  induction 1 as [|c s Hc Hs IH]; [reflexivity|].
  rewrite append_assoc, (space_char_strip _ _ Hc). exact IH.
Qed.

(** What [lstrip] takes away is a run of white space. *)
Lemma lstrip_space_run s : exists ws, spaces ws /\ s = ws ++ lstrip_space s.
Proof.
  induction s as [s IH] using by_length.
  destruct s as [|c s1]; [exists ""; split; [constructor | reflexivity]|].
  rewrite lstrip_space_cons. destruct (PyStr.is_space c) eqn:E1.
  { destruct (IH s1) as (ws & Hw & E); [cbn; lia|].
    exists (String c "" ++ ws). split; [apply spaces_cons; assumption|].
    rewrite append_assoc, <- E. reflexivity. }
  destruct s1 as [|d s2]; [exists ""; split; [constructor | reflexivity]|].
  destruct (space2 c d) eqn:E2.
  { destruct (IH s2) as (ws & Hw & E); [cbn; lia|].
    exists (String c (String d "") ++ ws). split; [apply spaces_cons; assumption|].
    rewrite append_assoc, <- E. reflexivity. }
  destruct s2 as [|e s3]; [exists ""; split; [constructor | reflexivity]|].
  destruct (space3 c d e) eqn:E3.
  { destruct (IH s3) as (ws & Hw & E); [cbn; lia|].
    exists (String c (String d (String e "")) ++ ws). split; [apply spaces_cons; assumption|].
    rewrite append_assoc, <- E. reflexivity. }
  exists "". split; [constructor | reflexivity].
Qed.

(** A decimal digit starts no white space. *)
Lemma decimal_char_not_space c t :
  is_decimal_char c = true -> starts_with_space (c ++ t) = false.
Proof.
  intros Hd.
  destruct (starts_with_space (c ++ t)) eqn:Hs; [exfalso|reflexivity].
  destruct c as [|b1 [|b2 [|b3 [|b4 [|b5 c]]]]]; cbn [is_decimal_char] in Hd;
    try discriminate; rewrite ?append_cons, ?append_nil in Hs; cbn [starts_with_space] in Hs.
  - pose proof (digit_first _ Hd) as H1.
    rewrite (not_space b1) in Hs by lia. cbn [orb] in Hs.
    destruct t as [|d t]; [discriminate|]. rewrite (not_space2 b1 d) in Hs by lia.
    cbn [orb] in Hs. destruct t as [|e t]; [discriminate|].
    rewrite (not_space3 b1 d e) in Hs by lia. discriminate.
  - pose proof (decimal2_first _ _ Hd) as H1.
    rewrite (not_space b1) in Hs by lia. cbn [orb] in Hs.
    destruct (space2 b1 b2) eqn:E2.
    { assert (H : is_decimal_char (String b1 (String b2 "")) = false)
        by (apply space_not_decimal; exact E2).
      cbn [is_decimal_char] in H. congruence. }
    cbn [orb] in Hs. destruct t as [|e t]; [discriminate|].
    rewrite (not_space3 b1 b2 e) in Hs by lia. discriminate.
  - pose proof (decimal3_first _ _ _ Hd) as H1.
    rewrite (not_space b1) in Hs by lia. rewrite (not_space2 b1 b2) in Hs by lia.
    cbn [orb] in Hs.
    assert (H : is_decimal_char (String b1 (String b2 (String b3 ""))) = false)
      by (apply space_not_decimal; exact Hs).
    cbn [is_decimal_char] in H. congruence.
  - pose proof (decimal4_first _ _ _ _ Hd) as H1.
    rewrite (not_space b1) in Hs by lia. rewrite (not_space2 b1 b2) in Hs by lia.
    rewrite (not_space3 b1 b2 b3) in Hs by lia. discriminate.
Qed.

Lemma span_decimal_cons b1 s1 :
  span_decimal (String b1 s1)
  = if PyStr.is_digit b1 then
      let '(digits, rest) := span_decimal s1 in (String b1 digits, rest)
    else
      match s1 with
      | EmptyString => (EmptyString, String b1 s1)
      | String b2 s2 =>
          if decimal2 b1 b2 then
            let '(digits, rest) := span_decimal s2 in (String b1 (String b2 digits), rest)
          else
            match s2 with
            | EmptyString => (EmptyString, String b1 s1)
            | String b3 s3 =>
                if decimal3 b1 b2 b3 then
                  let '(digits, rest) := span_decimal s3 in
                  (String b1 (String b2 (String b3 digits)), rest)
                else
                  match s3 with
                  | EmptyString => (EmptyString, String b1 s1)
                  | String b4 s4 =>
                      if decimal4 b1 b2 b3 b4 then
                        let '(digits, rest) := span_decimal s4 in
                        (String b1 (String b2 (String b3 (String b4 digits))), rest)
                      else (EmptyString, String b1 s1)
                  end
            end
      end.
Proof. destruct s1 as [|b2 [|b3 [|b4 s4]]]; reflexivity. Qed.

(** One decimal digit at the start belongs to the run. *)
Lemma span_decimal_char c t :
  is_decimal_char c = true ->
  span_decimal (c ++ t) = (c ++ fst (span_decimal t), snd (span_decimal t)).
Proof.
  destruct c as [|b1 [|b2 [|b3 [|b4 [|b5 c]]]]]; cbn [is_decimal_char];
    try discriminate; intros Hd; rewrite ?append_cons, ?append_nil, span_decimal_cons.
  - rewrite Hd. destruct (span_decimal t). reflexivity.
  - pose proof (decimal2_first _ _ Hd) as H1.
    rewrite (not_digit b1) by lia. rewrite Hd. destruct (span_decimal t). reflexivity.
  - pose proof (decimal3_first _ _ _ Hd) as H1.
    rewrite (not_digit b1) by lia. rewrite (not_decimal2 b1 b2) by lia.
    rewrite Hd. destruct (span_decimal t). reflexivity.
  - pose proof (decimal4_first _ _ _ _ Hd) as H1.
    rewrite (not_digit b1) by lia. rewrite (not_decimal2 b1 b2) by lia.
    rewrite (not_decimal3 b1 b2 b3) by lia.
    rewrite Hd. destruct (span_decimal t). reflexivity.
Qed.

Lemma span_decimal_stop s : no_decimal_ahead s -> span_decimal s = ("", s).
Proof.
  intros H. destruct s as [|b1 s1]; [reflexivity|]. rewrite span_decimal_cons.
  rewrite (H (String b1 "") s1 eq_refl : PyStr.is_digit b1 = false).
  destruct s1 as [|b2 s2]; [reflexivity|].
  rewrite (H (String b1 (String b2 "")) s2 eq_refl : decimal2 b1 b2 = false).
  destruct s2 as [|b3 s3]; [reflexivity|].
  rewrite (H (String b1 (String b2 (String b3 ""))) s3 eq_refl : decimal3 b1 b2 b3 = false).
  destruct s3 as [|b4 s4]; [reflexivity|].
  rewrite (H (String b1 (String b2 (String b3 (String b4 "")))) s4 eq_refl
           : decimal4 b1 b2 b3 b4 = false).
  reflexivity.
Qed.

Lemma span_decimal_run n rest :
  decimals n -> no_decimal_ahead rest -> span_decimal (n ++ rest) = (n, rest).
Proof.
  intros Hn Hr. induction Hn as [|c s Hc Hs IH]; [apply span_decimal_stop, Hr|].
  rewrite append_assoc, (span_decimal_char _ _ Hc), IH. reflexivity.
Qed.

Lemma span_decimal_spec s :
  s = fst (span_decimal s) ++ snd (span_decimal s)
  /\ decimals (fst (span_decimal s))
  /\ no_decimal_ahead (snd (span_decimal s)).
Proof.
  induction s as [s IH] using by_length.
  assert (Stop : forall t, no_decimal_ahead t ->
                   t = fst ("", t) ++ snd ("", t)
                   /\ decimals (fst ("", t)) /\ no_decimal_ahead (snd ("", t))).
  { intros t Ht. cbn [fst snd]. split; [reflexivity|]. split; [constructor | exact Ht]. }
  assert (Go : forall c t, is_decimal_char c = true ->
                 (String.length t < String.length (c ++ t))%nat ->
                 s = c ++ t ->
                 (c ++ t) = fst (c ++ fst (span_decimal t), snd (span_decimal t))
                            ++ snd (c ++ fst (span_decimal t), snd (span_decimal t))
                 /\ decimals (fst (c ++ fst (span_decimal t), snd (span_decimal t)))
                 /\ no_decimal_ahead (snd (c ++ fst (span_decimal t), snd (span_decimal t)))).
  { intros c t Hc Hl ->. destruct (IH t Hl) as (E & Hd & Hn). cbn [fst snd].
    split; [rewrite append_assoc, <- E; reflexivity|].
    split; [apply decimals_cons; assumption | exact Hn]. }
  destruct s as [|b1 s1].
  { apply Stop. intros c rest E. destruct c; [reflexivity | discriminate]. }
  destruct (PyStr.is_digit b1) eqn:E1.
  { change (String b1 s1) with (String b1 "" ++ s1).
    rewrite (span_decimal_char (String b1 "") s1 E1).
    apply (Go (String b1 "") s1 E1); [rewrite !append_cons, append_nil; cbn [String.length]; lia | reflexivity]. }
  destruct s1 as [|b2 s2].
  { rewrite span_decimal_cons, E1. apply Stop. intros c rest E.
    destruct c as [|x [|y c]]; [reflexivity | | destruct c; discriminate].
    injection E as <- _. exact E1. }
  destruct (decimal2 b1 b2) eqn:E2.
  { change (String b1 (String b2 s2)) with (String b1 (String b2 "") ++ s2).
    rewrite (span_decimal_char (String b1 (String b2 "")) s2 E2).
    apply (Go (String b1 (String b2 "")) s2 E2); [rewrite !append_cons, append_nil; cbn [String.length]; lia | reflexivity]. }
  destruct s2 as [|b3 s3].
  { rewrite span_decimal_cons, E1, E2. apply Stop. intros c rest E.
    destruct c as [|x [|y [|z c]]]; [reflexivity | | | destruct c; discriminate].
    - injection E as <- _. exact E1.
    - injection E as <- <- _. exact E2. }
  destruct (decimal3 b1 b2 b3) eqn:E3.
  { change (String b1 (String b2 (String b3 s3)))
      with (String b1 (String b2 (String b3 "")) ++ s3).
    rewrite (span_decimal_char (String b1 (String b2 (String b3 ""))) s3 E3).
    apply (Go (String b1 (String b2 (String b3 ""))) s3 E3); [rewrite !append_cons, append_nil; cbn [String.length]; lia | reflexivity]. }
  destruct s3 as [|b4 s4].
  { rewrite span_decimal_cons, E1, E2, E3. apply Stop. intros c rest E.
    destruct c as [|x [|y [|z [|u c]]]]; [reflexivity | | | | destruct c; discriminate].
    - injection E as <- _. exact E1.
    - injection E as <- <- _. exact E2.
    - injection E as <- <- <- _. exact E3. }
  destruct (decimal4 b1 b2 b3 b4) eqn:E4.
  { change (String b1 (String b2 (String b3 (String b4 s4))))
      with (String b1 (String b2 (String b3 (String b4 ""))) ++ s4).
    rewrite (span_decimal_char (String b1 (String b2 (String b3 (String b4 "")))) s4 E4).
    apply (Go (String b1 (String b2 (String b3 (String b4 "")))) s4 E4);
      [rewrite !append_cons, append_nil; cbn [String.length]; lia | reflexivity]. }
  rewrite span_decimal_cons, E1, E2, E3, E4. apply Stop. intros c rest E.
  destruct c as [|x [|y [|z [|u [|v c]]]]]; [reflexivity | | | | | reflexivity].
  - injection E as <- _. exact E1.
  - injection E as <- <- _. exact E2.
  - injection E as <- <- <- _. exact E3.
  - injection E as <- <- <- <- _. exact E4.
Qed.

(** A byte of a run of decimal digits is an ASCII digit or no ASCII
    byte at all. *)
Lemma decimals_bytes n c :
  decimals n -> (PyStr.code c < 48)%N -> PyStr.contains c n = false.
Proof.
  intros Hn Hc. induction Hn as [|d s Hd Hs IH]; [reflexivity|].
  rewrite contains_append, IH, orb_false_r.
  assert (Ne : forall b, (48 <= PyStr.code b)%N -> Ascii.eqb c b = false).
  { intros b Hb. apply Ascii.eqb_neq. intros ->. lia. }
  destruct d as [|b1 [|b2 [|b3 [|b4 [|b5 d]]]]]; cbn [is_decimal_char] in Hd;
    try discriminate; rewrite ?contains_cons; to_codes Hd;
    unfold second_ok, is_cont, PyStr.in_range in Hd.
  - rewrite Ne by lia. reflexivity.
  - to_codes Hd. rewrite !Ne by lia. reflexivity.
  - destruct Hd as [[[H1 H2] H3] _]. to_codes H3.
    assert (128 <= PyStr.code b2)%N.
    { repeat match type of H2 with
             | (if ?b then _ else _) = true => destruct b
             end; to_codes H2; lia. }
    rewrite !Ne by lia. reflexivity.
  - destruct Hd as [[[[H1 H2] H3] H4] _]. to_codes H3. to_codes H4.
    assert (128 <= PyStr.code b2)%N.
    { repeat match type of H2 with
             | (if ?b then _ else _) = true => destruct b
             end; to_codes H2; lia. }
    rewrite !Ne by lia. reflexivity.
Qed.

(** A string that starts with an ASCII character other than a digit
    starts with no decimal digit. *)
Lemma no_decimal_ahead_ascii b t :
  (PyStr.code b < 48)%N \/ (57 < PyStr.code b < 194)%N -> no_decimal_ahead (String b t).
Proof.
  intros Hb c rest E.
  destruct c as [|x [|y [|z [|u [|v c]]]]]; cbn [is_decimal_char]; try reflexivity;
    rewrite ?append_cons in E; injection E as <- _.
  - apply not_digit. lia.
  - apply not_decimal2. lia.
  - apply not_decimal3. lia.
  - apply not_decimal4. lia.
Qed.

Lemma no_decimal_ahead_nil : no_decimal_ahead "".
Proof. intros c rest E. destruct c; [reflexivity | discriminate]. Qed.

(** ** C7: identity resolution *)

Lemma match_here_marker s n : marker_at s n -> match_DataSet_here s = Some n.
Proof.
  intros (ws & rest & -> & Hws & Hn & Hne & Hr). unfold match_DataSet_here.
  unfold PyStr.startswith. rewrite prefix_append.
  change (PyStr.drop 7 ("DataSet" ++ ws ++ n ++ rest)) with (ws ++ n ++ rest).
  rewrite (lstrip_space_spaces ws _ Hws), lstrip_space_id.
  - rewrite (span_decimal_run n rest Hn Hr). destruct n; [contradiction | reflexivity].
  - destruct Hn as [|c s Hc Hs]; [contradiction|].
    rewrite append_assoc. apply decimal_char_not_space, Hc.
Qed.

Lemma marker_match_here s n : match_DataSet_here s = Some n -> marker_at s n.
Proof.
  unfold match_DataSet_here, PyStr.startswith.
  destruct (String.prefix "DataSet" s) eqn:Hp; [|discriminate].
  apply prefix_split in Hp. change (String.length "DataSet") with 7%nat in Hp.
  destruct (lstrip_space_run (PyStr.drop 7 s)) as (ws & Hws & E1).
  destruct (span_decimal_spec (lstrip_space (PyStr.drop 7 s))) as (E2 & Hds & Hr).
  destruct (span_decimal (lstrip_space (PyStr.drop 7 s))) as [ds rest]. cbn [fst snd] in *.
  destruct ds as [|c ds]; [discriminate|]. intros [= <-].
  exists ws, rest. rewrite <- E2, <- E1. repeat split; auto; discriminate.
Qed.

Lemma re_search_unfold s :
  re_search_DataSet s
  = match match_DataSet_here s with
    | Some d => Some d
    | None => match s with
              | EmptyString => None
              | String _ s' => re_search_DataSet s'
              end
    end.
Proof. destruct s; reflexivity. Qed.

Lemma re_search_first pre s n :
  marker_at s n -> first_marker pre s -> re_search_DataSet (pre ++ s) = Some n.
Proof.
  intros Hm. induction pre as [|c pre IH]; intros Hf.
  - rewrite append_nil, re_search_unfold, (match_here_marker _ _ Hm). reflexivity.
  - rewrite re_search_unfold.
    destruct (match_DataSet_here (String c pre ++ s)) as [m|] eqn:E.
    + exfalso. apply (Hf "" (String c pre) m); [reflexivity | discriminate |].
      apply marker_match_here, E.
    + rewrite append_cons. apply IH. intros pre1 pre2 m -> Hne.
      apply (Hf (String c pre1) pre2 m); auto.
Qed.

Lemma re_search_some pre s n :
  marker_at s n ->
  exists m, re_search_DataSet (pre ++ s) = Some m /\ m <> "" /\ decimals m.
Proof.
  intros Hm. induction pre as [|c pre IH].
  - exists n. rewrite append_nil, re_search_unfold, (match_here_marker _ _ Hm).
    destruct Hm as (ws & rest & _ & _ & Hn & Hne & _). auto.
  - rewrite re_search_unfold.
    destruct (match_DataSet_here (String c pre ++ s)) as [m|] eqn:E.
    + exists m. split; [reflexivity|].
      apply marker_match_here in E as (ws & rest & _ & _ & Hn & Hne & _). auto.
    + rewrite append_cons. exact IH.
Qed.

Lemma re_search_decimals s n : re_search_DataSet s = Some n -> n <> "" /\ decimals n.
Proof.
  induction s as [|c s IH]; rewrite re_search_unfold.
  - destruct (match_DataSet_here "") eqn:E; [|discriminate].
    intros [= <-]. apply marker_match_here in E as (ws & rest & _ & _ & Hn & Hne & _). auto.
  - destruct (match_DataSet_here (String c s)) eqn:E; [|exact IH].
    intros [= <-]. apply marker_match_here in E as (ws & rest & _ & _ & Hn & Hne & _). auto.
Qed.

(** C7.  [parse_url_info] is a function of the URL alone, and
    - it maps [https://host/DataSet 3/ABC.pdf] to [("DataSet_3", "ABC")]
      and [https://example.com/files/x.pdf] to [("example_com", "x")];
    - when the percent-decoded URL contains the dataset marker followed
      by a number (the word [DataSet], white space if any, decimal
      digits), the group is [DataSet_] and a number, the number of the
      first marker, and the item is the decoded file name (what follows
      the last slash) without its extension: for a plain name
      [stem.ext], the [stem]. *)
Theorem identity_resolution :
  parse_url_info "https://host/DataSet 3/ABC.pdf" = ("DataSet_3", "ABC")
  /\ parse_url_info "https://example.com/files/x.pdf" = ("example_com", "x")
  /\ (forall url pre s n,
        unquote url = pre ++ s -> marker_at s n ->
        exists m, m <> "" /\ decimals m
          /\ parse_url_info url
             = ("DataSet_" ++ m,
                fst (splitext (PyStr.last_item (PyStr.split "/" (unquote url))))))
  /\ (forall url pre s n,
        unquote url = pre ++ s -> marker_at s n -> first_marker pre s ->
        parse_url_info url
        = ("DataSet_" ++ n,
           fst (splitext (PyStr.last_item (PyStr.split "/" (unquote url))))))
  /\ (forall url pre s n dir stem ext,
        unquote url = pre ++ s -> marker_at s n -> first_marker pre s ->
        unquote url = dir ++ "/" ++ stem ++ "." ++ ext -> plain_name stem ext ->
        parse_url_info url = ("DataSet_" ++ n, stem)).
Proof.
  split; [reflexivity|]. split; [reflexivity|].
  assert (First : forall url pre s n,
            unquote url = pre ++ s -> marker_at s n -> first_marker pre s ->
            parse_url_info url
            = ("DataSet_" ++ n,
               fst (splitext (PyStr.last_item (PyStr.split "/" (unquote url)))))).
  { intros url pre s n E Hm Hf. unfold parse_url_info.
    rewrite E, (re_search_first pre s n Hm Hf). reflexivity. }
  split; [|split; [exact First|]].
  - intros url pre s n E Hm. destruct (re_search_some pre s n Hm) as (m & Hr & Hne & Hd).
    exists m. split; [exact Hne|]. split; [exact Hd|].
    unfold parse_url_info. rewrite E, Hr. reflexivity.
  - intros url pre s n dir stem ext E Hm Hf Ed Hp.
    rewrite (First url pre s n E Hm Hf). f_equal.
    assert (Hname : PyStr.contains "/" (stem ++ "." ++ ext) = false).
    { destruct Hp as (Hs & He & _ & _). rewrite contains_append, Hs. exact He. }
    rewrite Ed, (last_item_after_slash dir _ Hname), (splitext_plain _ _ Hp). reflexivity.
Qed.

Example identity_resolution_witness :
  parse_url_info "https://www.justice.gov/epstein/files/DataSet%2010/EFTA0001.v2.pdf"
  = ("DataSet_" ++ "10", "EFTA0001.v2").
Proof.
  apply (proj2 (proj2 (proj2 (proj2 identity_resolution)))
           "https://www.justice.gov/epstein/files/DataSet%2010/EFTA0001.v2.pdf"
           "https://www.justice.gov/epstein/files/" "DataSet 10/EFTA0001.v2.pdf" "10"
           "https://www.justice.gov/epstein/files/DataSet 10" "EFTA0001.v2" "pdf").
  - reflexivity.
  - exists " ", "/EFTA0001.v2.pdf". split; [reflexivity|].
    split; [apply (spaces_cons " " ""); [reflexivity | constructor]|].
    split; [apply (decimals_cons "1" "0"); [reflexivity|];
            apply (decimals_cons "0" ""); [reflexivity | constructor]|].
    split; [discriminate|]. apply no_decimal_ahead_ascii. left. vm_compute. reflexivity.
  - apply first_marker_no_D. reflexivity.
  - reflexivity.
  - repeat split; reflexivity.
Defined.

(** The classes of the pattern are those of [re] on a [str]: a
    no-break space (U+00A0, percent-encoded) is white space, so the
    first marker of this URL is [DataSet] with the number 5; and an
    Arabic-Indic digit (U+0663) is a digit. *)
Example identity_resolution_unicode :
  parse_url_info "https://host/DataSet%C2%A05/DataSet 3/ABC.pdf" = ("DataSet_5", "ABC")
  /\ parse_url_info "https://host/DataSet%20%D9%A3/ABC.pdf"
     = ("DataSet_" ++ String "217" (String "163" ""), "ABC").
Proof. vm_compute. auto. Qed.

(** A byte that is no UTF-8 becomes U+FFFD when the URL is decoded. *)
Example unquote_replaces :
  unquote "caf%E9" = "caf" ++ replacement
  /\ unquote "caf%C3%A9" = "caf" ++ String "195" (String "169" "").
Proof. vm_compute. auto. Qed.

(** ** C9: loading the progress ledger *)

(** A missing progress file and one that is not JSON give the empty
    ledger. *)
Lemma load_progress_tolerates :
  load_progress Missing = Ret ∅ /\ load_progress Garbled = Ret ∅.
Proof. split; reflexivity. Qed.

(** C9, at the failing input: the progress file holds [[]], valid JSON
    that is no object.  [json.load] returns a list, [data.get] raises
    [AttributeError], which [load_progress] does not catch.  The same
    happens for any document that is no object; a file that is no text
    raises [UnicodeDecodeError], and an object whose ["completed"] is a
    number raises [TypeError]. *)
Theorem load_progress_wrong_shape :
  load_progress (Document (JArr [])) = Raise AttributeError
  /\ (forall doc, (forall members, doc <> JObj members) ->
        load_progress (Document doc) = Raise AttributeError)
  /\ load_progress Misencoded = Raise UnicodeDecodeError
  /\ load_progress (Document (JObj [("completed", JNum 5)])) = Raise TypeError.
Proof.
  split; [reflexivity|]. split; [|split; reflexivity].
  intros [] H; try reflexivity. exfalso. eapply H. reflexivity.
Qed.

(** A damaged file can also load as a ledger that is not empty: the
    characters of a string. *)
Example load_progress_string :
  load_progress (Document (JObj [("completed", JStr "ab")]))
  = Ret {[KStr "a"; KStr "b"]}.
Proof. vm_compute. reflexivity. Qed.

(** ** C4: the order of the probes *)

(** [os.path.splitext] of a URL that ends in a plain file name. *)
Lemma splitext_url dir stem ext :
  plain_name stem ext ->
  splitext (dir ++ "/" ++ stem ++ "." ++ ext) = (dir ++ "/" ++ stem, "." ++ ext).
Proof.
  intros (Hs & He & Hd & Hn). unfold splitext.
  assert (Hsl : PyStr.contains "/" (stem ++ "." ++ ext) = false).
  { rewrite contains_append, Hs. exact He. }
  change (dir ++ "/" ++ stem ++ "." ++ ext) with (dir ++ String "/" (stem ++ "." ++ ext)).
  rewrite (rfind_last "/" dir _ Hsl).
  replace (dir ++ String "/" (stem ++ "." ++ ext))
    with ((dir ++ "/" ++ stem) ++ String "." ext)
    by (rewrite !append_assoc; reflexivity).
  rewrite (rfind_last "." (dir ++ "/" ++ stem) ext Hd).
  rewrite !Nat2Z.id, take_append, drop_append.
  assert (Hl : String.length (dir ++ "/" ++ stem)
               = (String.length dir + 1 + String.length stem)%nat).
  { rewrite !length_append. cbn [String.length]. lia. }
  rewrite Hl.
  replace (Z.to_nat (Z.of_nat (String.length dir + 1 + String.length stem)
                     - (Z.of_nat (String.length dir) + 1)))
    with (String.length stem) by lia.
  replace (Z.to_nat (Z.of_nat (String.length dir) + 1))
    with (String.length (dir ++ "/")) by (rewrite length_append; cbn [String.length]; lia).
  replace ((dir ++ "/" ++ stem) ++ String "." ext)
    with ((dir ++ "/") ++ stem ++ String "." ext)
    by (rewrite !append_assoc; reflexivity).
  rewrite drop_append, (has_non_dot_append _ _ _ Hn).
  destruct (Z.gtb_spec (Z.of_nat (String.length dir + 1 + String.length stem))
              (Z.of_nat (String.length dir))); [|lia].
  rewrite <- !append_assoc. reflexivity.
Qed.

(** For such a URL the cut at the last dot strips the extension. *)
Lemma base_url_plain dir stem ext :
  plain_name stem ext ->
  base_url (dir ++ "/" ++ stem ++ "." ++ ext) = spec_base (dir ++ "/" ++ stem ++ "." ++ ext).
Proof.
  intros Hp. unfold spec_base. rewrite (splitext_url dir stem ext Hp). cbn [fst].
  destruct Hp as (Hs & He & Hd & Hn). unfold base_url.
  replace (dir ++ "/" ++ stem ++ "." ++ ext) with ((dir ++ "/" ++ stem) ++ String "." ext)
    by (rewrite !append_assoc; reflexivity).
  rewrite contains_append, contains_cons, Ascii.eqb_refl, orb_true_r.
  rewrite (rfind_last "." _ ext Hd), Nat2Z.id. apply take_append.
Qed.

Lemma probe_rest_refines sess video_url folder file_id vexts exts w :
  base_url video_url = spec_base video_url ->
  ~ In (nth 0 vexts "") exts ->
  probe_extensions sess video_url folder file_id vexts exts w
  = spec_probe_rest sess video_url folder file_id exts w.
Proof.
  intros Hb. revert w. induction exts as [|ext rest IH]; intros w Hn; [reflexivity|].
  cbn [probe_extensions spec_probe_rest].
  destruct (String.eqb_spec ext (nth 0 vexts "")) as [->|Hne].
  { exfalso. apply Hn. left. reflexivity. }
  rewrite Hb, !run_bind. destruct (download_file _ _ _ w) as [[[]|e] w1]; try reflexivity.
  apply IH. intros Hin. apply Hn. right. exact Hin.
Qed.

(** The probing of [download_pair] is the probing the specification
    describes whenever the first extension of the list does not occur
    in it again and the companion URL ends in a file name with an
    extension, [stem.ext]. *)
Theorem probing_refines_spec (sess : session) (video_url folder file_id first : string)
    (rest : list string) (w : world) (dir stem ext : string) :
  ~ In first rest ->
  video_url = dir ++ "/" ++ stem ++ "." ++ ext ->
  plain_name stem ext ->
  probe_extensions sess video_url folder file_id (first :: rest) (first :: rest) w
  = spec_probe sess video_url folder file_id (first :: rest) w.
Proof.
  intros Hn -> Hp. cbn [probe_extensions spec_probe nth]. rewrite String.eqb_refl.
  rewrite !run_bind. destruct (download_file _ _ _ w) as [[[]|e] w1]; try reflexivity.
  apply probe_rest_refines; [apply base_url_plain, Hp | exact Hn].
Qed.

(** The list of the specification's example has no repeated entry. *)
Example probing_refines_spec_witness :
  probe_extensions (one_asset "https://x/y/item.mp4") "https://x/y/item.mov"
    "out/item" "item" ["mov"; "mp4"; "jpg"] ["mov"; "mp4"; "jpg"] blank
  = spec_probe (one_asset "https://x/y/item.mp4") "https://x/y/item.mov"
      "out/item" "item" ["mov"; "mp4"; "jpg"] blank.
Proof.
  apply (probing_refines_spec _ _ _ _ _ _ _ "https://x/y" "item" "mov").
  - intros [H|[H|[]]]; discriminate.
  - reflexivity.
  - repeat split; reflexivity.
Defined.

(** A companion URL whose file name has no extension: the code cuts it
    at its last dot, which is in the host name, where the specification
    has no extension to strip. *)
Example probing_cuts_at_last_dot :
  let code := probe_extensions nothing_there "https://example.com/video" "out/item" "item"
                ["mov"; "mp4"] ["mov"; "mp4"] blank in
  let spec := spec_probe nothing_there "https://example.com/video" "out/item" "item"
                ["mov"; "mp4"] blank in
  requests (snd code) = ["https://example.mp4"; "https://example.com/video"]
  /\ requests (snd spec) = ["https://example.com/video.mp4"; "https://example.com/video"].
Proof. vm_compute. auto. Qed.

(** The example of the specification: [.mov] is not there, [.mp4] is;
    the companion is saved as [item.mp4] and [.jpg] is never asked for
    (the log of requests has the latest first). *)
Example extension_priority :
  let run := probe_extensions (one_asset "https://x/y/item.mp4") "https://x/y/item.mov"
               "out/item" "item" ["mov"; "mp4"; "jpg"] ["mov"; "mp4"; "jpg"] blank in
  fst run = Ret (true, Some "out/item/item.mp4")
  /\ files (snd run) !! "out/item/item.mp4" = Some (File [x41; x42; x43])
  /\ requests (snd run) = ["https://x/y/item.mp4"; "https://x/y/item.mov"].
Proof. vm_compute. auto. Qed.

(** C4, at the failing input: the first extension occurs again later
    in the list.  The third probe should fetch [item.mov], the URL with
    its extension replaced; [download_pair] compares the extension with
    the first of the list and fetches the companion URL as given a
    second time.  (The log of requests has the latest first.) *)
Theorem repeated_first_extension :
  let code := probe_extensions nothing_there "https://x/y/item.avi" "out/item" "item"
                ["mov"; "mp4"; "mov"] ["mov"; "mp4"; "mov"] blank in
  let spec := spec_probe nothing_there "https://x/y/item.avi" "out/item" "item"
                ["mov"; "mp4"; "mov"] blank in
  requests (snd code)
  = ["https://x/y/item.avi"; "https://x/y/item.mp4"; "https://x/y/item.avi"]
  /\ requests (snd spec)
     = ["https://x/y/item.mov"; "https://x/y/item.mp4"; "https://x/y/item.avi"].
Proof. vm_compute. auto. Qed.

(** ** The ledger key and the folder *)

Lemma forallb_contains (p : ascii -> bool) c s :
  p c = false -> PyStr.forallb p s = true -> PyStr.contains c s = false.
Proof.
  intros Hc. induction s as [|d s IH]; [reflexivity|].
  cbn [PyStr.forallb]. rewrite contains_cons. intros H.
  apply andb_true_iff in H as [Hd Hs].
  destruct (Ascii.eqb_spec c d) as [->|]; [congruence | apply IH, Hs].
Qed.

Lemma contains_take c n s :
  PyStr.contains c s = false -> PyStr.contains c (PyStr.take n s) = false.
Proof.
  revert s. induction n as [|n IH]; intros s; [destruct s; reflexivity|].
  destruct s as [|d s]; [reflexivity|]. cbn [PyStr.take]. rewrite !contains_cons.
  destruct (Ascii.eqb c d); [discriminate | apply IH].
Qed.

Lemma contains_last_split s :
  PyStr.contains "/" (PyStr.last_item (PyStr.split "/" s)) = false.
Proof.
  unfold PyStr.last_item. induction s as [|c s IH]; [reflexivity|].
  rewrite last_split_cons. destruct (PyStr.split "/" s) as [|h [|h' t]]; try exact IH.
  cbn [List.last] in IH. destruct (Ascii.eqb c "/") eqn:E; [exact IH|].
  rewrite contains_cons, Ascii.eqb_sym, E. exact IH.
Qed.

Lemma contains_splitext c p :
  PyStr.contains c p = false -> PyStr.contains c (fst (splitext p)) = false.
Proof.
  intros H. unfold splitext.
  destruct (_ && _); cbn [fst]; [apply contains_take, H | exact H].
Qed.

Lemma replace_from_cons old new skip c s :
  PyStr.replace_from old new skip (String c s)
  = match skip with
    | S k => PyStr.replace_from old new k s
    | O =>
        if String.prefix old (String c s)
        then new ++ PyStr.replace_from old new (Nat.pred (String.length old)) s
        else String c (PyStr.replace_from old new O s)
    end.
Proof. reflexivity. Qed.

Lemma contains_replace c s old new :
  PyStr.contains c new = false -> PyStr.contains c s = false ->
  PyStr.contains c (PyStr.replace s old new) = false.
Proof.
  intros Hn. unfold PyStr.replace. generalize O as skip.
  induction s as [|d s IH]; intros skip; [reflexivity|].
  rewrite contains_cons, replace_from_cons.
  destruct (Ascii.eqb c d) eqn:E; [discriminate|]. intros Hs.
  destruct skip as [|k]; [|apply IH, Hs].
  destruct (String.prefix old (String d s)).
  - rewrite contains_append, Hn. apply IH, Hs.
  - rewrite contains_cons, E. apply IH, Hs.
Qed.

Lemma contains_netloc url : PyStr.contains "/" (netloc url) = false.
Proof.
  unfold netloc. destruct (PyStr.startswith _ "//"); [|reflexivity].
  match goal with |- context [PyStr.span ?p ?s] =>
    destruct (PyStr.span p s) as [a b] eqn:E;
    apply span_spec in E as (_ & Ha & _) end.
  cbn [fst]. eapply forallb_contains; [|exact Ha]. reflexivity.
Qed.

Lemma group_no_slash url : PyStr.contains "/" (fst (parse_url_info url)) = false.
Proof.
  unfold parse_url_info. destruct (re_search_DataSet (unquote url)) as [n|] eqn:E; cbn [fst].
  - rewrite contains_append. apply orb_false_iff. split; [reflexivity|].
    apply decimals_bytes; [apply (re_search_decimals _ _ E) | vm_compute; reflexivity].
  - apply contains_replace; [reflexivity|]. apply contains_replace; [reflexivity|].
    apply contains_netloc.
Qed.

Lemma file_id_no_slash url : PyStr.contains "/" (snd (parse_url_info url)) = false.
Proof.
  unfold parse_url_info. destruct (re_search_DataSet (unquote url)); cbn [snd].
  - apply contains_splitext, contains_last_split.
  - destruct (String.eqb _ ""); [reflexivity|].
    apply contains_splitext, contains_last_split.
Qed.

Lemma key_splits (g g' f f' : string) :
  PyStr.contains "/" g = false -> PyStr.contains "/" g' = false ->
  g ++ "/" ++ f = g' ++ "/" ++ f' -> g = g' /\ f = f'.
Proof.
  change ("/" ++ f) with (String "/" f). change ("/" ++ f') with (String "/" f').
  revert g'. induction g as [|c g IH]; intros [|c' g'].
  - rewrite !append_nil. intros _ _ [= ->]. auto.
  - rewrite append_nil, append_cons, contains_cons. intros _ H [= <- _].
    rewrite Ascii.eqb_refl in H. discriminate.
  - rewrite append_nil, append_cons, contains_cons. intros H _ [= -> _].
    rewrite Ascii.eqb_refl in H. discriminate.
  - rewrite !append_cons, !contains_cons.
    destruct (Ascii.eqb "/" c); [discriminate|]. destruct (Ascii.eqb "/" c'); [discriminate|].
    intros Hg Hg' [= -> E]. destruct (IH g' Hg Hg' E) as [-> ->]. auto.
Qed.

Lemma pair_key_inj p q : pair_key p = pair_key q -> parse_url_info p = parse_url_info q.
Proof.
  unfold pair_key. intros [= E].
  apply key_splits in E as [E1 E2]; try apply group_no_slash.
  destruct (parse_url_info p), (parse_url_info q). cbn in *. congruence.
Qed.

(** The group and the file id of a URL hold no slash: the folder of an
    item is an entry of its group directory, which is an entry of the
    output directory.  So the key [group/file_id] tells the two apart:
    URLs with one key have one folder. *)
Theorem key_names_the_folder :
  (forall url, PyStr.contains "/" (group_of url) = false
               /\ PyStr.contains "/" (file_id_of url) = false)
  /\ (forall p q, pair_key p = pair_key q ->
        parse_url_info p = parse_url_info q
        /\ forall fs output_dir,
             folder_exists_for_pair fs p output_dir = folder_exists_for_pair fs q output_dir).
Proof.
  split.
  - intros url. split; [apply group_no_slash | apply file_id_no_slash].
  - intros p q E. apply pair_key_inj in E. split; [exact E|].
    intros fs output_dir. unfold folder_exists_for_pair. rewrite E. reflexivity.
Qed.

(** ** Saving and loading the ledger *)

Lemma mapM_key_string (l : list pykey) :
  Forall (fun k => exists str, k = KStr str) l ->
  exists strs, mapM key_string l = Some strs /\ KStr <$> strs = l.
Proof.
  induction 1 as [|k l [str ->] _ (strs & E & <-)].
  - exists []. auto.
  - exists (str :: strs). cbn. rewrite E. auto.
Qed.

Lemma mapM_fails {A B} (f : A -> option B) (l : list A) x :
  x ∈ l -> f x = None -> mapM f l = None.
Proof.
  intros Hx Hf. induction Hx as [x l|x y l _ IH]; cbn.
  - rewrite Hf. reflexivity.
  - destruct (f y); [|reflexivity]. cbn. rewrite (IH Hf). reflexivity.
Qed.

Lemma set_of_strings (l : list string) :
  set_of_items (JStr <$> l) = Ret (list_to_set (KStr <$> l)).
Proof. induction l as [|s l IH]; [reflexivity|]. cbn. rewrite IH. reflexivity. Qed.

Lemma save_progress_strings (s : gset pykey) :
  string_keys s ->
  exists pf, save_progress s = (Ret tt, pf) /\ load_progress pf = Ret s.
Proof.
  intros Hs.
  destruct (mapM_key_string (elements s)) as (strs & E & Hl).
  { apply Forall_forall. intros k Hk. apply Hs, elem_of_elements, Hk. }
  unfold save_progress, sorted. rewrite E. eexists. split; [reflexivity|].
  cbn [load_progress dict_get]. rewrite String.eqb_refl. cbn [py_set].
  rewrite set_of_strings. f_equal. apply set_eq. intros k.
  rewrite elem_of_list_to_set, merge_sort_Permutation, Hl. apply elem_of_elements.
Qed.

(** What [save_progress] writes, [load_progress] reads back: for a
    ledger of strings the save succeeds and the saved file loads as the
    same ledger. *)
Theorem saved_ledger_loads (s : gset pykey) :
  string_keys s ->
  exists pf, save_progress s = (Ret tt, pf) /\ load_progress pf = Ret s.
Proof. apply save_progress_strings. Qed.

Example saved_ledger_loads_witness :
  exists pf, save_progress {[KStr "b/2"; KStr "a/1"]} = (Ret tt, pf)
             /\ load_progress pf = Ret {[KStr "b/2"; KStr "a/1"]}.
Proof.
  apply (saved_ledger_loads {[KStr "b/2"; KStr "a/1"]}).
  intros k Hk. apply elem_of_union in Hk as [Hk|Hk];
    apply elem_of_singleton in Hk; subst; eexists; reflexivity.
Defined.

(** The keys are written in order. *)
Example saved_ledger_sorted :
  snd (save_progress {[KStr "b/2"; KStr "a/1"]})
  = Document (JObj [("completed", JArr [JStr "a/1"; JStr "b/2"])]).
Proof. vm_compute. reflexivity. Qed.

(** A ledger that holds a string and a number cannot be sorted:
    [save_progress] raises [TypeError] after it has emptied the
    progress file, and the next load finds no ledger. *)
Theorem mixed_ledger_is_lost (s : gset pykey) (str : string) (n : Z) :
  KStr str ∈ s -> KInt n ∈ s ->
  save_progress s = (Raise TypeError, Garbled)
  /\ load_progress (snd (save_progress s)) = Ret ∅.
Proof.
  intros Hs Hn.
  assert (E : sorted s = Raise TypeError).
  { unfold sorted.
    rewrite (mapM_fails key_string (elements s) (KInt n)), (mapM_fails key_int (elements s) (KStr str));
      try reflexivity; try (apply elem_of_elements; assumption).
    apply elem_of_elements in Hs, Hn.
    destruct (elements s) as [|k [|k' l]]; [reflexivity | | destruct k; reflexivity].
    apply list_elem_of_singleton in Hs. subst k. reflexivity. }
  unfold save_progress. rewrite E. split; reflexivity.
Qed.

(** A progress file edited by hand loads, and is lost at the first save. *)
Example mixed_ledger_is_lost_witness :
  let pf := Document (JObj [("completed", JArr [JStr "a/1"; JNum 7])]) in
  load_progress pf = Ret {[KStr "a/1"; KInt 7]}
  /\ save_progress {[KStr "a/1"; KInt 7]} = (Raise TypeError, Garbled)
  /\ load_progress (snd (save_progress {[KStr "a/1"; KInt 7]})) = Ret ∅.
Proof.
  split.
  - vm_compute. reflexivity.
  - apply (mixed_ledger_is_lost {[KStr "a/1"; KInt 7]} "a/1" 7).
    + apply elem_of_union_l, elem_of_singleton. reflexivity.
    + apply elem_of_union_r, elem_of_singleton. reflexivity.
Defined.

(** ** What is left to download *)

Lemma reconcile_closed fs output_dir pairs (loaded cur : gset pykey) remaining :
  loaded ⊆ cur ->
  (forall k, k ∈ cur ->
     k ∈ loaded \/ forall p, pair_key p = k -> folder_exists_for_pair fs p output_dir = true) ->
  reconcile fs output_dir pairs cur remaining
  = (cur ∪ keys_on_disk fs output_dir pairs,
     (remaining ++ to_download fs output_dir loaded pairs)%list).
Proof.
  revert cur remaining. induction pairs as [|[p m] rest IH]; intros cur remaining Hsub Hinv.
  - cbn. rewrite app_nil_r. f_equal. symmetry. apply (right_id_L ∅ (∪)).
  - cbn [reconcile]. unfold to_download, keys_on_disk. cbn [List.filter fst].
    fold (to_download fs output_dir loaded rest).
    destruct (bool_decide (pair_key p ∈ cur)) eqn:Ecur.
    + apply bool_decide_eq_true in Ecur. rewrite (IH cur remaining Hsub Hinv).
      assert (Hskip : negb (bool_decide (pair_key p ∈ loaded))
                      && negb (folder_exists_for_pair fs p output_dir) = false).
      { destruct (Hinv _ Ecur) as [H|H].
        - apply (bool_decide_eq_true_2 _) in H. rewrite H. reflexivity.
        - rewrite (H p eq_refl). apply andb_false_r. }
      rewrite Hskip. f_equal.
      destruct (folder_exists_for_pair fs p output_dir); [|reflexivity].
      cbn [map list_to_set fst]. fold (keys_on_disk fs output_dir rest).
      apply set_eq. intros k. rewrite !elem_of_union, elem_of_singleton.
      split; [tauto|]. intros [H|[->|H]]; auto.
    + apply bool_decide_eq_false in Ecur.
      assert (Hl : bool_decide (pair_key p ∈ loaded) = false).
      { apply bool_decide_eq_false. intros H. apply Ecur, Hsub, H. }
      rewrite Hl. cbn [negb andb].
      destruct (folder_exists_for_pair fs p output_dir) eqn:Ef; cbn [negb].
      * rewrite (IH ({[pair_key p]} ∪ cur) remaining).
        -- cbn [map list_to_set fst]. fold (keys_on_disk fs output_dir rest).
           f_equal. apply set_eq. intros k. rewrite !elem_of_union, elem_of_singleton. tauto.
        -- intros k Hk. apply elem_of_union_r, Hsub, Hk.
        -- intros k Hk. apply elem_of_union in Hk as [Hk|Hk]; [|apply Hinv, Hk].
           apply elem_of_singleton in Hk. subst k. right. intros q Hq.
           unfold folder_exists_for_pair in Ef |- *.
           rewrite (pair_key_inj _ _ Hq). exact Ef.
      * rewrite (IH cur (remaining ++ [(p, m)])%list Hsub Hinv).
        rewrite <- app_assoc. reflexivity.
Qed.

(** The loop of [main] that skips what is done, in closed form: the
    pairs left to download are, in the order of the sheet, those whose
    key is not in the loaded ledger and whose folder is not on disk;
    the ledger gains the keys of the pairs whose folder is on disk. *)
Theorem remaining_pairs fs output_dir pairs (loaded : gset pykey) :
  reconcile fs output_dir pairs loaded []
  = (loaded ∪ keys_on_disk fs output_dir pairs, to_download fs output_dir loaded pairs).
Proof.
  rewrite (reconcile_closed fs output_dir pairs loaded loaded []); auto.
Qed.

(** ** The download phase *)

Lemma collect_spec result t :
  completed (collect result t)
  = completed t ∪ list_to_set (omap key_of_result [result])
  /\ succeeded (collect result t)
     = (succeeded t + length (List.filter reports_asset [result]))%nat
  /\ failed (collect result t)
     = (failed t + length (List.filter (fun r => negb (reports_asset r)) [result]))%nat.
Proof.
  destruct result as [[[[pdf_ok vid_ok] group] file_id]|e]; cbn.
  - destruct (pdf_ok || vid_ok); cbn; (split; [|lia]).
    + rewrite (right_id_L ∅ (∪)). apply (comm_L (∪)).
    + symmetry. apply (right_id_L ∅ (∪)).
  - split; [|lia]. symmetry. apply (right_id_L ∅ (∪)).
Qed.

Lemma collect_string_keys result t :
  string_keys (completed t) -> string_keys (completed (collect result t)).
Proof.
  intros Ht k. rewrite (proj1 (collect_spec result t)), elem_of_union.
  intros [Hk|Hk]; [apply Ht, Hk|].
  destruct result as [[[[pdf_ok vid_ok] group] file_id]|e]; cbn in Hk.
  - destruct (pdf_ok || vid_ok); cbn in Hk.
    + apply elem_of_union in Hk as [Hk|Hk]; [|apply elem_of_empty in Hk as []].
      apply elem_of_singleton in Hk. eauto.
    + apply elem_of_empty in Hk as [].
  - apply elem_of_empty in Hk as [].
Qed.

Lemma collect_all_spec results i t pf :
  string_keys (completed t) ->
  exists t' pf',
    collect_all results i t pf = (Ret t', pf')
    /\ completed t' = completed t ∪ list_to_set (omap key_of_result results)
    /\ succeeded t' = (succeeded t + length (List.filter reports_asset results))%nat
    /\ failed t'
       = (failed t + length (List.filter (fun r => negb (reports_asset r)) results))%nat.
Proof.
  revert i t pf. induction results as [|result rest IH]; intros i t pf Ht.
  - exists t, pf. split; [reflexivity|]. split; [|cbn; lia].
    symmetry. apply (right_id_L ∅ (∪)).
  - cbn [collect_all].
    pose proof (collect_string_keys result t Ht) as Ht1.
    destruct (collect_spec result t) as (Hc & Hs & Hf).
    assert (Hgoal : forall pf1, exists t' pf',
               collect_all rest (S i) (collect result t) pf1 = (Ret t', pf')
               /\ completed t' = completed t ∪ list_to_set (omap key_of_result (result :: rest))
               /\ succeeded t'
                  = (succeeded t + length (List.filter reports_asset (result :: rest)))%nat
               /\ failed t'
                  = (failed t + length (List.filter (fun r => negb (reports_asset r))
                                          (result :: rest)))%nat).
    { intros pf1.
      destruct (IH (S i) (collect result t) pf1 Ht1) as (t' & pf' & E & Hc' & Hs' & Hf').
      exists t', pf'. split; [exact E|]. split.
      - rewrite Hc', Hc. apply set_eq. intros k.
        change (result :: rest) with ([result] ++ rest)%list.
        rewrite omap_app, list_to_set_app, !elem_of_union. tauto.
      - change (result :: rest) with ([result] ++ rest)%list.
        rewrite !List.filter_app, !length_app. lia. }
    destruct (i mod save_every =? 0)%nat; [|apply Hgoal].
    destruct (save_progress_strings _ Ht1) as (pf1 & -> & _). apply Hgoal.
Qed.

Lemma filter_split {A} (p : A -> bool) (l : list A) :
  (length (List.filter p l) + length (List.filter (fun x => negb (p x)) l) = length l)%nat.
Proof.
  induction l as [|x l IH]; [reflexivity|]. cbn [List.filter].
  destruct (p x); cbn [negb length]; lia.
Qed.

(** The download phase of [main], for a loaded ledger of strings and at
    least one pair to download: it ends without raising; the results
    counted as succeeded are those that report a primary file or a
    companion, the results counted as failed are all the others, an
    exception among them, so that every result is counted once; the
    ledger gains the keys of the results counted as succeeded, and loses
    none; and the progress file left behind loads as that ledger. *)
Theorem download_phase_accounts results (loaded : gset pykey) pf :
  string_keys loaded -> results <> [] ->
  exists t pf',
    download_phase results loaded pf = (Ret t, pf')
    /\ succeeded t = length (List.filter reports_asset results)
    /\ failed t = length (List.filter (fun r => negb (reports_asset r)) results)
    /\ (succeeded t + failed t = length results)%nat
    /\ completed t = loaded ∪ list_to_set (omap key_of_result results)
    /\ load_progress pf' = Ret (completed t).
Proof.
  intros Hl Hne. unfold download_phase.
  destruct (collect_all_spec results 1 (Tally loaded 0 0) pf Hl)
    as (t & pf1 & E & Hc & Hs & Hf).
  assert (Ht : string_keys (completed t)).
  { intros k. rewrite Hc, elem_of_union. intros [Hk|Hk]; [apply Hl, Hk|].
    apply elem_of_list_to_set, list_elem_of_omap in Hk as (result & _ & Hk).
    destruct result as [[[[pdf_ok vid_ok] group] file_id]|e]; [|discriminate].
    cbn in Hk. destruct (pdf_ok || vid_ok); [|discriminate].
    injection Hk as <-. eauto. }
  destruct (save_progress_strings _ Ht) as (pf2 & Es & El).
  destruct results as [|r rest]; [contradiction|].
  rewrite E, Es. exists t, pf2. cbn [succeeded failed] in Hs, Hf.
  split; [reflexivity|]. split; [exact Hs|]. split; [exact Hf|].
  split; [rewrite Hs, Hf; apply filter_split|]. auto.
Qed.

(** One pair is fetched, one raises, one finds nothing: one is counted
    as succeeded and two as failed. *)
Example download_phase_accounts_witness :
  let results := [Ret (true, true, "DataSet_3", "ABC"); Raise FileNotFoundError;
                  Ret (false, false, "DataSet_3", "DEF")] in
  exists t pf',
    download_phase results ∅ Missing = (Ret t, pf')
    /\ succeeded t = 1%nat
    /\ failed t = 2%nat
    /\ (succeeded t + failed t = 3)%nat
    /\ completed t = ∅ ∪ list_to_set (omap key_of_result results)
    /\ load_progress pf' = Ret (completed t).
Proof.
  apply (download_phase_accounts
           [Ret (true, true, "DataSet_3", "ABC"); Raise FileNotFoundError;
            Ret (false, false, "DataSet_3", "DEF")] ∅ Missing).
  - intros k Hk. apply elem_of_empty in Hk as [].
  - discriminate.
Defined.

(** With nothing to download the progress file is not written. *)
Example download_phase_idle (loaded : gset pykey) pf :
  download_phase [] loaded pf = (Ret (Tally loaded 0 0), pf).
Proof. reflexivity. Qed.

(** ** A pair that is done is found on disk *)

Lemma ends_with_slash_cons c s :
  ends_with_slash (String c s)
  = match s with EmptyString => is_slash c | _ => ends_with_slash s end.
Proof. destruct s; reflexivity. Qed.

Lemma ends_with_slash_append a b :
  b <> "" -> ends_with_slash (a ++ b) = ends_with_slash b.
Proof.
  intros Hb. induction a as [|c a IH]; [reflexivity|].
  rewrite append_cons, ends_with_slash_cons.
  destruct (a ++ b) eqn:E; [|exact IH].
  destruct a; [rewrite append_nil in E; contradiction | discriminate].
Qed.

Lemma no_slash_end s : PyStr.contains "/" s = false -> ends_with_slash s = false.
Proof.
  induction s as [|c s IH]; [reflexivity|]. rewrite contains_cons, ends_with_slash_cons.
  unfold is_slash. rewrite (Ascii.eqb_sym c).
  destruct (Ascii.eqb "/" c); [discriminate|]. destruct s; [reflexivity | exact IH].
Qed.

Lemma no_slash_start s : PyStr.contains "/" s = false -> PyStr.startswith s "/" = false.
Proof.
  destruct s as [|c s]; [reflexivity|]. rewrite contains_cons. unfold PyStr.startswith.
  rewrite prefix_cons. destruct (Ascii.eqb_spec "/" c) as [->|H]; [discriminate|].
  destruct (ascii_dec "/" c); [contradiction | reflexivity].
Qed.

(** An entry of a directory is joined to it by the prefix of the
    directory. *)
Lemma join_entry d e :
  PyStr.contains "/" e = false -> join d e = dir_prefix d ++ e.
Proof.
  intros He. unfold join, dir_prefix. rewrite (no_slash_start _ He).
  destruct (String.eqb d "" || ends_with_slash d); [reflexivity|].
  symmetry. apply append_assoc.
Qed.

Lemma child_name_entry d e :
  e <> "" -> e <> "." -> e <> ".." -> PyStr.contains "/" e = false ->
  child_name d (dir_prefix d ++ e) = Some e.
Proof.
  intros Hne Hd Hdd He. unfold child_name, PyStr.startswith.
  rewrite prefix_append, drop_append, He.
  destruct (String.eqb_spec e ""); [contradiction|].
  destruct (String.eqb_spec e "."); [contradiction|].
  destruct (String.eqb_spec e ".."); [contradiction | reflexivity].
Qed.

Lemma child_name_inv d k e :
  child_name d k = Some e ->
  k = dir_prefix d ++ e
  /\ (e <> "" /\ e <> "." /\ e <> "..") /\ PyStr.contains "/" e = false.
Proof.
  unfold child_name, PyStr.startswith.
  destruct (String.prefix (dir_prefix d) k) eqn:Hp; [|discriminate].
  apply prefix_split in Hp.
  destruct (String.eqb_spec (PyStr.drop (String.length (dir_prefix d)) k) "") as [|Hne];
    [discriminate|].
  destruct (PyStr.contains "/" _) eqn:Hc; [discriminate|].
  destruct (String.eqb_spec (PyStr.drop (String.length (dir_prefix d)) k) ".") as [|Hd];
    [discriminate|].
  destruct (String.eqb_spec (PyStr.drop (String.length (dir_prefix d)) k) "..") as [|Hdd];
    [discriminate|].
  intros [= <-]. auto.
Qed.

Lemma entries_elem (fs : gmap string node) d k e n :
  fs !! k = Some n -> child_name d k = Some e -> In e (entries fs d).
Proof.
  intros Hk He. apply list_elem_of_In, list_elem_of_omap. exists k. split; [|exact He].
  unfold keys. apply list_elem_of_fmap. exists (k, n). split; [reflexivity|].
  apply elem_of_map_to_list, Hk.
Qed.

Lemma entries_inv (fs : gmap string node) d e :
  In e (entries fs d) ->
  is_Some (fs !! (dir_prefix d ++ e))
  /\ (e <> "" /\ e <> "." /\ e <> "..") /\ PyStr.contains "/" e = false.
Proof.
  intros H. apply list_elem_of_In, list_elem_of_omap in H as (k & Hk & He).
  apply child_name_inv in He as (-> & Hne & Hc). split; [|auto].
  unfold keys in Hk. apply list_elem_of_fmap in Hk as ([k n] & -> & Hk).
  apply elem_of_map_to_list in Hk. cbn. eauto.
Qed.

(** A folder that is a directory and an entry of its group directory,
    under a name that matches the file id, is found. *)
Lemma folder_is_found (fs : gmap string node) pdf_url base_dir entry sz l :
  fs !! group_dir_of pdf_url base_dir = Some (Dir sz l) ->
  is_Some (fs !! (dir_prefix (group_dir_of pdf_url base_dir) ++ entry)) ->
  (entry <> "" /\ entry <> "." /\ entry <> "..") -> PyStr.contains "/" entry = false ->
  entry_matches (file_id_of pdf_url) entry = true ->
  folder_exists_for_pair fs pdf_url base_dir = true.
Proof.
  unfold group_dir_of, group_of, file_id_of, folder_exists_for_pair.
  destruct (parse_url_info pdf_url) as [g f]. cbn [fst snd].
  intros -> [n Hn] (Hne & Hd & Hdd) Hc Hm. destruct l; [|reflexivity].
  apply existsb_exists. exists entry. split; [|exact Hm].
  eapply entries_elem; [exact Hn | apply child_name_entry; assumption].
Qed.

Lemma find_folder_spec group_dir file_id w found :
  find_folder group_dir file_id w = (Ret (Some found), w) ->
  exists sz entry,
    files w !! group_dir = Some (Dir sz true)
    /\ In entry (entries (files w) group_dir)
    /\ entry_matches file_id entry = true
    /\ found = join group_dir entry.
Proof.
  unfold find_folder. rewrite run_bind, run_path_isdir. unfold is_dir.
  destruct (files w !! group_dir) as [[|sz l]|] eqn:E; try discriminate.
  rewrite run_bind. unfold try_listdir, listdir. rewrite run_bind, run_get_files, E.
  destruct l; [|discriminate]. rewrite run_ret.
  destruct (List.find (entry_matches file_id) (entries (files w) group_dir)) as [entry|] eqn:Hf;
    [|discriminate].
  intros [= <-]. apply find_some in Hf as [Hi Hm]. exists sz, entry. auto.
Qed.

(** *** The group directory after [makedirs] *)

Lemma rstrip_cons p c s :
  PyStr.rstrip p (String c s)
  = match PyStr.rstrip p s with
    | EmptyString => if p c then EmptyString else String c EmptyString
    | r => String c r
    end.
Proof. reflexivity. Qed.

Lemma rstrip_slash d :
  d <> "" -> ends_with_slash d = false -> PyStr.rstrip is_slash (d ++ "/") = d.
Proof.
  induction d as [|c d IH]; [contradiction|]. intros _.
  rewrite append_cons, rstrip_cons, ends_with_slash_cons.
  destruct d as [|c' d].
  - intros ->. reflexivity.
  - intros H. rewrite IH; [reflexivity | discriminate | exact H].
Qed.

Lemma not_all_slashes d b :
  d <> "" -> ends_with_slash d = false -> PyStr.forallb is_slash (d ++ b) = false.
Proof.
  induction d as [|c d IH]; [contradiction|]. intros _.
  rewrite append_cons, ends_with_slash_cons. cbn [PyStr.forallb].
  destruct d as [|c' d].
  - intros ->. reflexivity.
  - intros H. rewrite IH; [apply andb_false_r | discriminate | exact H].
Qed.

Lemma path_split_entry d e :
  d <> "" -> ends_with_slash d = false -> PyStr.contains "/" e = false ->
  path_split (d ++ "/" ++ e) = (d, e).
Proof.
  intros Hd Hs He. unfold path_split.
  assert (E : Z.to_nat (PyStr.rfind "/" (d ++ "/" ++ e) + 1) = String.length (d ++ "/")).
  { change ("/" ++ e) with (String "/" e). rewrite (rfind_last "/" d e He).
    rewrite length_append. cbn. lia. }
  rewrite E, <- append_assoc, take_append, drop_append.
  rewrite (not_all_slashes d "/" Hd Hs), (rstrip_slash d Hd Hs).
  destruct (d ++ "/") eqn:E'; [destruct d; discriminate|]. reflexivity.
Qed.

Lemma mkdir_spec name w r w' :
  mkdir name w = (r, w') ->
  match r with
  | Ret _ =>
      files w' = <[name := fresh_dir]> (files w)
      /\ (parent_of name = "" \/ PyStr.forallb is_slash (parent_of name) = true
          \/ is_dir (files w) (parent_of name) = true)
  | Raise _ => w' = w
  end.
Proof.
  unfold mkdir. rewrite run_bind, run_get_files.
  destruct (String.eqb name ""); [intros [= <- <-]; reflexivity|].
  destruct (files w !! name); [intros [= <- <-]; reflexivity|].
  destruct (String.eqb_spec (parent_of name) "") as [E|_]; cbn [orb].
  { intros [= <- <-]. cbn. auto. }
  destruct (PyStr.forallb is_slash (parent_of name)) eqn:Hs.
  { intros [= <- <-]. cbn. auto. }
  unfold is_dir. destruct (files w !! parent_of name) as [[|sz l]|];
    intros [= <- <-]; cbn; auto.
Qed.

Lemma mkdir_exist_ok_parent name d e w w' :
  path_split name = (d, e) -> e <> "" -> d <> "" -> PyStr.forallb is_slash d = false ->
  (is_dir (files w) name = true -> is_dir (files w) d = true) ->
  mkdir_exist_ok name w = (Ret tt, w') ->
  is_dir (files w') d = true.
Proof.
  intros Hp He Hd Hs Htree. unfold mkdir_exist_ok.
  destruct (mkdir name w) as [[[]|x] w1] eqn:E; apply mkdir_spec in E.
  - intros [= <-]. destruct E as [Hf Hpar].
    assert (Hpo : parent_of name = d).
    { unfold parent_of. rewrite Hp. destruct (String.eqb_spec e ""); [contradiction | reflexivity]. }
    rewrite Hpo in Hpar. destruct Hpar as [H|[H|H]]; [contradiction | congruence |].
    rewrite Hf. unfold is_dir in *.
    destruct (decide (name = d)) as [->|Hne];
      [rewrite lookup_insert_eq; reflexivity | rewrite lookup_insert_ne by exact Hne; exact H].
  - subst w1. destruct (is_dir (files w) name) eqn:Hn; [|discriminate].
    intros [= <-]. apply Htree. reflexivity.
Qed.

Lemma makedirs_parent name d e w w' :
  path_split name = (d, e) -> e <> "" -> d <> "" -> PyStr.forallb is_slash d = false ->
  (String.length d < String.length name)%nat ->
  (is_dir (files w) name = true -> is_dir (files w) d = true) ->
  makedirs name w = (Ret tt, w') ->
  is_dir (files w') d = true.
Proof.
  intros Hp He Hd Hs Hlen Htree. unfold makedirs.
  destruct (String.length name) as [|fuel] eqn:El; [lia|].
  cbn [makedirs_fuel]. rewrite Hp.
  assert (Ee : String.eqb e "" = false) by (apply String.eqb_neq; exact He).
  assert (Ed : String.eqb d "" = false) by (apply String.eqb_neq; exact Hd).
  rewrite Ee, run_bind, run_get_files, Ee, Ed. cbn [negb andb].
  destruct (exists_ (files w) d) eqn:Hex; cbn [negb].
  { apply (mkdir_exist_ok_parent name d e); assumption. }
  rewrite run_bind.
  pose proof (quiet_makedirs_fuel fuel d w) as [_ G].
  destruct (makedirs_fuel fuel d w) as [[[]|x] w1] eqn:Em; cbn [snd] in G.
  - apply (mkdir_exist_ok_parent name d e); try assumption.
    intros Hn. exfalso.
    assert (Hw : is_dir (files w) name = true).
    { destruct (is_dir (files w) name) eqn:Hw; [reflexivity|].
      rewrite (gentle_not_dir _ _ _ _ _ G) in Hn; [discriminate | | exact Hw].
      unfold up_to. lia. }
    apply Htree in Hw. unfold is_dir in Hw. unfold exists_ in Hex.
    destruct (files w !! d); discriminate.
  - destruct x; try discriminate.
    apply (mkdir_exist_ok_parent name d e); try assumption.
    intros Hn. exfalso.
    assert (Hw : is_dir (files w) name = true).
    { destruct (is_dir (files w) name) eqn:Hw; [reflexivity|].
      rewrite (gentle_not_dir _ _ _ _ _ G) in Hn; [discriminate | | exact Hw].
      unfold up_to. lia. }
    apply Htree in Hw. unfold is_dir in Hw. unfold exists_ in Hex.
    destruct (files w !! d); discriminate.
Qed.

Lemma group_dir_shape pdf_url base_dir :
  group_of pdf_url <> "" ->
  group_dir_of pdf_url base_dir <> ""
  /\ ends_with_slash (group_dir_of pdf_url base_dir) = false
  /\ PyStr.forallb is_slash (group_dir_of pdf_url base_dir) = false.
Proof.
  intros Hg. unfold group_dir_of.
  rewrite (join_entry _ _ (group_no_slash pdf_url)). fold (group_of pdf_url).
  assert (Hne : dir_prefix base_dir ++ group_of pdf_url <> "").
  { destruct (dir_prefix base_dir); [rewrite append_nil; exact Hg | discriminate]. }
  assert (He : ends_with_slash (dir_prefix base_dir ++ group_of pdf_url) = false).
  { rewrite (ends_with_slash_append _ _ Hg). apply no_slash_end, group_no_slash. }
  split; [exact Hne|]. split; [exact He|].
  pose proof (not_all_slashes _ "" Hne He) as H.
  replace ((dir_prefix base_dir ++ group_of pdf_url) ++ "")
    with (dir_prefix base_dir ++ group_of pdf_url) in H; [exact H|].
  generalize (dir_prefix base_dir ++ group_of pdf_url). intros s.
  induction s as [|c s IH]; [reflexivity|]. rewrite append_cons, <- IH. reflexivity.
Qed.

Lemma is_dir_lookup (fs : gmap string node) p :
  is_dir fs p = true -> exists sz l, fs !! p = Some (Dir sz l).
Proof. unfold is_dir. destruct (fs !! p) as [[|sz l]|]; try discriminate. eauto. Qed.

Lemma finished_pair_found sess pdf_url video_url base_dir video_extensions dh w w'
    pdf_ok vid_ok group file_id :
  download_pair sess pdf_url video_url base_dir video_extensions dh w
  = (Ret (pdf_ok, vid_ok, group, file_id), w') ->
  pdf_ok || vid_ok = true ->
  group_of pdf_url <> "" ->
  (file_id_of pdf_url <> "" /\ file_id_of pdf_url <> "." /\ file_id_of pdf_url <> "..") ->
  (is_dir (files w) (join (group_dir_of pdf_url base_dir) (file_id_of pdf_url)) = true ->
   is_dir (files w) (group_dir_of pdf_url base_dir) = true) ->
  folder_exists_for_pair (files w') pdf_url base_dir = true
  /\ group = group_of pdf_url /\ file_id = file_id_of pdf_url.
Proof.
  intros Hrun Hok Hg Hfid Htree. rewrite download_pair_unfold in Hrun. cbn zeta in Hrun.
  rewrite run_bind in Hrun.
  destruct (makedirs _ w) as [[[]|e] w1] eqn:Hm; [|discriminate].
  rewrite run_bind in Hrun.
  destruct (download_file sess pdf_url _ w1) as [[ok|e] w2] eqn:Hp; [|discriminate].
  rewrite run_bind in Hrun.
  destruct (probe_extensions _ _ _ _ _ _ w2) as [[[[] actual]|e] w3] eqn:Hv;
    [| |discriminate].
  2: { cbn [negb] in Hrun. rewrite !run_bind in Hrun. cbn in Hrun.
       injection Hrun as <- <- _ _ _. discriminate. }
  cbn [negb] in Hrun. rewrite run_bind in Hrun.
  pose proof (quiet_dehydration dh ok
                (join (pair_folder w pdf_url base_dir) (file_id_of pdf_url ++ ".pdf"))
                actual w3) as Hq.
  pose proof (dehydration_ret dh ok
                (join (pair_folder w pdf_url base_dir) (file_id_of pdf_url ++ ".pdf"))
                actual w3) as Hr.
  match type of Hrun with context [when_ dh ?m w3] =>
    destruct (when_ dh m w3) as [[[]|e] w4]; [|discriminate Hr]
  end.
  apply files_quiet_nowhere in Hq as [Hf _]. cbn [snd] in Hf.
  rewrite run_ret in Hrun. injection Hrun as <- <- <- <- <-.
  split; [|split; reflexivity]. rewrite Hf.
  pose proof (quiet_makedirs (pair_folder w pdf_url base_dir) w) as [_ G1].
  pose proof (tame_download_file sess pdf_url
                (join (pair_folder w pdf_url base_dir) (file_id_of pdf_url ++ ".pdf")) w1)
    as [_ G2].
  pose proof (tame_probe_extensions sess video_url (pair_folder w pdf_url base_dir)
                (file_id_of pdf_url) (extensions_of video_extensions)
                (extensions_of video_extensions) w2) as [_ G3].
  rewrite Hm in G1. rewrite Hp in G2. rewrite Hv in G3. cbn [snd] in *.
  assert (Hstay : forall p, is_dir (files w1) p = true -> is_dir (files w3) p = true).
  { intros p Hd. eapply gentle_is_dir; [exact G3|]. eapply gentle_is_dir; [exact G2 | exact Hd]. }
  pose proof (makedirs_is_dir _ _ _ Hm) as Hfolder.
  destruct (find_folder_reads (group_dir_of pdf_url base_dir) (file_id_of pdf_url) w)
    as [found Hfound].
  unfold group_dir_of in Hfound at 1. rewrite (pair_folder_found _ _ _ _ Hfound) in *.
  fold (group_dir_of pdf_url base_dir) in *.
  destruct found as [x|]; cbn [default] in *.
  - apply find_folder_spec in Hfound as (sz & entry & Hgd & Hin & Hmatch & ->).
    apply entries_inv in Hin as (_ & Hne & Hc). rewrite (join_entry _ _ Hc) in *.
    assert (Hgd3 : is_dir (files w3) (group_dir_of pdf_url base_dir) = true).
    { apply Hstay. eapply gentle_is_dir; [exact G1|]. unfold is_dir. rewrite Hgd. reflexivity. }
    apply is_dir_lookup in Hgd3 as (sz' & l & Hgd3).
    apply Hstay, is_dir_lookup in Hfolder as (sz2 & l2 & Hfolder).
    apply (folder_is_found (files w3) pdf_url base_dir entry sz' l Hgd3); eauto.
  - destruct (group_dir_shape pdf_url base_dir Hg) as (Hne & Hend & Hall).
    pose proof Hfid as (Hfid1 & _).
    pose proof (file_id_no_slash pdf_url) as Hc. fold (file_id_of pdf_url) in Hc.
    assert (Hpre : dir_prefix (group_dir_of pdf_url base_dir) = group_dir_of pdf_url base_dir ++ "/").
    { unfold dir_prefix. rewrite Hend.
      destruct (String.eqb_spec (group_dir_of pdf_url base_dir) ""); [contradiction | reflexivity]. }
    rewrite (join_entry _ _ Hc), Hpre, append_assoc in *.
    assert (Hgd1 : is_dir (files w1) (group_dir_of pdf_url base_dir) = true).
    { eapply (makedirs_parent _ _ _ _ _ (path_split_entry _ _ Hne Hend Hc)); eauto.
      rewrite !length_append. cbn. lia. }
    apply Hstay, is_dir_lookup in Hgd1 as (sz' & l & Hgd3).
    apply Hstay, is_dir_lookup in Hfolder as (sz2 & l2 & Hfolder).
    apply (folder_is_found (files w3) pdf_url base_dir (file_id_of pdf_url) sz' l Hgd3);
      [| exact Hfid | exact Hc |].
    + rewrite Hpre, append_assoc. eauto.
    + unfold entry_matches. rewrite String.eqb_refl. reflexivity.
Qed.

(** Resuming.  When [download_pair] returns with a primary file or a
    companion, the dispatcher adds the key of the pair to the ledger,
    and the folder of the pair is on disk where
    [folder_exists_for_pair] finds it: a later run does not download the
    pair again, whether or not the ledger was saved.  (The group and the
    file id are not empty, the file id is a name a directory can list,
    neither [.] nor [..], and the store is a tree at the folder: if the
    folder is there, so is its group directory.) *)
Theorem finished_pair_is_skipped sess pdf_url video_url base_dir video_extensions dh w w'
    pdf_ok vid_ok group file_id :
  download_pair sess pdf_url video_url base_dir video_extensions dh w
  = (Ret (pdf_ok, vid_ok, group, file_id), w') ->
  pdf_ok || vid_ok = true ->
  group_of pdf_url <> "" ->
  file_id_of pdf_url <> "" -> file_id_of pdf_url <> "." -> file_id_of pdf_url <> ".." ->
  (is_dir (files w) (join (group_dir_of pdf_url base_dir) (file_id_of pdf_url)) = true ->
   is_dir (files w) (group_dir_of pdf_url base_dir) = true) ->
  key_of_result (Ret (pdf_ok, vid_ok, group, file_id)) = Some (pair_key pdf_url)
  /\ folder_exists_for_pair (files w') pdf_url base_dir = true
  /\ forall loaded, to_download (files w') base_dir loaded [(pdf_url, video_url)] = [].
Proof.
  intros Hrun Hok Hg Hfid Hdot Hdots Htree.
  destruct (finished_pair_found _ _ _ _ _ _ _ _ _ _ _ _ Hrun Hok Hg
              (conj Hfid (conj Hdot Hdots)) Htree)
    as (Hfound & -> & ->).
  split; [|split; [exact Hfound|]].
  - cbn. rewrite Hok. reflexivity.
  - intros loaded. unfold to_download. cbn. rewrite Hfound, andb_false_r. reflexivity.
Qed.

Example finished_pair_is_skipped_witness :
  let sess := two_assets "https://host/DataSet%203/ABC.pdf" "https://host/DataSet%203/ABC.mov" in
  let w' := snd (download_pair sess abc_pdf abc_mov "out" None false blank) in
  key_of_result (Ret (true, true, "DataSet_3", "ABC")) = Some (pair_key abc_pdf)
  /\ folder_exists_for_pair (files w') abc_pdf "out" = true
  /\ forall loaded, to_download (files w') "out" loaded [(abc_pdf, abc_mov)] = [].
Proof.
  cbn zeta.
  apply (finished_pair_is_skipped
           (two_assets "https://host/DataSet%203/ABC.pdf" "https://host/DataSet%203/ABC.mov")
           abc_pdf abc_mov "out" None false blank _ true true "DataSet_3" "ABC").
  - apply run_eq. vm_compute. reflexivity.
  - reflexivity.
  - vm_compute. discriminate.
  - vm_compute. discriminate.
  - vm_compute. discriminate.
  - vm_compute. discriminate.
  - vm_compute. discriminate.
Defined.

(** ** C3: idempotence *)

Lemma must_fetch_gentle T D fs fs' k :
  gentle T D fs fs' -> ~ T k -> must_fetch fs k = false -> must_fetch fs' k = false.
Proof.
  intros (F & _ & _) Hk H. unfold must_fetch in *.
  destruct (F k Hk) as [->|[_ E]]; [exact H|]. rewrite E in H. discriminate.
Qed.

Lemma requests_rmtree folder w : requests (snd (rmtree folder w)) = requests w.
Proof. reflexivity. Qed.

(** *** The first request for the companion *)

Lemma start_of_name file_id ext :
  PyStr.contains "/" file_id = false ->
  PyStr.startswith (file_id ++ "." ++ ext) "/" = false.
Proof.
  destruct file_id as [|c f]; [reflexivity|]. rewrite contains_cons, append_cons.
  unfold PyStr.startswith. rewrite prefix_cons. destruct (ascii_dec "/" c) as [<-|]; [|reflexivity].
  rewrite Ascii.eqb_refl. discriminate.
Qed.

Lemma length_join a b :
  PyStr.startswith b "/" = false ->
  (String.length a + String.length b <= String.length (join a b))%nat.
Proof.
  intros H. unfold join. rewrite H.
  destruct (String.eqb a "" || ends_with_slash a); rewrite !length_append; lia.
Qed.

(** The files of an item are not among the directories [makedirs]
    makes for its folder. *)
Lemma item_path_beyond folder file_id ext :
  PyStr.contains "/" file_id = false ->
  ~ up_to folder (join folder (file_id ++ "." ++ ext)).
Proof.
  intros Hc. unfold up_to.
  pose proof (length_join folder _ (start_of_name file_id ext Hc)) as H.
  rewrite !length_append in H. cbn [String.length] in H. lia.
Qed.

Lemma must_fetch_beyond D fs fs' k :
  gentle nowhere D fs fs' -> ~ D k -> must_fetch fs' k = must_fetch fs k.
Proof.
  intros (F & _ & _) Hk. unfold must_fetch.
  destruct (F k) as [->|[Hd _]]; [intros [] | reflexivity | contradiction].
Qed.

(** A call of [download_file] that has to fetch asks for its URL
    first, unless the directory cannot be made. *)
Lemma fetch_first_request sess url local_path w :
  must_fetch (files w) local_path = true ->
  let run := download_file sess url local_path w in
  (exists e, fst run = Raise e /\ os_error e /\ requests (snd run) = requests w)
  \/ exists later, requests (snd run) = (later ++ wire_url url :: requests w)%list.
Proof.
  intros Hm. cbn zeta.
  destruct (fst (makedirs (dirname local_path) w)) as [[]|e0] eqn:Hk.
  - right. destruct (download_file_account sess url local_path w Hm Hk)
      as (m & _ & Hq & _). cbn zeta in Hq.
    exists (repeat (wire_url url) m). rewrite Hq. symmetry. apply repeat_shift.
  - left. exists e0. rewrite download_file_absent by assumption. rewrite run_bind.
    pose proof (quiet_makedirs (dirname local_path) w) as [Rq _].
    pose proof (os_error_makedirs (dirname local_path) w) as Ho.
    destruct (makedirs (dirname local_path) w) as [[[]|e] w1]; [discriminate|].
    cbn [fst snd] in *. injection Hk as ->. auto.
Qed.

Lemma probe_first_request sess video_url folder file_id first rest w :
  must_fetch (files w) (join folder (file_id ++ "." ++ first)) = true ->
  let run := probe_extensions sess video_url folder file_id (first :: rest) (first :: rest) w in
  (exists e, fst run = Raise e /\ os_error e /\ requests (snd run) = requests w)
  \/ exists later, requests (snd run) = (later ++ wire_url video_url :: requests w)%list.
Proof.
  intros Hm. cbn zeta. rewrite probe_step, run_bind.
  assert (Hu : probe_url (first :: rest) video_url first = video_url).
  { unfold probe_url. cbn [nth]. rewrite String.eqb_refl. reflexivity. }
  rewrite Hu.
  destruct (fetch_first_request sess video_url _ w Hm) as [(e & He & Ho & Hq)|[later Hq]];
    cbn zeta in *;
    destruct (download_file sess video_url _ w) as [[[]|e'] w1]; cbn [fst snd] in *;
    try discriminate.
  - left. exists e. injection He as ->. auto.
  - right. exists later. exact Hq.
  - right. destruct (asks_probe_extensions sess video_url folder file_id (first :: rest) rest w1)
      as [new Hn].
    exists (new ++ later)%list. rewrite Hn, Hq, app_assoc. reflexivity.
  - right. exists later. exact Hq.
Qed.

(** A call of [download_pair] that finds the primary file in its
    folder and nothing under the first extension asks for the companion
    URL first, unless the folder cannot be made. *)
Lemma pair_first_request sess pdf_url video_url base_dir video_extensions dh first rest w :
  let folder := pair_folder w pdf_url base_dir in
  let file_id := file_id_of pdf_url in
  extensions_of video_extensions = first :: rest ->
  must_fetch (files w) (join folder (file_id ++ ".pdf")) = false ->
  must_fetch (files w) (join folder (file_id ++ "." ++ first)) = true ->
  let run := download_pair sess pdf_url video_url base_dir video_extensions dh w in
  (exists e, fst run = Raise e /\ os_error e /\ requests (snd run) = requests w)
  \/ exists later, requests (snd run) = (later ++ wire_url video_url :: requests w)%list.
Proof.
  cbn zeta. intros Hx Hp Hv. rewrite download_pair_unfold, Hx, run_bind.
  pose proof (quiet_makedirs (pair_folder w pdf_url base_dir) w) as [R1 G1].
  pose proof (os_error_makedirs (pair_folder w pdf_url base_dir) w) as Ho.
  destruct (makedirs (pair_folder w pdf_url base_dir) w) as [[[]|e] w1]; cbn [fst snd] in *.
  2:{ left. exists e. auto. }
  eapply must_fetch_gentle in Hp; [|exact G1 | intros []].
  rewrite <- (must_fetch_beyond _ _ _ _ G1) in Hv
    by (apply item_path_beyond; apply file_id_no_slash).
  rewrite run_bind, (download_file_present _ _ _ _ Hp), run_bind. rewrite <- R1.
  destruct (probe_first_request sess video_url (pair_folder w pdf_url base_dir)
              (file_id_of pdf_url) first rest w1 Hv) as [(e & He & Hoe & Hq)|[later Hq]];
    cbn zeta in *.
  - left. exists e.
    destruct (probe_extensions _ _ _ _ _ _ w1) as [[probed|e'] w2]; [discriminate|].
    cbn [fst snd] in *. injection He as ->. auto.
  - right. destruct (probe_extensions _ _ _ _ _ _ w1) as [[[vid_ok actual]|e'] w2];
      cbn [fst snd] in *; [|exists later; exact Hq].
    destruct (asks_after_probing dh true vid_ok (pair_folder w pdf_url base_dir)
                (join (pair_folder w pdf_url base_dir) (file_id_of pdf_url ++ ".pdf"))
                (group_of pdf_url) (file_id_of pdf_url) actual w2) as [new Hn].
    exists (new ++ later)%list. rewrite Hn, Hq, app_assoc. reflexivity.
Qed.

(** C3 (amended).  [download_file] returns success at once, leaving the
    world as it is and so making no request, when its local path holds
    something of non-zero size.  Hence a call of [download_pair] makes
    no request at all when its folder already holds the primary file
    and the companion under the first extension of the priority list.
    When the folder holds the primary file and nothing under the first
    extension (a companion kept under a later extension does not
    count), the call asks for the companion URL again, unless the
    folder cannot be made. *)
Theorem present_files_are_not_fetched (sess : session) (w : world) :
  (forall url local_path,
     must_fetch (files w) local_path = false ->
     download_file sess url local_path w = (Ret true, w))
  /\ (forall pdf_url video_url base_dir video_extensions dh,
        let folder := pair_folder w pdf_url base_dir in
        let file_id := file_id_of pdf_url in
        let first := nth 0 (extensions_of video_extensions) "" in
        must_fetch (files w) (join folder (file_id ++ ".pdf")) = false ->
        must_fetch (files w) (join folder (file_id ++ "." ++ first)) = false ->
        requests (snd (download_pair sess pdf_url video_url base_dir
                         video_extensions dh w)) = requests w)
  /\ (forall pdf_url video_url base_dir video_extensions dh first rest,
        let folder := pair_folder w pdf_url base_dir in
        let file_id := file_id_of pdf_url in
        let run := download_pair sess pdf_url video_url base_dir video_extensions dh w in
        extensions_of video_extensions = first :: rest ->
        must_fetch (files w) (join folder (file_id ++ ".pdf")) = false ->
        must_fetch (files w) (join folder (file_id ++ "." ++ first)) = true ->
        (exists e, fst run = Raise e /\ os_error e /\ requests (snd run) = requests w)
        \/ exists later,
             requests (snd run) = (later ++ wire_url video_url :: requests w)%list).
Proof.
  split; [intros url local_path; apply download_file_present|].
  split; [|intros pdf_url video_url base_dir video_extensions dh first rest;
           apply pair_first_request].
  intros pdf_url video_url base_dir video_extensions dh. cbn zeta. intros Hp Hv.
  rewrite download_pair_unfold. rewrite run_bind.
  pose proof (quiet_makedirs (pair_folder w pdf_url base_dir) w) as [R1 G1].
  destruct (makedirs (pair_folder w pdf_url base_dir) w) as [[[]|e] w1];
    cbn [snd] in *; [|exact R1].
  rewrite <- R1.
  eapply must_fetch_gentle in Hp; [|exact G1 | intros []].
  eapply must_fetch_gentle in Hv; [|exact G1 | intros []].
  rewrite run_bind, (download_file_present _ _ _ _ Hp), run_bind.
  destruct (extensions_of video_extensions) as [|e0 rest] eqn:Ex.
  - cbn [probe_extensions]. rewrite run_ret. cbn [negb]. rewrite run_bind. reflexivity.
  - rewrite probe_step, run_bind. cbn [nth] in Hv.
    rewrite (download_file_present _ _ _ _ Hv), run_ret. cbn [negb].
    rewrite run_bind.
    match goal with |- context [when_ dh ?m w1] =>
      pose proof (quiet_dehydration dh true
                    (join (pair_folder w pdf_url base_dir) (file_id_of pdf_url ++ ".pdf"))
                    (Some (join (pair_folder w pdf_url base_dir)
                             (file_id_of pdf_url ++ "." ++ e0))) w1) as [R2 _];
      destruct (when_ dh m w1) as [[[]|e] w2]
    end; exact R2.
Qed.

(** The second call of two, on a folder the first call has filled, and
    a call on a folder that holds the primary file alone. *)
Example present_files_are_not_fetched_witness :
  let w1 := snd (download_pair (two_assets "https://host/DataSet%203/ABC.pdf"
                                  "https://host/DataSet%203/ABC.mov")
                   abc_pdf abc_mov "out" None false blank) in
  let w2 := World (list_to_map [("out", fresh_dir); ("out/DataSet_3", fresh_dir);
                                ("out/DataSet_3/ABC", fresh_dir);
                                ("out/DataSet_3/ABC/ABC.pdf", File [x41])]) [] [] [] [] in
  let run := download_pair nothing_there abc_pdf abc_mov "out" (Some ["mov"]) false w2 in
  requests (snd (download_pair nothing_there abc_pdf abc_mov "out" None false w1))
  = requests w1
  /\ ((exists e, fst run = Raise e /\ os_error e /\ requests (snd run) = requests w2)
      \/ exists later,
           requests (snd run) = (later ++ wire_url abc_mov :: requests w2)%list).
Proof.
  cbn zeta. split.
  - apply (proj1 (proj2 (present_files_are_not_fetched nothing_there _))
             abc_pdf abc_mov "out" None false); vm_compute; reflexivity.
  - apply (proj2 (proj2 (present_files_are_not_fetched nothing_there _))
             abc_pdf abc_mov "out" (Some ["mov"]) false "mov" []); vm_compute; reflexivity.
Defined.

(** C3, as stated, fails: the first call finds no [.mov] and keeps the
    companion as [ABC.mp4]; the folder is complete, and the second call
    asks for the [.mov] again. *)
Example second_call_probes_again :
  let sess := two_assets "https://host/DataSet%203/ABC.pdf"
                "https://host/DataSet%203/ABC.mp4" in
  let w1 := snd (download_pair sess abc_pdf abc_mov "out" (Some ["mov"; "mp4"]) false blank) in
  let w2 := snd (download_pair sess abc_pdf abc_mov "out" (Some ["mov"; "mp4"]) false w1) in
  must_fetch (files w1) "out/DataSet_3/ABC/ABC.pdf" = false
  /\ must_fetch (files w1) "out/DataSet_3/ABC/ABC.mp4" = false
  /\ requests w2 = "https://host/DataSet%203/ABC.mov" :: requests w1.
Proof. vm_compute. auto. Qed.

(** ** C10: the name of the companion file *)

(** C10.  When [download_pair] reports a companion, the run is this:
    the folder is made, the primary file is fetched or found, the probes
    of the extensions [pre] that come first in the priority list return
    without success, and the probe of the next extension [ext] succeeds;
    the companion is then at [<folder>/<file_id>.<ext>], whatever URL
    that probe fetched.  When [ext] is the first extension of the list
    and its file had to be fetched, every request of the probe is for
    the companion URL as given: what that URL serves is saved under the
    first extension of the list. *)
Theorem companion_named_by_extension (sess : session)
    (pdf_url video_url base_dir : string) (video_extensions : option (list string))
    (dh : bool) (w w' : world) (pdf_ok : bool) (group file_id : string) :
  let folder := pair_folder w pdf_url base_dir in
  let exts := extensions_of video_extensions in
  download_pair sess pdf_url video_url base_dir video_extensions dh w
  = (Ret (pdf_ok, true, group, file_id), w') ->
  file_id = file_id_of pdf_url
  /\ exists pre ext post w0 w1 w2 w3,
       exts = (pre ++ ext :: post)%list
       /\ makedirs folder w = (Ret tt, w0)
       /\ download_file sess pdf_url (join folder (file_id ++ ".pdf")) w0 = (Ret pdf_ok, w1)
       /\ probe_extensions sess video_url folder file_id exts pre w1 = (Ret (false, None), w2)
       /\ download_file sess (probe_url exts video_url ext)
            (join folder (file_id ++ "." ++ ext)) w2 = (Ret true, w3)
       /\ files w' = files w3
       /\ requests w' = requests w3
       /\ must_fetch (files w') (join folder (file_id ++ "." ++ ext)) = false
       /\ (pre = [] ->
           must_fetch (files w1) (join folder (file_id ++ "." ++ ext)) = true ->
           exists m, requests w'
                     = (repeat (wire_url video_url) (S m) ++ requests w1)%list).
Proof.
  cbn zeta. rewrite download_pair_unfold. rewrite run_bind.
  destruct (makedirs _ w) as [[[]|e] w0] eqn:Hmk; [|discriminate].
  rewrite run_bind.
  destruct (download_file sess pdf_url _ w0) as [[ok|e] w1] eqn:Hpdf; [|discriminate].
  rewrite run_bind.
  destruct (probe_extensions _ _ _ _ _ _ w1) as [[[[] actual]|e] w3] eqn:Hv;
    [| |discriminate].
  2: { cbn [negb]. rewrite !run_bind. cbn. discriminate. }
  cbn [negb]. rewrite run_bind.
  pose proof (quiet_dehydration dh ok
                (join (pair_folder w pdf_url base_dir) (file_id_of pdf_url ++ ".pdf"))
                actual w3) as Hq.
  pose proof (dehydration_ret dh ok
                (join (pair_folder w pdf_url base_dir) (file_id_of pdf_url ++ ".pdf"))
                actual w3) as Hr.
  match goal with |- context [when_ dh ?m w3] =>
    destruct (when_ dh m w3) as [[[]|e] w4]; [|discriminate Hr]
  end.
  apply files_quiet_nowhere in Hq as [Hf Hrq]. cbn [snd] in Hf, Hrq.
  rewrite run_ret. intros [= <- <- <- <-].
  split; [reflexivity|].
  destruct (probe_success _ _ _ _ _ _ _ _ _ Hv) as (pre & ext & post & w2 & Hx & Hp & Hd & _).
  exists pre, ext, post, w0, w1, w2, w3.
  split; [exact Hx|]. split; [first [reflexivity | exact Hmk]|]. split; [exact Hpdf|].
  split; [exact Hp|]. split; [exact Hd|]. split; [exact Hf|]. split; [exact Hrq|].
  split; [rewrite Hf; eapply download_file_success, Hd|].
  intros -> Hmust. cbn [probe_extensions] in Hp. rewrite run_ret in Hp.
  injection Hp as <-. rewrite Hx in Hd. unfold probe_url in Hd. cbn [app nth] in Hd.
  rewrite String.eqb_refl in Hd.
  destruct (fst (makedirs (dirname (join (pair_folder w pdf_url base_dir)
                                      (file_id_of pdf_url ++ "." ++ ext))) w1))
    as [[]|e0] eqn:Hk.
  - destruct (download_file_account sess video_url _ w1 Hmust Hk) as (m & _ & Hreq & _).
    cbn zeta in Hreq. rewrite Hd in Hreq. cbn [snd] in Hreq.
    exists m. rewrite Hrq. exact Hreq.
  - exfalso. rewrite download_file_absent in Hd by assumption. rewrite run_bind in Hd.
    destruct (makedirs _ w1) as [[[]|e] w5]; discriminate.
Qed.

(** The companion URL ends in [.avi] and is fetched as it is for the
    first extension [mov]: the companion is saved as [ABC.mov]. *)
Example companion_named_by_extension_witness :
  let sess := two_assets "https://host/DataSet%203/ABC.pdf" "https://host/ABC.avi" in
  let run := download_pair sess abc_pdf "https://host/ABC.avi" "out" None false blank in
  let folder := "out/DataSet_3/ABC" in
  "ABC" = file_id_of abc_pdf
  /\ exists pre ext post w0 w1 w2 w3,
       DEFAULT_VIDEO_EXTENSIONS = (pre ++ ext :: post)%list
       /\ makedirs folder blank = (Ret tt, w0)
       /\ download_file sess abc_pdf (join folder ("ABC" ++ ".pdf")) w0 = (Ret true, w1)
       /\ probe_extensions sess "https://host/ABC.avi" folder "ABC"
            DEFAULT_VIDEO_EXTENSIONS pre w1 = (Ret (false, None), w2)
       /\ download_file sess (probe_url DEFAULT_VIDEO_EXTENSIONS "https://host/ABC.avi" ext)
            (join folder ("ABC" ++ "." ++ ext)) w2 = (Ret true, w3)
       /\ files (snd run) = files w3
       /\ requests (snd run) = requests w3
       /\ must_fetch (files (snd run)) (join folder ("ABC" ++ "." ++ ext)) = false
       /\ (pre = [] ->
           must_fetch (files w1) (join folder ("ABC" ++ "." ++ ext)) = true ->
           exists m, requests (snd run)
                     = (repeat (wire_url "https://host/ABC.avi") (S m) ++ requests w1)%list).
Proof.
  cbn zeta.
  apply (companion_named_by_extension
           (two_assets "https://host/DataSet%203/ABC.pdf" "https://host/ABC.avi")
           abc_pdf "https://host/ABC.avi" "out" None false blank _ true "DataSet_3" "ABC").
  apply run_eq. vm_compute. reflexivity.
Defined.

(** The companion URL ends in [.avi]; what it serves is saved as
    [ABC.mov], under the first extension of the default list. *)
Example saved_under_first_extension :
  let sess := two_assets "https://host/DataSet%203/ABC.pdf" "https://host/ABC.avi" in
  let run := download_pair sess abc_pdf "https://host/ABC.avi" "out" None false blank in
  fst run = Ret (true, true, "DataSet_3", "ABC")
  /\ files (snd run) !! "out/DataSet_3/ABC/ABC.mov" = Some (File [x41; x42; x43])
  /\ requests (snd run) = ["https://host/ABC.avi"; "https://host/DataSet%203/ABC.pdf"].
Proof. vm_compute. auto. Qed.

(** ** The arguments of [main] *)

Lemma split_pieces sep s e :
  In e (PyStr.split sep s) -> PyStr.contains sep e = false.
Proof.
  revert e. induction s as [|c s IH]; intros e.
  - intros [<-|[]]. reflexivity.
  - rewrite split_cons. destruct (Ascii.eqb c sep) eqn:E.
    + intros [<-|H]; [reflexivity | apply IH, H].
    + pose proof (split_nonempty sep s) as Hne.
      destruct (PyStr.split sep s) as [|h t]; [contradiction|].
      intros [<-|H]; [|apply IH; right; exact H].
      rewrite contains_cons, Ascii.eqb_sym, E. apply IH. left. reflexivity.
Qed.

Lemma contains_lstrip c p s :
  PyStr.contains c s = false -> PyStr.contains c (PyStr.lstrip p s) = false.
Proof.
  induction s as [|d s IH]; [reflexivity|]. cbn [PyStr.lstrip].
  destruct (p d); [|auto]. rewrite contains_cons.
  destruct (Ascii.eqb c d); [discriminate | exact IH].
Qed.

Lemma contains_rstrip c p s :
  PyStr.contains c s = false -> PyStr.contains c (PyStr.rstrip p s) = false.
Proof.
  induction s as [|d s IH]; [reflexivity|]. rewrite rstrip_cons, contains_cons.
  destruct (Ascii.eqb c d) eqn:E; [discriminate|]. intros H. specialize (IH H).
  destruct (PyStr.rstrip p s).
  - destruct (p d); [reflexivity|]. rewrite contains_cons, E. reflexivity.
  - rewrite contains_cons, E. exact IH.
Qed.

Lemma lstrip_stops p s : stops p (PyStr.lstrip p s).
Proof.
  induction s as [|c s IH]; [exact I|]. cbn [PyStr.lstrip].
  destruct (p c) eqn:E; [exact IH | exact E].
Qed.

Lemma no_leading_dot s : stops is_dot s -> PyStr.startswith s "." = false.
Proof.
  destruct s as [|c s]; [reflexivity|]. unfold PyStr.startswith, stops, is_dot.
  change (String.prefix "." (String c s)) with (String.prefix (String "." "") (String c s)).
  rewrite prefix_cons. intros H.
  destruct (ascii_dec "." c) as [<-|]; [|reflexivity].
  rewrite Ascii.eqb_refl in H. discriminate.
Qed.

(** The extensions [main] passes on hold no comma and start with no
    dot, whether they are the default ones or come from
    [--video-extensions]. *)
Theorem resolved_extensions (arg : option string) :
  Forall (fun e => PyStr.contains "," e = false /\ PyStr.startswith e "." = false)
         (resolve_video_extensions arg).
Proof.
  assert (Hd : Forall (fun e => PyStr.contains "," e = false /\ PyStr.startswith e "." = false)
                 DEFAULT_VIDEO_EXTENSIONS).
  { repeat constructor. }
  destruct arg as [s|]; [|exact Hd]. cbn [resolve_video_extensions].
  destruct (String.eqb s ""); [exact Hd|].
  apply Forall_forall. intros e He. apply list_elem_of_In in He.
  unfold comma_separated in He. apply in_map_iff in He as (x & <- & Hx).
  apply filter_In in Hx as [Hx _]. split.
  - apply contains_lstrip, contains_strip, (split_pieces _ _ _ Hx).
  - apply no_leading_dot, lstrip_stops.
Qed.

(** An argument of separators alone leaves no extension at all, and a
    lone dot leaves the empty extension. *)
Example resolved_extensions_edge :
  resolve_video_extensions (Some ".mov, mp4 ,,") = ["mov"; "mp4"]
  /\ resolve_video_extensions (Some " , ") = []
  /\ resolve_video_extensions (Some ".") = [""].
Proof. vm_compute. auto. Qed.

Lemma download_file_requests sess url local_path w :
  exists n, (n <= Z.to_nat MAX_RETRIES)%nat
    /\ requests (snd (download_file sess url local_path w))
       = (repeat (wire_url url) n ++ requests w)%list.
Proof.
  destruct (must_fetch_cases (files w) local_path) as [H|H].
  { rewrite download_file_present by assumption. exists O. split; [lia | reflexivity]. }
  rewrite download_file_absent by assumption. rewrite run_bind.
  pose proof (quiet_makedirs (dirname local_path) w) as [Rq _].
  destruct (makedirs (dirname local_path) w) as [[[]|e] w1]; cbn [snd] in *.
  - destruct (attempts_account sess (wire_url url) local_path attempt_numbers w1)
      as (m & Hn & Hr & _); [discriminate|]. cbn zeta in Hr.
    exists (S m). rewrite Hr, Rq. split; [exact Hn | reflexivity].
  - exists O. split; [lia | exact Rq].
Qed.

(** With an empty list of extensions [download_pair] keeps no pair:
    whatever the server holds, it asks for the primary file only and
    reports the pair as failed. *)
Theorem no_extensions_no_pair sess pdf_url video_url base_dir dh w result w' :
  download_pair sess pdf_url video_url base_dir (Some []) dh w = (Ret result, w') ->
  result = (false, false, group_of pdf_url, file_id_of pdf_url)
  /\ exists n, (n <= Z.to_nat MAX_RETRIES)%nat
       /\ requests w' = (repeat (wire_url pdf_url) n ++ requests w)%list.
Proof.
  rewrite download_pair_unfold. cbn zeta. rewrite run_bind.
  pose proof (quiet_makedirs (pair_folder w pdf_url base_dir) w) as [Rq _].
  destruct (makedirs _ w) as [[[]|e] w1]; [|discriminate]. cbn [snd] in Rq.
  rewrite run_bind.
  destruct (download_file_requests sess pdf_url
              (join (pair_folder w pdf_url base_dir) (file_id_of pdf_url ++ ".pdf")) w1)
    as (n & Hn & Hr).
  destruct (download_file sess pdf_url _ w1) as [[ok|e] w2]; [|discriminate].
  cbn [snd] in Hr. unfold extensions_of. cbn [default from_option id probe_extensions].
  rewrite run_bind, run_ret. cbn [negb]. unfold rmtree.
  rewrite !run_bind, run_get_files. cbn [set_files]. rewrite run_ret.
  intros [= <- <-]. split; [reflexivity|]. exists n. cbn [requests].
  rewrite Hr, Rq. auto.
Qed.

Example no_extensions_no_pair_witness :
  let sess := two_assets "https://host/DataSet%203/ABC.pdf" "https://host/DataSet%203/ABC.mov" in
  (false, false, "DataSet_3", "ABC") = (false, false, group_of abc_pdf, file_id_of abc_pdf)
  /\ exists n, (n <= Z.to_nat MAX_RETRIES)%nat
       /\ requests (snd (download_pair sess abc_pdf abc_mov "out" (Some []) false blank))
          = (repeat (wire_url abc_pdf) n ++ requests blank)%list.
Proof.
  cbn zeta.
  apply (no_extensions_no_pair
           (two_assets "https://host/DataSet%203/ABC.pdf" "https://host/DataSet%203/ABC.mov")
           abc_pdf abc_mov "out" false blank (false, false, "DataSet_3", "ABC")).
  apply run_eq. vm_compute. reflexivity.
Defined.

(** *** The sheet id *)

Lemma re_search_sheet_unfold s :
  re_search_sheet_id s
  = match match_sheet_id_here s with
    | Some id => Some id
    | None => match s with
              | EmptyString => None
              | String _ s' => re_search_sheet_id s'
              end
    end.
Proof. destruct s; reflexivity. Qed.

Lemma no_sheet_id_here c s :
  (c <> "/"%char \/ PyStr.startswith s "s" = false) ->
  match_sheet_id_here (String c s) = None.
Proof.
  intros H. unfold match_sheet_id_here, PyStr.startswith.
  change "/spreadsheets/d/" with (String "/" "spreadsheets/d/"). rewrite prefix_cons.
  destruct (ascii_dec "/" c) as [<-|]; [|reflexivity].
  destruct H as [H|H]; [contradiction|].
  destruct s as [|d s]; [reflexivity|].
  change "spreadsheets/d/" with (String "s" "preadsheets/d/"). rewrite prefix_cons.
  unfold PyStr.startswith in H. change "s" with (String "s" "") in H.
  rewrite prefix_cons in H. destruct (ascii_dec "s" d); [|reflexivity].
  destruct s; discriminate.
Qed.

Lemma sheet_id_here id rest :
  id <> "" -> PyStr.forallb is_sheet_id_char id = true -> stops is_sheet_id_char rest ->
  match_sheet_id_here ("/spreadsheets/d/" ++ id ++ rest) = Some id.
Proof.
  intros Hne Hid Hrest. unfold match_sheet_id_here, PyStr.startswith.
  rewrite prefix_append.
  change 16%nat with (String.length "/spreadsheets/d/"). rewrite drop_append.
  rewrite (span_append _ _ _ Hid Hrest). destruct id; [contradiction | reflexivity].
Qed.

(** The sheet id is read back from the URL the sheet is fetched from,
    and from every address of the sheet: the leftmost run of letters,
    digits, [_] and [-] after [/spreadsheets/d/].  An address that
    holds no sheet id stops the run, also when a CSV file is given. *)
Theorem sheet_id_round_trip :
  (forall id rest,
     id <> "" -> PyStr.forallb is_sheet_id_char id = true -> stops is_sheet_id_char rest ->
     re_search_sheet_id ("https://docs.google.com/spreadsheets/d/" ++ id ++ rest) = Some id)
  /\ (forall id csv_file,
        id <> "" -> PyStr.forallb is_sheet_id_char id = true ->
        resolve_sheet_id None (Some (sheet_csv_url id)) csv_file = Some (Some id))
  /\ (forall sheet_url csv_file,
        sheet_url <> "" -> re_search_sheet_id sheet_url = None ->
        resolve_sheet_id None (Some sheet_url) csv_file = None).
Proof.
  assert (H1 : forall id rest,
     id <> "" -> PyStr.forallb is_sheet_id_char id = true -> stops is_sheet_id_char rest ->
     re_search_sheet_id ("https://docs.google.com/spreadsheets/d/" ++ id ++ rest) = Some id).
  { intros id rest Hne Hid Hrest.
    change ("https://docs.google.com/spreadsheets/d/" ++ id ++ rest)
      with ("https://docs.google.com" ++ ("/spreadsheets/d/" ++ id ++ rest)).
    generalize (sheet_id_here id rest Hne Hid Hrest).
    generalize ("/spreadsheets/d/" ++ id ++ rest). intros s Hs.
    cbv [append].
    repeat (rewrite re_search_sheet_unfold, no_sheet_id_here;
            [|first [left; discriminate | right; reflexivity]]).
    rewrite re_search_sheet_unfold, Hs. reflexivity. }
  split; [exact H1|]. split.
  - intros id csv_file Hne Hid. unfold resolve_sheet_id, sheet_csv_url.
    cbn [truthy negb andb default].
    destruct (String.eqb_spec ("https://docs.google.com/spreadsheets/d/" ++ id
                               ++ "/export?format=csv") "") as [E|_].
    { destruct id; discriminate. }
    cbn [negb]. unfold Datatypes.id. rewrite (H1 id "/export?format=csv" Hne Hid eq_refl).
    cbn [truthy]. destruct (String.eqb_spec id ""); [contradiction | reflexivity].
  - intros sheet_url csv_file Hne Hnone. unfold resolve_sheet_id. cbn [truthy negb andb default].
    destruct (String.eqb_spec sheet_url ""); [contradiction|]. cbn [negb].
    unfold Datatypes.id. rewrite Hnone. reflexivity.
Qed.

Example sheet_id_round_trip_witness :
  re_search_sheet_id "https://docs.google.com/spreadsheets/d/1AbC_d-9/edit#gid=0" = Some "1AbC_d-9".
Proof.
  apply (proj1 sheet_id_round_trip "1AbC_d-9" "/edit#gid=0"); [discriminate | reflexivity | reflexivity].
Defined.

(** ** Text: stripping and single spacing *)

Lemma text_rstrip_cons p c t :
  PyText.rstrip p (c :: t)
  = match PyText.rstrip p t with
    | [] => if p c then [] else [c]
    | r => c :: r
    end.
Proof. reflexivity. Qed.

Lemma lstrip_suffix p t :
  exists pre, t = (pre ++ PyText.lstrip p t)%list /\ Forall (fun c => p c = true) pre.
Proof.
  induction t as [|c t (pre & E & Hp)]; [exists []; auto|]. cbn [PyText.lstrip].
  destruct (p c) eqn:Hc; [|exists []; auto].
  exists (c :: pre). split; [cbn; f_equal; exact E | constructor; assumption].
Qed.

Lemma rstrip_begins p t :
  exists suf, t = (PyText.rstrip p t ++ suf)%list /\ Forall (fun c => p c = true) suf.
Proof.
  induction t as [|c t (suf & E & Hs)]; [exists []; auto|]. rewrite text_rstrip_cons.
  destruct (PyText.rstrip p t) as [|x r].
  - cbn in E. subst suf. destruct (p c) eqn:Hc.
    + exists (c :: t). split; [reflexivity | constructor; assumption].
    + exists t. split; [reflexivity | assumption].
  - exists suf. split; [cbn; f_equal; exact E | exact Hs].
Qed.

Lemma rstrip_last p t r c : PyText.rstrip p t = (r ++ [c])%list -> p c = false.
Proof.
  revert r. induction t as [|d t IH]; intros r.
  - destruct r; discriminate.
  - rewrite text_rstrip_cons. destruct (PyText.rstrip p t) as [|x r0].
    + destruct (p d) eqn:Hd; [destruct r; discriminate|].
      destruct r as [|y r]; [intros [= <-]; exact Hd | destruct r; discriminate].
    + destruct r as [|y r]; [discriminate|]. intros [= _ E]. apply (IH r), E.
Qed.

Lemma rstrip_id p t :
  (forall r c, t = (r ++ [c])%list -> p c = false) -> PyText.rstrip p t = t.
Proof.
  induction t as [|d t IH]; [reflexivity|]. intros H. rewrite text_rstrip_cons, IH.
  - destruct t; [|reflexivity]. rewrite (H [] d eq_refl). reflexivity.
  - intros r c ->. apply (H (d :: r) c). reflexivity.
Qed.

Lemma lstrip_head p t c t' : PyText.lstrip p t = c :: t' -> p c = false.
Proof.
  induction t as [|d t IH]; [discriminate|]. cbn [PyText.lstrip].
  destruct (p d) eqn:Hd; [exact IH | intros [= <- _]; exact Hd].
Qed.

Lemma lstrip_id p t :
  match t with [] => True | c :: _ => p c = false end -> PyText.lstrip p t = t.
Proof. destruct t as [|c t]; [reflexivity|]. cbn. intros ->. reflexivity. Qed.

Lemma in_lstrip p t c : In c (PyText.lstrip p t) -> In c t.
Proof.
  destruct (lstrip_suffix p t) as (pre & E & _). rewrite E at 2. intros H.
  apply in_or_app. right. exact H.
Qed.

Lemma in_rstrip p t c : In c (PyText.rstrip p t) -> In c t.
Proof.
  destruct (rstrip_begins p t) as (suf & E & _). rewrite E at 2. intros H.
  apply in_or_app. left. exact H.
Qed.

Lemma length_text_lstrip p t : (length (PyText.lstrip p t) <= length t)%nat.
Proof.
  destruct (lstrip_suffix p t) as (pre & E & _). rewrite E at 2. rewrite length_app. lia.
Qed.

Lemma length_text_rstrip p t : (length (PyText.rstrip p t) <= length t)%nat.
Proof.
  destruct (rstrip_begins p t) as (suf & E & _). rewrite E at 2. rewrite length_app. lia.
Qed.

Lemma lstrip_all p t : Forall (fun c => p c = true) t -> PyText.lstrip p t = [].
Proof. induction 1 as [|c t Hc _ IH]; [reflexivity|]. cbn. rewrite Hc. exact IH. Qed.

Lemma strip_nil t :
  PyText.strip t = [] -> Forall (fun c => PyText.isspace c = true) t.
Proof.
  unfold PyText.strip. intros H.
  destruct (lstrip_suffix PyText.isspace t) as (pre & E & Hp).
  destruct (rstrip_begins PyText.isspace (PyText.lstrip PyText.isspace t)) as (suf & E' & Hs).
  rewrite H in E'. cbn in E'. rewrite E, E'. apply Forall_app. auto.
Qed.

Lemma strip_all t :
  Forall (fun c => PyText.isspace c = true) t -> PyText.strip t = [].
Proof. intros H. unfold PyText.strip. rewrite (lstrip_all _ _ H). reflexivity. Qed.

Lemma isspace_32 : PyText.isspace 32 = true.
Proof. reflexivity. Qed.

Lemma tidy_sub_spaces b t : tidy b (PyText.sub_spaces b t).
Proof.
  revert b. induction t as [|c t IH]; intros b; [exact I|]. cbn [PyText.sub_spaces].
  destruct (PyText.isspace c) eqn:Hc.
  - destruct b; [apply IH|]. cbn [tidy]. rewrite isspace_32. auto.
  - cbn [tidy]. rewrite Hc. apply IH.
Qed.

Lemma tidy_any b t : tidy true t -> tidy b t.
Proof.
  destruct t as [|c t]; [auto|]. cbn [tidy].
  destruct (PyText.isspace c); [intros (_ & [=] & _) | auto].
Qed.

Lemma tidy_begins b x y : tidy b (x ++ y) -> tidy b x.
Proof.
  revert b. induction x as [|c x IH]; intros b; [intros; exact I|]. cbn [app tidy].
  destruct (PyText.isspace c).
  - intros (H1 & H2 & H3). auto.
  - apply IH.
Qed.

Lemma tidy_lstrip b b' t : tidy b t -> tidy b' (PyText.lstrip PyText.isspace t).
Proof.
  revert b. induction t as [|c t IH]; intros b; [auto|]. cbn [PyText.lstrip].
  destruct (PyText.isspace c) eqn:Hc.
  - cbn [tidy]. rewrite Hc. intros (_ & _ & H). apply (IH true), H.
  - cbn [tidy]. rewrite Hc. auto.
Qed.

Lemma tidy_rstrip b p t : tidy b t -> tidy b (PyText.rstrip p t).
Proof.
  destruct (rstrip_begins p t) as (suf & E & _). rewrite E at 1. apply tidy_begins.
Qed.

Lemma tidy_firstn b n t : tidy b t -> tidy b (firstn n t).
Proof. rewrite <- (firstn_skipn n t) at 1. apply tidy_begins. Qed.

(** In tidy text the character before a space is no white space. *)
Lemma tidy_before_space b r c rest :
  tidy b (r ++ c :: 32%N :: rest) -> PyText.isspace c = false.
Proof.
  revert b. induction r as [|d r IH]; intros b; cbn [app tidy].
  - destruct (PyText.isspace c); [|reflexivity].
    rewrite isspace_32. intros (_ & _ & _ & [=] & _).
  - destruct (PyText.isspace d); [intros (_ & _ & H) | intros H]; apply (IH _ H).
Qed.

(** Tidy text has no white space but spaces. *)
Lemma tidy_spaces b t c : tidy b t -> In c t -> PyText.isspace c = true -> c = 32%N.
Proof.
  revert b. induction t as [|d t IH]; intros b; [intros _ []|]. cbn [tidy].
  destruct (PyText.isspace d) eqn:Hd.
  - intros (-> & _ & H) [<-|Hi] Hc; [reflexivity | apply (IH _ H Hi Hc)].
  - intros H [<-|Hi] Hc; [congruence | apply (IH _ H Hi Hc)].
Qed.

Lemma sub_spaces_tidy a b t :
  tidy a t -> (b = true -> a = true) -> PyText.sub_spaces b t = t.
Proof.
  revert a b. induction t as [|c t IH]; intros a b; [reflexivity|]. cbn [tidy PyText.sub_spaces].
  destruct (PyText.isspace c).
  - intros (-> & -> & H) Hb. destruct b; [discriminate (Hb eq_refl)|].
    f_equal. apply (IH true true H). auto.
  - intros H _. f_equal. apply (IH false false H). discriminate.
Qed.

Lemma tidy_head t : tidy true t -> match t with [] => True | c :: _ => PyText.isspace c = false end.
Proof.
  destruct t as [|c t]; [auto|]. cbn [tidy].
  destruct (PyText.isspace c); [intros (_ & [=] & _) | reflexivity].
Qed.

(** Cleaning: [re.sub(r"\s+", " ", t).strip()] is single-spaced. *)
Lemma cleaned_single_spaced t :
  single_spaced (PyText.strip (PyText.sub_spaces false t)).
Proof.
  split.
  - apply tidy_rstrip, (tidy_lstrip false), tidy_sub_spaces.
  - intros r c E. apply (rstrip_last _ _ _ _ E).
Qed.

Lemma strip_single_spaced t : single_spaced t -> PyText.strip t = t.
Proof.
  intros [Ht Hl]. unfold PyText.strip.
  rewrite (lstrip_id _ _ (tidy_head _ Ht)). apply rstrip_id, Hl.
Qed.

Lemma clean_single_spaced t :
  single_spaced t -> PyText.strip (PyText.sub_spaces false t) = t.
Proof.
  intros H. rewrite (sub_spaces_tidy true false t (proj1 H)); [|discriminate].
  apply strip_single_spaced, H.
Qed.

Lemma in_sub_spaces b t c : In c (PyText.sub_spaces b t) -> c = 32%N \/ In c t.
Proof.
  revert b. induction t as [|d t IH]; intros b; [intros []|]. cbn [PyText.sub_spaces].
  destruct (PyText.isspace d).
  - destruct b.
    + intros H. destruct (IH _ H); [left | right; right]; assumption.
    + intros [<-|H]; [left; reflexivity|]. destruct (IH _ H); [left | right; right]; assumption.
  - intros [<-|H]; [right; left; reflexivity|].
    destruct (IH _ H); [left | right; right]; assumption.
Qed.

Lemma sub_spaces_keeps b t c :
  In c t -> PyText.isspace c = false -> In c (PyText.sub_spaces b t).
Proof.
  revert b. induction t as [|d t IH]; intros b; [intros []|]. cbn [PyText.sub_spaces].
  intros [<-|H] Hc.
  - rewrite Hc. left. reflexivity.
  - destruct (PyText.isspace d); [destruct b|]; try right; apply IH; assumption.
Qed.

Lemma length_sub_spaces b t : (length (PyText.sub_spaces b t) <= length t)%nat.
Proof.
  revert b. induction t as [|d t IH]; intros b; [reflexivity|]. cbn [PyText.sub_spaces].
  pose proof (IH true). pose proof (IH false).
  destruct (PyText.isspace d); [destruct b|]; cbn [length]; lia.
Qed.

Lemma rfind_spec c t :
  0 <= PyText.rfind c t ->
  exists a b, t = (a ++ c :: b)%list /\ Z.of_nat (length a) = PyText.rfind c t.
Proof.
  induction t as [|d t IH]; cbn [PyText.rfind]; [lia|]. cbn zeta.
  destruct (Z.leb_spec 0 (PyText.rfind c t)) as [H|H].
  - intros _. destruct (IH H) as (a & b & -> & E).
    exists (d :: a), b. split; [reflexivity|]. cbn [length]. lia.
  - destruct (N.eqb_spec c d) as [->|]; [|lia]. intros _.
    exists [], t. auto.
Qed.

(** ** The summaries of a PDF *)

Lemma strip_clean_nonempty t :
  PyText.strip t <> [] -> PyText.strip (PyText.sub_spaces false t) <> [].
Proof.
  intros Hne Hnil. apply Hne, strip_all, Forall_forall. intros c Hc.
  apply list_elem_of_In in Hc.
  destruct (PyText.isspace c) eqn:E; [reflexivity|].
  pose proof (strip_nil _ Hnil) as Hall.
  pose proof (sub_spaces_keeps false t c Hc E) as Hin.
  rewrite Forall_forall in Hall. rewrite (Hall c) in E; [discriminate|].
  apply list_elem_of_In, Hin.
Qed.

Lemma summary_cases pdf :
  extract_pdf_summary pdf = ([], [])
  \/ exists clean,
       clean <> [] /\ single_spaced clean
       /\ extract_pdf_summary pdf = (short_of clean, firstn 2000 clean).
Proof.
  destruct pdf as [[|p pages]|]; try (left; reflexivity).
  unfold extract_pdf_summary.
  destruct (gather_text (firstn 2 (p :: pages)) []) as [text|]; [|left; reflexivity].
  destruct (PyText.strip text) as [|c s] eqn:E; [left; reflexivity|]. right.
  exists (PyText.strip (PyText.sub_spaces false text)).
  split; [apply strip_clean_nonempty; rewrite E; discriminate|].
  split; [apply cleaned_single_spaced | reflexivity].
Qed.

Lemma begins_refl t : begins t t.
Proof. exists []. symmetry. apply app_nil_r. Qed.

Lemma begins_trans a b c : begins a b -> begins b c -> begins a c.
Proof. intros [x ->] [y ->]. exists (x ++ y)%list. symmetry. apply app_assoc. Qed.

Lemma begins_firstn n t : begins (firstn n t) t.
Proof. exists (skipn n t). symmetry. apply firstn_skipn. Qed.

Lemma begins_rstrip p t : begins (PyText.rstrip p t) t.
Proof. destruct (rstrip_begins p t) as (suf & E & _). exists suf. exact E. Qed.


(** The stripped beginning of single-spaced text. *)
Lemma stripped_start n clean :
  clean <> [] -> single_spaced clean -> (0 < n)%nat ->
  let s := PyText.strip (firstn n clean) in
  s <> [] /\ single_spaced s /\ begins s clean /\ (length s <= n)%nat.
Proof.
  intros Hne [Ht Hl] Hn. cbn zeta.
  assert (Hf : tidy true (firstn n clean)) by apply tidy_firstn, Ht.
  unfold PyText.strip. rewrite (lstrip_id _ _ (tidy_head _ Hf)).
  split; [|split; [|split]].
  - intros Hnil. destruct (rstrip_begins PyText.isspace (firstn n clean)) as (suf & E & Hs).
    rewrite Hnil in E. cbn in E. destruct clean as [|c clean]; [contradiction|].
    destruct n as [|n]; [lia|]. cbn in E. subst suf.
    apply Forall_cons in Hs as [Hc _]. cbn [tidy] in Ht. rewrite Hc in Ht.
    destruct Ht as (_ & [=] & _).
  - split; [apply tidy_rstrip, Hf|]. intros r c E. apply (rstrip_last _ _ _ _ E).
  - eapply begins_trans; [apply begins_rstrip | apply begins_firstn].
  - etransitivity; [apply length_text_rstrip|]. apply firstn_le_length.
Qed.

Lemma short_of_spec clean :
  clean <> [] -> single_spaced clean ->
  short_of clean <> [] /\ single_spaced (short_of clean) /\ begins (short_of clean) clean
  /\ (length (short_of clean) <= MAX_SUMMARY_IN_FOLDER_NAME)%nat
  /\ ((MAX_SUMMARY_IN_FOLDER_NAME < length clean)%nat ->
      begins (short_of clean ++ [32%N]) clean
      \/ (short_of clean = PyText.strip (firstn MAX_SUMMARY_IN_FOLDER_NAME clean)
          /\ PyText.rfind 32%N (short_of clean) <= 20)).
Proof.
  intros Hne Hs.
  destruct (stripped_start MAX_SUMMARY_IN_FOLDER_NAME clean Hne Hs ltac:(unfold MAX_SUMMARY_IN_FOLDER_NAME; lia))
    as (Hne' & Hs' & Hb' & Hlen').
  unfold short_of. set (short := PyText.strip (firstn MAX_SUMMARY_IN_FOLDER_NAME clean)) in *.
  destruct (Nat.ltb_spec MAX_SUMMARY_IN_FOLDER_NAME (length clean)) as [Hlong|Hshort].
  2: { split; [exact Hne'|]. split; [exact Hs'|]. split; [exact Hb'|].
       split; [exact Hlen'|]. intros H. lia. }
  cbn zeta. destruct (Z.gtb_spec (PyText.rfind 32%N short) 20) as [Hcut|Hno].
  2: { split; [exact Hne'|]. split; [exact Hs'|]. split; [exact Hb'|].
       split; [exact Hlen'|]. intros _. right. split; [reflexivity | lia]. }
  destruct (rfind_spec 32%N short ltac:(lia)) as (a & b & E & Hla).
  rewrite <- Hla, Nat2Z.id. rewrite E, take_app_length.
  assert (Hba : begins (a ++ [32%N]) clean).
  { eapply begins_trans; [|exact Hb']. exists b. rewrite E, <- app_assoc. reflexivity. }
  split; [intros ->; cbn [length] in Hla; lia|].
  split; [|split; [|split]].
  - destruct Hs' as [Ht _]. rewrite E in Ht. split; [apply (tidy_begins _ _ _ Ht)|].
    intros r c ->. rewrite <- app_assoc in Ht. apply (tidy_before_space _ _ _ _ Ht).
  - eapply begins_trans; [|exact Hba]. exists [32%N]. reflexivity.
  - rewrite E, length_app in Hlen'. lia.
  - intros _. left. exact Hba.
Qed.

Lemma firstn_begins n a t :
  begins a t -> (length a <= n)%nat -> begins a (firstn n t).
Proof.
  intros [x ->] Hn. exists (firstn (n - length a) x).
  rewrite take_app, firstn_all2 by exact Hn. reflexivity.
Qed.

(** The short summary is at most [MAX_SUMMARY_IN_FOLDER_NAME]
    characters long and the full summary at most 2000; the short one is
    the beginning of the full one, and is empty only when the full one
    is: a PDF with text gets a summary in its folder name. *)
Theorem summary_bounds (pdf : option (list page)) :
  let short_summary := fst (extract_pdf_summary pdf) in
  let full_summary := snd (extract_pdf_summary pdf) in
  (length short_summary <= MAX_SUMMARY_IN_FOLDER_NAME)%nat
  /\ (length full_summary <= 2000)%nat
  /\ begins short_summary full_summary
  /\ (short_summary = [] <-> full_summary = []).
Proof.
  cbn zeta. destruct (summary_cases pdf) as [->|(clean & Hne & Hs & ->)]; cbn [fst snd].
  { cbn. split; [lia|]. split; [lia|]. split; [apply begins_refl | tauto]. }
  destruct (short_of_spec clean Hne Hs) as (Hne' & _ & Hb & Hlen & _).
  split; [exact Hlen|]. split; [apply firstn_le_length|].
  split; [apply firstn_begins; [exact Hb | unfold MAX_SUMMARY_IN_FOLDER_NAME in Hlen; lia]|].
  split; [contradiction|]. destruct clean; [contradiction | discriminate].
Qed.

(** The summaries are single-spaced: they hold no white space but
    single spaces between words; the short summary has none at its
    ends, the full one none at its start. *)
Theorem summary_single_spaced (pdf : option (list page)) :
  single_spaced (fst (extract_pdf_summary pdf))
  /\ tidy true (snd (extract_pdf_summary pdf)).
Proof.
  destruct (summary_cases pdf) as [->|(clean & Hne & Hs & ->)]; cbn [fst snd].
  { split; [|exact I]. split; [exact I|]. intros [|? ?] ? [=]. }
  destruct (short_of_spec clean Hne Hs) as (_ & Hs' & _).
  split; [exact Hs' | apply tidy_firstn, Hs].
Qed.



(** A text with no space to cut at is cut inside a word. *)
Example summary_cut_in_word :
  fst (extract_pdf_summary (Some [Extracted (Some (codes
    "EFTA00012345_EFTA00012346_EFTA00012347_EFTA00012348_EFTA00012349_EFTA"))]))
  = codes "EFTA00012345_EFTA00012346_EFTA00012347_EFTA00012348_EFTA0001".
Proof. vm_compute. reflexivity. Qed.

(** Only the first two pages are read, the second only when the first
    gives 500 characters or less, and a page that cannot be read
    leaves no summary at all. *)
Example summary_pages :
  extract_pdf_summary (Some [Extracted (Some (codes "one")); Extracted (Some (codes "two"));
                             Unreadable])
  = (codes "one two", codes "one two")
  /\ extract_pdf_summary (Some [Extracted (Some (codes "one")); Unreadable]) = ([], [])
  /\ extract_pdf_summary (Some [Extracted None; Extracted (Some [])]) = ([], []).
Proof. vm_compute. auto. Qed.

(** ** File names *)

Lemma filter_all {A} (f : A -> bool) (l : list A) :
  Forall (fun x => f x = true) l -> List.filter f l = l.
Proof. induction 1 as [|x l Hx _ IH]; [reflexivity|]. cbn. rewrite Hx, IH. reflexivity. Qed.

Lemma length_filter_le {A} (f : A -> bool) (l : list A) :
  (length (List.filter f l) <= length l)%nat.
Proof. induction l as [|x l IH]; [reflexivity|]. cbn. destruct (f x); cbn; lia. Qed.

Lemma sanitize_spec text :
  let name := sanitize_for_filename text in
  Forall (fun c => invalid_in_filename c = false) name
  /\ single_spaced name
  /\ (forall r c, name = (r ++ [c])%list -> dot_or_space c = false)
  /\ (length name <= length text)%nat.
Proof.
  cbn zeta. unfold sanitize_for_filename.
  set (kept := List.filter (fun c => negb (invalid_in_filename c)) text).
  pose proof (cleaned_single_spaced kept) as [Ht Hl].
  set (clean := PyText.strip (PyText.sub_spaces false kept)) in *.
  assert (Hlast : forall r c, PyText.rstrip dot_or_space clean = (r ++ [c])%list ->
                              dot_or_space c = false).
  { intros r c E. apply (rstrip_last _ _ _ _ E). }
  split; [|split; [|split]].
  - apply Forall_forall. intros c Hc. apply list_elem_of_In, in_rstrip in Hc.
    unfold clean, PyText.strip in Hc. apply in_rstrip, in_lstrip, in_sub_spaces in Hc.
    destruct Hc as [->|Hc]; [reflexivity|].
    apply filter_In in Hc as [_ Hc]. apply negb_true_iff, Hc.
  - split; [apply tidy_rstrip, Ht|]. intros r c E.
    destruct (PyText.isspace c) eqn:Hc; [|reflexivity].
    assert (Hin : In c clean).
    { apply (in_rstrip dot_or_space). rewrite E. apply in_or_app. right. left. reflexivity. }
    rewrite (tidy_spaces _ _ _ Ht Hin Hc) in E. apply Hlast in E. discriminate.
  - exact Hlast.
  - etransitivity; [apply length_text_rstrip|]. unfold clean, PyText.strip.
    etransitivity; [apply length_text_rstrip|].
    etransitivity; [apply length_text_lstrip|].
    etransitivity; [apply length_sub_spaces | apply length_filter_le].
Qed.

(** What [sanitize_for_filename] returns can be part of a file name:
    it holds none of the characters it removes (among them the slash
    and the line ends), it is single-spaced, it does not end in a dot
    or a space, and it is no longer than the text. *)
Theorem sanitized_text_is_a_name (text : list N) :
  let name := sanitize_for_filename text in
  Forall (fun c => invalid_in_filename c = false) name
  /\ single_spaced name
  /\ (forall r c, name = (r ++ [c])%list -> dot_or_space c = false)
  /\ (length name <= length text)%nat.
Proof. apply sanitize_spec. Qed.

(** Sanitizing twice is sanitizing once. *)
Theorem sanitize_idempotent (text : list N) :
  sanitize_for_filename (sanitize_for_filename text) = sanitize_for_filename text.
Proof.
  destruct (sanitize_spec text) as (Hv & Hs & Hl & _).
  set (name := sanitize_for_filename text) in *. unfold sanitize_for_filename at 1.
  rewrite filter_all, (clean_single_spaced _ Hs); [apply rstrip_id, Hl|].
  eapply Forall_impl; [exact Hv|]. cbn. intros c ->. reflexivity.
Qed.

(** Dots and spaces at the end go, with what was between them. *)
Example sanitize_example :
  sanitize_for_filename (codes "  Re:  U.S. v. Doe <draft>?  . .") = codes "Re U.S. v. Doe draft".
Proof. vm_compute. reflexivity. Qed.

(** ** Reading CSV text *)

Lemma feed_cons c s r :
  Csv.feed (String c s) r
  = match Csv.parse_process_char r (Some c) with
    | Some r' => Csv.feed s r'
    | None => None
    end.
Proof. reflexivity. Qed.

Lemma feed_step c s r r' :
  Csv.parse_process_char r (Some c) = Some r' -> Csv.feed (String c s) r = Csv.feed s r'.
Proof. intros H. rewrite feed_cons, H. reflexivity. Qed.

Lemma feed_app a b r :
  Csv.feed (a ++ b) r
  = match Csv.feed a r with Some r' => Csv.feed b r' | None => None end.
Proof.
  revert r. induction a as [|c a IH]; intros r; [reflexivity|].
  rewrite append_cons, !feed_cons. destruct (Csv.parse_process_char r (Some c)); [apply IH | reflexivity].
Qed.

Lemma needs_quotes_cons c f :
  Csv.needs_quotes (String c f)
  = (Ascii.eqb c Csv.delimiter || Ascii.eqb c Csv.quotechar || Csv.is_newline c
     || Csv.needs_quotes f).
Proof. reflexivity. Qed.

Lemma plain_char c f :
  Csv.needs_quotes (String c f) = false ->
  Ascii.eqb c Csv.delimiter = false /\ Ascii.eqb c Csv.quotechar = false
  /\ Csv.is_newline c = false /\ Csv.needs_quotes f = false.
Proof.
  rewrite needs_quotes_cons. intros H.
  apply orb_false_iff in H as [H H4]. apply orb_false_iff in H as [H H3].
  apply orb_false_iff in H as [H1 H2]. auto.
Qed.

Lemma append_snoc (x : string) c g : (x ++ String c "") ++ g = x ++ String c g.
Proof. rewrite append_assoc. reflexivity. Qed.

Lemma append_empty (x : string) : x ++ "" = x.
Proof. induction x as [|d x IH]; [reflexivity|]. rewrite append_cons, IH. reflexivity. Qed.

Lemma char_count_cons c s :
  Csv.char_count (String c s)
  = ((if Csv.starts_char c then 1 else 0) + Csv.char_count s)%N.
Proof. reflexivity. Qed.

Lemma char_count_app x y :
  Csv.char_count (x ++ y) = (Csv.char_count x + Csv.char_count y)%N.
Proof.
  induction x as [|c x IH]; [reflexivity|].
  rewrite append_cons, !char_count_cons, IH. lia.
Qed.

(** A character is added to a field as long as the field stays within
    the limit. *)
Lemma add_char_fits s x fs c :
  (Csv.char_count (x ++ String c "") <= Csv.field_limit)%N ->
  Csv.parse_add_char (Csv.Reader s x fs) c = Some (Csv.Reader s (x ++ String c "") fs).
Proof.
  rewrite char_count_app, char_count_cons. unfold Csv.parse_add_char. cbn [Csv.field Csv.st Csv.fields].
  intros H. destruct (Csv.starts_char c); [|reflexivity].
  destruct (N.leb_spec Csv.field_limit (Csv.char_count x)) as [Hle|_]; [|reflexivity].
  cbn [Csv.char_count] in H. lia.
Qed.

Lemma fits_snoc x c g :
  (Csv.char_count (x ++ String c g) <= Csv.field_limit)%N ->
  (Csv.char_count (x ++ String c "") <= Csv.field_limit)%N.
Proof. rewrite !char_count_app, !char_count_cons. cbn [Csv.char_count]. lia. Qed.

Lemma feed_in_field g x fs :
  Csv.needs_quotes g = false -> (Csv.char_count (x ++ g) <= Csv.field_limit)%N ->
  Csv.feed g (Csv.Reader Csv.IN_FIELD x fs) = Some (Csv.Reader Csv.IN_FIELD (x ++ g) fs).
Proof.
  revert x. induction g as [|c g IH]; intros x Hg Hfit.
  - cbn [Csv.feed]. rewrite append_empty. reflexivity.
  - apply plain_char in Hg as (H1 & H2 & H3 & H4). rewrite feed_cons.
    unfold Csv.parse_process_char. cbn [Csv.st]. rewrite H3, H1.
    rewrite add_char_fits by (apply (fits_snoc _ _ _ Hfit)).
    rewrite (IH _ H4), append_snoc by (rewrite append_snoc; exact Hfit). reflexivity.
Qed.

Lemma double_quotes_cons c g :
  Csv.double_quotes (String c g)
  = if Ascii.eqb c Csv.quotechar then String c (String c (Csv.double_quotes g))
    else String c (Csv.double_quotes g).
Proof. reflexivity. Qed.

Lemma step_quoted c x fs :
  Ascii.eqb c Csv.quotechar = false ->
  (Csv.char_count (x ++ String c "") <= Csv.field_limit)%N ->
  Csv.parse_process_char (Csv.Reader Csv.IN_QUOTED_FIELD x fs) (Some c)
  = Some (Csv.Reader Csv.IN_QUOTED_FIELD (x ++ String c "") fs).
Proof.
  intros E Hfit. unfold Csv.parse_process_char. cbn [Csv.st]. rewrite E.
  apply add_char_fits, Hfit.
Qed.

Lemma step_doubled x fs :
  (Csv.char_count (x ++ String Csv.quotechar "") <= Csv.field_limit)%N ->
  Csv.parse_process_char (Csv.Reader Csv.QUOTE_IN_QUOTED_FIELD x fs) (Some Csv.quotechar)
  = Some (Csv.Reader Csv.IN_QUOTED_FIELD (x ++ String Csv.quotechar "") fs).
Proof.
  intros Hfit. unfold Csv.parse_process_char. cbn [Csv.st]. rewrite Ascii.eqb_refl.
  rewrite add_char_fits by exact Hfit. reflexivity.
Qed.

Lemma feed_quoted g x fs :
  (Csv.char_count (x ++ g) <= Csv.field_limit)%N ->
  Csv.feed (Csv.double_quotes g) (Csv.Reader Csv.IN_QUOTED_FIELD x fs)
  = Some (Csv.Reader Csv.IN_QUOTED_FIELD (x ++ g) fs).
Proof.
  revert x. induction g as [|c g IH]; intros x Hfit.
  - cbn [Csv.double_quotes Csv.feed]. rewrite append_empty. reflexivity.
  - rewrite double_quotes_cons. destruct (Ascii.eqb_spec c Csv.quotechar) as [->|Hne].
    + rewrite (feed_step _ _ _ (Csv.Reader Csv.QUOTE_IN_QUOTED_FIELD x fs)) by reflexivity.
      rewrite (feed_step _ _ _ (Csv.Reader Csv.IN_QUOTED_FIELD (x ++ String Csv.quotechar "") fs))
        by (apply step_doubled, (fits_snoc _ _ _ Hfit)).
      rewrite IH, append_snoc by (rewrite append_snoc; exact Hfit). reflexivity.
    + rewrite feed_cons, step_quoted
        by (try (apply Ascii.eqb_neq; exact Hne); apply (fits_snoc _ _ _ Hfit)).
      rewrite IH, append_snoc by (rewrite append_snoc; exact Hfit). reflexivity.
Qed.

Lemma quote_is_no_newline : Csv.is_newline Csv.quotechar = false.
Proof. reflexivity. Qed.

(** The text of a field is read as the field. *)
Lemma feed_field s f fs :
  s = Csv.START_RECORD \/ s = Csv.START_FIELD ->
  (Csv.char_count f <= Csv.field_limit)%N ->
  Csv.feed (Csv.render_field f) (Csv.Reader s "" fs)
  = Some (Csv.Reader (after_field s f) f fs).
Proof.
  intros Hs Hfit. unfold Csv.render_field, after_field.
  destruct (Csv.needs_quotes f) eqn:Hq.
  - rewrite feed_cons.
    assert (E : Csv.parse_process_char (Csv.Reader s "" fs) (Some Csv.quotechar)
                = Some (Csv.Reader Csv.IN_QUOTED_FIELD "" fs)).
    { destruct Hs as [->| ->]; reflexivity. }
    rewrite E, feed_app, feed_quoted, append_nil, feed_cons by (rewrite append_nil; exact Hfit).
    reflexivity.
  - destruct f as [|c g]; [reflexivity|].
    apply plain_char in Hq as (H1 & H2 & H3 & H4). rewrite feed_cons.
    assert (E : Csv.parse_process_char (Csv.Reader s "" fs) (Some c)
                = Some (Csv.Reader Csv.IN_FIELD (String c "") fs)).
    { assert (Ha : Csv.parse_add_char (Csv.Reader s "" fs) c
                   = Some (Csv.Reader s (String c "") fs)).
      { apply (add_char_fits s "" fs c). rewrite append_nil.
        apply (fits_snoc "" c g). rewrite append_nil. exact Hfit. }
      destruct Hs as [->| ->]; unfold Csv.parse_process_char, Csv.start_field;
        cbn [Csv.st]; rewrite H3, H2, H1, Ha; reflexivity. }
    rewrite E, (feed_in_field _ _ _ H4) by exact Hfit. reflexivity.
Qed.

Lemma delimiter_is_no_newline : Csv.is_newline Csv.delimiter = false.
Proof. reflexivity. Qed.

Lemma after_field_delimiter s f fs :
  s = Csv.START_RECORD \/ s = Csv.START_FIELD ->
  Csv.parse_process_char (Csv.Reader (after_field s f) f fs) (Some Csv.delimiter)
  = Some (Csv.Reader Csv.START_FIELD "" (fs ++ [f])).
Proof.
  intros Hs. unfold after_field. destruct (Csv.needs_quotes f); [reflexivity|].
  destruct f; [destruct Hs as [->| ->]|]; reflexivity.
Qed.

Lemma after_field_newline f fs c :
  Csv.is_newline c = true ->
  Csv.parse_process_char (Csv.Reader (after_field Csv.START_FIELD f) f fs) (Some c)
  = Some (Csv.Reader Csv.EAT_CRNL "" (fs ++ [f])).
Proof.
  intros Hc. unfold after_field.
  assert (Hq : Ascii.eqb c Csv.quotechar = false).
  { destruct (Ascii.eqb_spec c Csv.quotechar) as [->|]; [discriminate | reflexivity]. }
  assert (Hd : Ascii.eqb c Csv.delimiter = false).
  { destruct (Ascii.eqb_spec c Csv.delimiter) as [->|]; [discriminate | reflexivity]. }
  destruct (Csv.needs_quotes f).
  - unfold Csv.parse_process_char. cbn [Csv.st]. rewrite Hq, Hd, Hc. reflexivity.
  - destruct f; unfold Csv.parse_process_char, Csv.start_field; cbn [Csv.st]; rewrite Hc;
      reflexivity.
Qed.

(** The text of a row of two fields up to its line end. *)
Lemma feed_row a b :
  (Csv.char_count a <= Csv.field_limit)%N -> (Csv.char_count b <= Csv.field_limit)%N ->
  Csv.feed (Csv.render_field a ++ String Csv.delimiter (Csv.render_field b)) Csv.fresh
  = Some (Csv.Reader (after_field Csv.START_FIELD b) b [a]).
Proof.
  intros Ha Hb.
  unfold Csv.fresh. rewrite feed_app, (feed_field Csv.START_RECORD a []) by auto.
  rewrite feed_cons, after_field_delimiter by auto.
  apply (feed_field Csv.START_FIELD b [a]); auto.
Qed.

Lemma process_row a b (term : string) :
  (Csv.char_count a <= Csv.field_limit)%N -> (Csv.char_count b <= Csv.field_limit)%N ->
  term = String Csv.LF "" \/ term = String Csv.CR (String Csv.LF "") ->
  Csv.process_line
    ((Csv.render_field a ++ String Csv.delimiter (Csv.render_field b)) ++ term) Csv.fresh
  = Some (Csv.Reader Csv.START_RECORD "" [a; b]).
Proof.
  intros Hfa Hfb Ht. unfold Csv.process_line. rewrite feed_app, feed_row by assumption.
  destruct Ht as [->| ->].
  - rewrite feed_cons, after_field_newline by reflexivity. reflexivity.
  - rewrite feed_cons, after_field_newline by reflexivity. reflexivity.
Qed.

(** *** Lines *)

Lemma lines_of_cons c rest :
  Csv.lines_of (String c rest)
  = if Ascii.eqb c Csv.LF then String c EmptyString :: Csv.lines_of rest
    else match Csv.lines_of rest with
         | [] => [String c EmptyString]
         | line :: lines => String c line :: lines
         end.
Proof. reflexivity. Qed.

Lemma lines_of_line x rest :
  PyStr.contains Csv.LF x = false ->
  Csv.lines_of (x ++ String Csv.LF rest) = (x ++ String Csv.LF "") :: Csv.lines_of rest.
Proof.
  induction x as [|c x IH].
  - intros _. rewrite !append_nil, lines_of_cons, Ascii.eqb_refl. reflexivity.
  - rewrite contains_cons, !append_cons, lines_of_cons, (Ascii.eqb_sym Csv.LF c).
    destruct (Ascii.eqb c Csv.LF); [discriminate|]. intros H. rewrite (IH H). reflexivity.
Qed.

Lemma contains_double_quotes c f :
  PyStr.contains c f = false -> PyStr.contains c (Csv.double_quotes f) = false.
Proof.
  induction f as [|d f IH]; [reflexivity|]. rewrite contains_cons, double_quotes_cons.
  destruct (Ascii.eqb c d) eqn:E; [discriminate|]. intros H.
  destruct (Ascii.eqb d Csv.quotechar); rewrite !contains_cons, ?E; apply IH, H.
Qed.

Lemma contains_render c f :
  Ascii.eqb c Csv.quotechar = false ->
  PyStr.contains c f = false -> PyStr.contains c (Csv.render_field f) = false.
Proof.
  intros Hq Hf. unfold Csv.render_field. destruct (Csv.needs_quotes f); [|exact Hf].
  rewrite contains_cons, Hq, contains_append, (contains_double_quotes _ _ Hf).
  rewrite contains_cons, Hq. reflexivity.
Qed.

Lemma contains_row c a b :
  Ascii.eqb c Csv.quotechar = false -> Ascii.eqb c Csv.delimiter = false ->
  PyStr.contains c a = false -> PyStr.contains c b = false ->
  PyStr.contains c (Csv.render_field a ++ String Csv.delimiter (Csv.render_field b)) = false.
Proof.
  intros Hq Hd Ha Hb.
  rewrite contains_append, contains_cons, Hd, !contains_render by assumption. reflexivity.
Qed.

Lemma writerow_two a b :
  Csv.writerow [a; b]
  = (Csv.render_field a ++ String Csv.delimiter (Csv.render_field b))
    ++ String Csv.CR (String Csv.LF "").
Proof.
  unfold Csv.writerow. cbn [Csv.join_fields].
  destruct (Csv.render_field a ++ String Csv.delimiter (Csv.render_field b)); reflexivity.
Qed.

(** A written row of two fields is read as the two fields, whatever
    follows it. *)
Lemma reader_of_row a b rest :
  PyStr.contains Csv.LF a = false -> PyStr.contains Csv.LF b = false ->
  (Csv.char_count a <= Csv.field_limit)%N -> (Csv.char_count b <= Csv.field_limit)%N ->
  Csv.reader_of (Csv.writerow [a; b] ++ rest)
  = ([a; b] :: fst (Csv.reader_of rest), snd (Csv.reader_of rest)).
Proof.
  intros Ha Hb Hfa Hfb. unfold Csv.reader_of.
  rewrite writerow_two, append_assoc.
  change (String Csv.CR (String Csv.LF "") ++ rest)
    with (String Csv.CR "" ++ String Csv.LF rest).
  rewrite <- append_assoc, lines_of_line.
  2: { rewrite contains_append, contains_row by (reflexivity || assumption). reflexivity. }
  cbn [Csv.read_rows]. rewrite append_assoc.
  change (String Csv.CR "" ++ String Csv.LF "") with (String Csv.CR (String Csv.LF "")).
  rewrite process_row by auto. cbn [Csv.st Csv.fields].
  destruct (Csv.read_rows (Csv.lines_of rest) Csv.fresh). reflexivity.
Qed.

(** The same row as it is read from a file, its line end an LF. *)
Lemma reader_of_row_lf a b rest :
  PyStr.contains Csv.LF a = false -> PyStr.contains Csv.LF b = false ->
  (Csv.char_count a <= Csv.field_limit)%N -> (Csv.char_count b <= Csv.field_limit)%N ->
  Csv.reader_of ((Csv.render_field a ++ String Csv.delimiter (Csv.render_field b))
                 ++ String Csv.LF rest)
  = ([a; b] :: fst (Csv.reader_of rest), snd (Csv.reader_of rest)).
Proof.
  intros Ha Hb Hfa Hfb. unfold Csv.reader_of.
  rewrite lines_of_line by (apply contains_row; reflexivity || assumption).
  cbn [Csv.read_rows]. rewrite process_row by auto. cbn [Csv.st Csv.fields].
  destruct (Csv.read_rows (Csv.lines_of rest) Csv.fresh). reflexivity.
Qed.

Lemma universal_newlines_cons c rest :
  universal_newlines (String c rest)
  = if Ascii.eqb c Csv.CR then
      match rest with
      | String c' rest' =>
          if Ascii.eqb c' Csv.LF then String Csv.LF (universal_newlines rest')
          else String Csv.LF (universal_newlines rest)
      | EmptyString => String Csv.LF EmptyString
      end
    else String c (universal_newlines rest).
Proof. reflexivity. Qed.

Lemma universal_newlines_app x rest :
  PyStr.contains Csv.CR x = false ->
  universal_newlines (x ++ rest) = x ++ universal_newlines rest.
Proof.
  induction x as [|c x IH]; [reflexivity|].
  rewrite contains_cons, !append_cons, universal_newlines_cons, (Ascii.eqb_sym Csv.CR c).
  destruct (Ascii.eqb c Csv.CR); [discriminate|]. intros H. rewrite (IH H). reflexivity.
Qed.

Lemma universal_newlines_row a b rest :
  PyStr.contains Csv.CR a = false -> PyStr.contains Csv.CR b = false ->
  universal_newlines (Csv.writerow [a; b] ++ rest)
  = (Csv.render_field a ++ String Csv.delimiter (Csv.render_field b))
    ++ String Csv.LF (universal_newlines rest).
Proof.
  intros Ha Hb. rewrite writerow_two, append_assoc, universal_newlines_app.
  2: { apply contains_row; reflexivity || assumption. }
  reflexivity.
Qed.

(** The text of the pairs, as written and as read from a file. *)
Lemma reader_of_pairs (rows : list (string * string)) :
  Forall (fun pair => one_line (fst pair) /\ one_line (snd pair)) rows ->
  let text := fold_right (fun pair text => Csv.writerow [fst pair; snd pair] ++ text) "" rows in
  Csv.reader_of text = (rows_of rows, false)
  /\ Csv.reader_of (universal_newlines text) = (rows_of rows, false).
Proof.
  cbn zeta.
  induction 1 as [|[a b] rows [(Ha1 & Ha2 & Ha3) (Hb1 & Hb2 & Hb3)] _ [IH1 IH2]];
    [split; reflexivity|].
  cbn [fold_right fst snd rows_of map] in *. split.
  - rewrite reader_of_row, IH1 by assumption. reflexivity.
  - rewrite universal_newlines_row, reader_of_row_lf, IH2 by assumption. reflexivity.
Qed.

(** ** The pairs of a CSV text *)

Lemma collect_pairs_stripped fieldnames rows failed pdf_col video_col pairs :
  collect_pairs fieldnames rows failed pdf_col video_col = Pairs pairs ->
  Forall (fun pair => stripped (fst pair) /\ stripped (snd pair)) pairs.
Proof.
  revert pairs. induction rows as [|row rest IH]; intros pairs.
  - cbn. destruct failed; [discriminate|]. intros [= <-]. constructor.
  - cbn [collect_pairs]. destruct row as [|f row]; [apply IH|].
    destruct (row_get fieldnames (f :: row) pdf_col) as [pdf|]; [|discriminate].
    destruct (row_get fieldnames (f :: row) video_col) as [vid|]; [|discriminate].
    destruct (collect_pairs fieldnames rest failed pdf_col video_col) as [ps| |];
      try discriminate.
    specialize (IH ps eq_refl).
    destruct (String.eqb_spec (strip pdf) "") as [|Hp]; cbn [negb andb];
      [intros [= <-]; exact IH|].
    destruct (String.eqb_spec (strip vid) "") as [|Hv]; cbn [negb];
      [intros [= <-]; exact IH|].
    intros [= <-]. constructor; [|exact IH]. cbn [fst snd].
    split; (split; [assumption | apply strip_idem]).
Qed.

(** Every pair [_parse_csv_text] returns holds two URLs that are not
    empty and have no white space at their ends. *)
Theorem parsed_pairs_are_stripped (text pdf_col video_col : string) pairs :
  _parse_csv_text text pdf_col video_col = Pairs pairs ->
  Forall (fun pair => stripped (fst pair) /\ stripped (snd pair)) pairs.
Proof.
  unfold _parse_csv_text. destruct (Csv.reader_of text) as [[|fieldnames rows] failed].
  - destruct failed; [discriminate|]. intros [= <-]. constructor.
  - apply collect_pairs_stripped.
Qed.

Example parsed_pairs_are_stripped_witness :
  Forall (fun pair => stripped (fst pair) /\ stripped (snd pair))
         [("http://x/a.pdf", "http://x/a.mov"); ("p", "v")].
Proof.
  apply (parsed_pairs_are_stripped
           ("PDF URL,MOV URL" ++ String Csv.LF (" http://x/a.pdf , http://x/a.mov"
              ++ String Csv.LF ("only.pdf," ++ String Csv.LF (String Csv.LF
                   ("p,v,more" ++ String Csv.LF "")))))
           "PDF URL" "MOV URL").
  vm_compute. reflexivity.
Defined.

Lemma zip_get_absent fieldnames row col found :
  ~ In col fieldnames -> zip_get fieldnames row col found = found.
Proof.
  revert row found. induction fieldnames as [|name fieldnames IH]; intros row found Hn;
    [reflexivity|].
  destruct row as [|value row]; [reflexivity|]. cbn [zip_get].
  destruct (String.eqb_spec name col) as [->|_]; [exfalso; apply Hn; left; reflexivity|].
  apply IH. intros H. apply Hn. right. exact H.
Qed.

Lemma row_get_absent fieldnames row col :
  ~ In col fieldnames -> row_get fieldnames row col = Some "".
Proof.
  intros Hn. unfold row_get.
  assert (E : existsb (String.eqb col) (skipn (length row) fieldnames) = false).
  { apply not_true_is_false. intros H. apply existsb_exists in H as (x & Hx & Hc).
    apply String.eqb_eq in Hc. subst x. apply Hn.
    rewrite <- (firstn_skipn (length row) fieldnames). apply in_or_app. right. exact Hx. }
  rewrite E, (zip_get_absent _ _ _ _ Hn). reflexivity.
Qed.

Lemma collect_pairs_absent fieldnames rows failed pdf_col video_col pairs :
  ~ In pdf_col fieldnames \/ ~ In video_col fieldnames ->
  collect_pairs fieldnames rows failed pdf_col video_col = Pairs pairs -> pairs = [].
Proof.
  intros Hn. revert pairs. induction rows as [|row rest IH]; intros pairs.
  - cbn. destruct failed; [discriminate|]. intros [= <-]. reflexivity.
  - cbn [collect_pairs]. destruct row as [|f row]; [apply IH|].
    destruct (row_get fieldnames (f :: row) pdf_col) as [pdf|] eqn:Ep; [|discriminate].
    destruct (row_get fieldnames (f :: row) video_col) as [vid|] eqn:Ev; [|discriminate].
    destruct (collect_pairs fieldnames rest failed pdf_col video_col) as [ps| |];
      try discriminate.
    rewrite (IH ps eq_refl).
    assert (E : negb (String.eqb (strip pdf) "") && negb (String.eqb (strip vid) "") = false).
    { destruct Hn as [Hn|Hn].
      - rewrite (row_get_absent _ _ _ Hn) in Ep. injection Ep as <-. reflexivity.
      - rewrite (row_get_absent _ _ _ Hn) in Ev. injection Ev as <-. apply andb_false_r. }
    rewrite E. intros [= <-]. reflexivity.
Qed.

(** When the header of the text does not name both columns,
    [_parse_csv_text] returns no pair at all, whatever the rows hold:
    it raises no error of its own for the missing column. *)
Theorem missing_column_no_pairs (text pdf_col video_col : string) pairs :
  ~ In pdf_col (header_of text) \/ ~ In video_col (header_of text) ->
  _parse_csv_text text pdf_col video_col = Pairs pairs -> pairs = [].
Proof.
  unfold _parse_csv_text, header_of.
  destruct (Csv.reader_of text) as [[|fieldnames rows] failed]; cbn [fst hd].
  - intros _. destruct failed; [discriminate|]. intros [= <-]. reflexivity.
  - apply collect_pairs_absent.
Qed.

(** A byte order mark before the header hides the first column. *)
Example missing_column_no_pairs_witness :
  let text := String "239" (String "187" (String "191"
                ("PDF URL,MOV URL" ++ String Csv.LF ("http://x/a.pdf,http://x/a.mov"
                   ++ String Csv.LF "")))) in
  _parse_csv_text text "PDF URL" "MOV URL" = Pairs []
  /\ ([] : list (string * string)) = [].
Proof.
  cbn zeta. split; [vm_compute; reflexivity|].
  apply (missing_column_no_pairs
           (String "239" (String "187" (String "191"
                ("PDF URL,MOV URL" ++ String Csv.LF ("http://x/a.pdf,http://x/a.mov"
                   ++ String Csv.LF "")))))
           "PDF URL" "MOV URL" []).
  - left. vm_compute. intros [H|[H|[]]]; discriminate.
  - vm_compute. reflexivity.
Defined.

(** *** Written by the scraper, read by the downloader *)

Lemma kept_pairs_cons a b rows :
  kept_pairs ((a, b) :: rows)
  = if negb (String.eqb (strip a) "") && negb (String.eqb (strip b) "")
    then (strip a, strip b) :: kept_pairs rows
    else kept_pairs rows.
Proof.
  unfold kept_pairs. cbn [omap list_omap fst snd].
  destruct (negb (String.eqb (strip a) "") && negb (String.eqb (strip b) "")); reflexivity.
Qed.

Lemma collect_two pdf_col video_col rows :
  pdf_col <> video_col ->
  collect_pairs [pdf_col; video_col] (rows_of rows) false pdf_col video_col
  = Pairs (kept_pairs rows).
Proof.
  intros Hne. induction rows as [|[a b] rows IH]; [reflexivity|].
  rewrite kept_pairs_cons.
  cbn [rows_of map fst snd collect_pairs]. fold (rows_of rows). rewrite IH.
  unfold row_get. cbn [length skipn existsb zip_get].
  rewrite !String.eqb_refl.
  destruct (String.eqb_spec pdf_col video_col) as [|_]; [contradiction|].
  destruct (String.eqb_spec video_col pdf_col) as [E|_]; [symmetry in E; contradiction|].
  cbn [default from_option Datatypes.id].
  destruct (negb (String.eqb (strip a) "") && negb (String.eqb (strip b) "")); reflexivity.
Qed.

Lemma kept_pairs_stripped rows :
  Forall (fun pair => stripped (fst pair) /\ stripped (snd pair)) rows ->
  kept_pairs rows = rows.
Proof.
  induction 1 as [|[a b] rows [[Ha1 Ha2] [Hb1 Hb2]] _ IH]; [reflexivity|].
  cbn [fst snd] in *. rewrite kept_pairs_cons, IH, Ha2, Hb2.
  destruct (String.eqb_spec a ""); [contradiction|].
  destruct (String.eqb_spec b ""); [contradiction|]. reflexivity.
Qed.

(** The round trip of the URL pairs.  The text [write_csv] of the
    scraper writes, read from the file as the downloader reads it (line
    ends become LF) and parsed by [_parse_csv_text] under the same two
    column names, gives the pairs in sorted order, each URL stripped,
    the pairs with an empty URL left out: URLs that are not empty and
    have no white space at their ends come back as they were written,
    also those with commas and quotes in them.  The same holds for the
    text parsed as it stands.  (The column names differ, and no name
    and no URL holds a line end or more characters than a field may
    have.) *)
Theorem csv_round_trip (url_pairs : list (string * string)) (pdf_col video_col : string) :
  pdf_col <> video_col -> one_line pdf_col -> one_line video_col ->
  Forall (fun pair => one_line (fst pair) /\ one_line (snd pair)) url_pairs ->
  let text := write_csv url_pairs pdf_col video_col in
  let sorted_pairs := merge_sort pair_le url_pairs in
  _parse_csv_text (universal_newlines text) pdf_col video_col = Pairs (kept_pairs sorted_pairs)
  /\ _parse_csv_text text pdf_col video_col = Pairs (kept_pairs sorted_pairs)
  /\ (Forall (fun pair => stripped (fst pair) /\ stripped (snd pair)) url_pairs ->
      kept_pairs sorted_pairs = sorted_pairs).
Proof.
  intros Hne (Hp1 & Hp2 & Hp3) (Hv1 & Hv2 & Hv3) Hall. cbn zeta. unfold write_csv.
  assert (Hsorted : Forall (fun pair => one_line (fst pair) /\ one_line (snd pair))
                      (merge_sort pair_le url_pairs)).
  { rewrite merge_sort_Permutation. exact Hall. }
  destruct (reader_of_pairs _ Hsorted) as [E1 E2]. cbn zeta in E1, E2.
  split; [|split].
  - unfold _parse_csv_text.
    rewrite universal_newlines_row, reader_of_row_lf, E2 by assumption. cbn [fst snd].
    apply collect_two, Hne.
  - unfold _parse_csv_text. rewrite reader_of_row, E1 by assumption. cbn [fst snd].
    apply collect_two, Hne.
  - intros Hs. apply kept_pairs_stripped. rewrite merge_sort_Permutation. exact Hs.
Qed.

Example csv_round_trip_witness :
  let url_pairs := [("https://x/DataSet 3/B.pdf", "https://x/DataSet 3/B.mov");
                    ("https://x/a,b.pdf", "https://x/a,b.mov")] in
  let text := write_csv url_pairs "PDF URL" "MOV URL" in
  let sorted_pairs := merge_sort pair_le url_pairs in
  _parse_csv_text (universal_newlines text) "PDF URL" "MOV URL" = Pairs (kept_pairs sorted_pairs)
  /\ _parse_csv_text text "PDF URL" "MOV URL" = Pairs (kept_pairs sorted_pairs)
  /\ (Forall (fun pair => stripped (fst pair) /\ stripped (snd pair)) url_pairs ->
      kept_pairs sorted_pairs = sorted_pairs).
Proof.
  apply (csv_round_trip
           [("https://x/DataSet 3/B.pdf", "https://x/DataSet 3/B.mov");
            ("https://x/a,b.pdf", "https://x/a,b.mov")] "PDF URL" "MOV URL").
  - discriminate.
  - repeat split; vm_compute; discriminate.
  - repeat split; vm_compute; discriminate.
  - repeat constructor; vm_compute; discriminate.
Defined.

(** The text of that example: the pair with a comma comes first and is
    written in quotes. *)
Example csv_text_example :
  merge_sort pair_le [("https://x/DataSet 3/B.pdf", "https://x/DataSet 3/B.mov");
                      ("https://x/a,b.pdf", "https://x/a,b.mov")]
  = [("https://x/DataSet 3/B.pdf", "https://x/DataSet 3/B.mov");
     ("https://x/a,b.pdf", "https://x/a,b.mov")]
  /\ Csv.writerow ["https://x/a,b.pdf"; "x"]
     = String Csv.quotechar ("https://x/a,b.pdf" ++ String Csv.quotechar
         ("," ++ "x" ++ String Csv.CR (String Csv.LF ""))).
Proof. vm_compute. auto. Qed.

(** *** A row that is too short *)

Lemma plain_no_newline c f :
  Csv.is_newline c = true -> Csv.needs_quotes f = false -> PyStr.contains c f = false.
Proof.
  intros Hc. induction f as [|d f IH]; [reflexivity|]. intros H.
  apply plain_char in H as (_ & _ & Hd & Hf). rewrite contains_cons.
  destruct (Ascii.eqb_spec c d) as [->|]; [congruence | apply IH, Hf].
Qed.

Lemma render_plain f : Csv.needs_quotes f = false -> Csv.render_field f = f.
Proof. intros H. unfold Csv.render_field. rewrite H. reflexivity. Qed.

Lemma reader_of_one_field p rest :
  Csv.needs_quotes p = false -> p <> "" -> (Csv.char_count p <= Csv.field_limit)%N ->
  Csv.reader_of (p ++ String Csv.LF rest)
  = ([p] :: fst (Csv.reader_of rest), snd (Csv.reader_of rest)).
Proof.
  intros Hp Hne Hfit. unfold Csv.reader_of.
  rewrite lines_of_line by (apply plain_no_newline; [reflexivity | exact Hp]).
  cbn [Csv.read_rows]. unfold Csv.process_line, Csv.fresh.
  rewrite feed_app. rewrite <- (render_plain p Hp) at 1.
  rewrite (feed_field Csv.START_RECORD p []) by auto.
  unfold after_field. rewrite Hp. destruct p as [|c p]; [contradiction|].
  rewrite (feed_step _ _ _ (Csv.Reader Csv.EAT_CRNL "" [String c p])) by reflexivity.
  cbn [Csv.feed Csv.parse_process_char Csv.st Csv.set_state Csv.fields Csv.field].
  destruct (Csv.read_rows (Csv.lines_of rest) (Csv.Reader Csv.START_RECORD "" [])).
  reflexivity.
Qed.

(** A row with one field only, a line with no comma after a header of
    two columns, makes [_parse_csv_text] raise [AttributeError]: the
    second column has the value [None], which has no [strip].  (The
    names and the field hold no comma, quote or line end, and no more
    characters than a field may have.) *)
Theorem short_row_raises (pdf_col video_col p rest : string) :
  Csv.needs_quotes pdf_col = false -> Csv.needs_quotes video_col = false ->
  Csv.needs_quotes p = false -> p <> "" ->
  (Csv.char_count pdf_col <= Csv.field_limit)%N ->
  (Csv.char_count video_col <= Csv.field_limit)%N ->
  (Csv.char_count p <= Csv.field_limit)%N ->
  _parse_csv_text
    ((pdf_col ++ String Csv.delimiter video_col) ++ String Csv.LF (p ++ String Csv.LF rest))
    pdf_col video_col
  = Raises_AttributeError.
Proof.
  intros Hpc Hvc Hp Hne Hf1 Hf2 Hf3. unfold _parse_csv_text.
  rewrite <- (render_plain pdf_col Hpc) at 1. rewrite <- (render_plain video_col Hvc) at 1.
  rewrite reader_of_row_lf
    by (assumption || (apply plain_no_newline; [reflexivity | assumption])).
  rewrite reader_of_one_field by assumption. cbn [fst snd collect_pairs].
  unfold row_get. cbn [length skipn existsb zip_get].
  rewrite !String.eqb_refl. cbn [orb].
  destruct (String.eqb pdf_col video_col); reflexivity.
Qed.

Example short_row_raises_witness :
  _parse_csv_text
    (("PDF URL" ++ String Csv.delimiter "MOV URL")
     ++ String Csv.LF ("https://x/a.pdf" ++ String Csv.LF "https://x/b.pdf,https://x/b.mov"))
    "PDF URL" "MOV URL"
  = Raises_AttributeError.
Proof.
  apply (short_row_raises "PDF URL" "MOV URL" "https://x/a.pdf"
           "https://x/b.pdf,https://x/b.mov");
    try reflexivity; try discriminate; vm_compute; discriminate.
Defined.
